(** * Letter guessing game: a shallow embedding of [letter_guessing_game.py]

  The development follows the layout of the Python module:
  - [PyStr]    Python strings and the string methods the game calls on
               terminal input;
  - [UCD]      the Unicode character database of CPython 3.11;
  - [Py]       exceptions and outcomes of a call;
  - [WordBank] the constants and [WORD_DATABASE];
  - [Ledger]   the high-score list: [add_high_score]'s list surgery and the
               qualification test of [play_game];
  - [Store]    the score file: [load_high_scores] and [save_high_scores];
  - [Game]     the object [LetterGuessingGame] and the session state;
  - [Round]    [is_word_complete] and [play_round];
  - [Session]  [get_difficulty], [add_high_score] and [play_game];
  - [Examples] the inputs on which the scenarios are run;
  - [Display]  [display_word_state] and the table of [display_high_scores];
  - [Menu]     [run];
  - [Views]    names for what the further properties speak of.

  The properties follow the definitions, one section for each part; the
  scenarios that run the properties on concrete inputs follow their
  section.

  A Python string is a sequence of Unicode code points.  What [str.strip],
  [str.upper] and [str.isalpha] read in the Unicode character database is
  a parameter of the definitions, the class [Unicode], and the facts about
  the database that proofs rely on are the fields of [Lawful]: the
  properties hold for the database of every version of Python that
  satisfies them.  [UCD.ucd] is the database of CPython 3.11, proved
  lawful; the scenarios are run on it.

  The ledger of the game object is a list of entries with the four fields
  that [add_high_score] writes.  [load_high_scores] returns whatever the
  score file holds, and [Store] keeps that apart from the ledger: what the
  methods do on a loaded value that is no such list is not modelled.

  Printing, colours, [clear_screen] and [time.sleep] change nothing the
  game later reads and are left out.  Terminal input is a finite list of
  lines; when the lines have run out [input()] raises the exception with
  which the terminal ends: [EOFError] at the end of input,
  [KeyboardInterrupt] when the player interrupts the prompt.  An interrupt
  is modelled where it ends a prompt; one that arrives while the program
  sleeps or prints is not. *)

From Stdlib Require Import ZArith NArith String Ascii List Sorted Permutation Lia.
From stdpp Require Import gmap strings list.

Set Warnings "-register-all".

Local Open Scope string_scope.

(** ** Python strings *)

Module PyStr.

(** A code point is a number from 0 to 0x10FFFF; a [str] is a list of code
    points.  [len(s)] is the length of the list and [s == t] is equality
    of lists. *)
Abbreviation codepoint := N (only parsing).
Abbreviation str := (list N) (only parsing).

(** The [str] of a literal of ASCII characters. *)
Definition py (s : string) : str :=
  map (fun c => N.of_nat (nat_of_ascii c)) (list_ascii_of_string s).

(** What the Unicode character database says of the ASCII code points:
    the letters are A-Z and a-z, a-z have the upper-case forms A-Z and
    every other code point is its own, and the white space is TAB, LF, VT,
    FF, CR, the separators 28..31 and the blank. *)
Definition is_lower (c : codepoint) : bool := ((97 <=? c) && (c <=? 122))%N.

Definition is_upper (c : codepoint) : bool := ((65 <=? c) && (c <=? 90))%N.

Definition ascii_isalpha (c : codepoint) : bool := is_upper c || is_lower c.

Definition ascii_upper (c : codepoint) : codepoint :=
  if is_lower c then (c - 32)%N else c.

Definition ascii_isspace (c : codepoint) : bool :=
  (((9 <=? c) && (c <=? 13)) || ((28 <=? c) && (c <=? 32)))%N.

(** The three tables of the Unicode character database that the methods
    below read, code point by code point: whether it is alphabetic
    ([str.isalpha]), whether it is white space ([str.isspace], which is
    what [str.strip] removes), and its full upper-case mapping, one to
    three code points ([str.upper]; the upper case of U+00DF is "SS"). *)
Class Unicode : Type := {
  alphabetic : codepoint -> bool;
  whitespace : codepoint -> bool;
  uppercase : codepoint -> str
}.

Section Methods.

Context `{U : Unicode}.

(** [s.upper()]: every code point is replaced by its upper-case mapping. *)
Definition upper (s : str) : str := s ≫= uppercase.

(** [s.isalpha()]: every code point is alphabetic and there is at least
    one. *)
Definition isalpha (s : str) : bool :=
  match s with
  | [] => false
  | _ :: _ => forallb alphabetic s
  end.

Fixpoint lstrip (s : str) : str :=
  match s with
  | [] => []
  | c :: r => if whitespace c then lstrip r else s
  end.

Definition rstrip (s : str) : str := reverse (lstrip (reverse s)).

(** [s.strip()] *)
Definition strip (s : str) : str := rstrip (lstrip s).

(** A string of white space only. *)
Definition blank (s : str) : bool := forallb whitespace s.

End Methods.

(** [sub in s] on two strings: [sub] occurs in [s] as a substring. *)
Fixpoint contains (sub s : str) : bool :=
  bool_decide (sub `prefix_of` s) ||
  match s with
  | [] => false
  | _ :: r => contains sub r
  end.

(** Iterating a string yields its code points as strings of length one. *)
Definition letters (s : str) : list str := map (fun c => [c]) s.

(** A string of ASCII code points only. *)
Definition is_ascii (s : str) : bool := forallb (fun c => (c <? 128)%N) s.

(** Facts of the Unicode character database: its ASCII rows; white space
    has no case; the upper-case mapping of any other code point is not
    empty and holds no white space; mapping to upper case twice is mapping
    once; and outside ASCII the only ASCII code points an upper-case
    mapping holds are capital letters. *)
Class Lawful (U : Unicode) : Prop := {
  ascii_alphabetic c : (c < 128)%N -> alphabetic c = ascii_isalpha c;
  ascii_whitespace c : (c < 128)%N -> whitespace c = ascii_isspace c;
  ascii_uppercase c : (c < 128)%N -> uppercase c = [ascii_upper c];
  uppercase_space c : whitespace c = true -> uppercase c = [c];
  uppercase_no_space c :
    whitespace c = false ->
    uppercase c <> [] /\ Forall (fun u => whitespace u = false) (uppercase c);
  uppercase_idem c : upper (uppercase c) = uppercase c;
  uppercase_capital c u :
    (128 <= c)%N -> u ∈ uppercase c -> (u < 128)%N -> is_upper u = true
}.

(** The ASCII rows alone, every other code point taken for a symbol
    without case.  On ASCII input every lawful database answers as this
    one does, which is how the proofs run the game on the words of
    [WORD_DATABASE]; it stands for no Python and no scenario is run on
    it. *)
Definition basic_latin : Unicode :=
  {| alphabetic := ascii_isalpha;
     whitespace := ascii_isspace;
     uppercase := fun c => [ascii_upper c] |}.

End PyStr.

(** ** The Unicode character database *)

Module UCD.

Import PyStr.

Local Open Scope N_scope.

(** The rows of the Unicode character database, version 14.0.0 (the one
    CPython 3.11 is built with, [unicodedata.unidata_version]), that the
    string methods of the game read. *)

(** The code points [c] with [chr(c).isspace()]: bidirectional class WS,
    B or S, or general category Zs.  These are what [str.strip()] removes. *)
Definition White_Space : list codepoint :=
  [
   9; 10; 11; 12; 13; 28; 29; 30; 31; 32; 133; 160; 5760; 8192; 8193; 8194;
   8195; 8196; 8197; 8198; 8199; 8200; 8201; 8202; 8232; 8233; 8239; 8287;
   12288
  ].

(** The code points [c] with [chr(c).isalpha()]: general category Lu, Ll,
    Lt, Lm or Lo, as ranges with both ends included. *)
Definition Letter : list (codepoint * codepoint) :=
  [
   (65, 90); (97, 122); (170, 170); (181, 181); (186, 186); (192, 214);
   (216, 246); (248, 705); (710, 721); (736, 740); (748, 748); (750, 750);
   (880, 884); (886, 887); (890, 893); (895, 895); (902, 902); (904, 906);
   (908, 908); (910, 929); (931, 1013); (1015, 1153); (1162, 1327); (1329,
   1366); (1369, 1369); (1376, 1416); (1488, 1514); (1519, 1522); (1568,
   1610); (1646, 1647); (1649, 1747); (1749, 1749); (1765, 1766); (1774,
   1775); (1786, 1788); (1791, 1791); (1808, 1808); (1810, 1839); (1869,
   1957); (1969, 1969); (1994, 2026); (2036, 2037); (2042, 2042); (2048,
   2069); (2074, 2074); (2084, 2084); (2088, 2088); (2112, 2136); (2144,
   2154); (2160, 2183); (2185, 2190); (2208, 2249); (2308, 2361); (2365,
   2365); (2384, 2384); (2392, 2401); (2417, 2432); (2437, 2444); (2447,
   2448); (2451, 2472); (2474, 2480); (2482, 2482); (2486, 2489); (2493,
   2493); (2510, 2510); (2524, 2525); (2527, 2529); (2544, 2545); (2556,
   2556); (2565, 2570); (2575, 2576); (2579, 2600); (2602, 2608); (2610,
   2611); (2613, 2614); (2616, 2617); (2649, 2652); (2654, 2654); (2674,
   2676); (2693, 2701); (2703, 2705); (2707, 2728); (2730, 2736); (2738,
   2739); (2741, 2745); (2749, 2749); (2768, 2768); (2784, 2785); (2809,
   2809); (2821, 2828); (2831, 2832); (2835, 2856); (2858, 2864); (2866,
   2867); (2869, 2873); (2877, 2877); (2908, 2909); (2911, 2913); (2929,
   2929); (2947, 2947); (2949, 2954); (2958, 2960); (2962, 2965); (2969,
   2970); (2972, 2972); (2974, 2975); (2979, 2980); (2984, 2986); (2990,
   3001); (3024, 3024); (3077, 3084); (3086, 3088); (3090, 3112); (3114,
   3129); (3133, 3133); (3160, 3162); (3165, 3165); (3168, 3169); (3200,
   3200); (3205, 3212); (3214, 3216); (3218, 3240); (3242, 3251); (3253,
   3257); (3261, 3261); (3293, 3294); (3296, 3297); (3313, 3314); (3332,
   3340); (3342, 3344); (3346, 3386); (3389, 3389); (3406, 3406); (3412,
   3414); (3423, 3425); (3450, 3455); (3461, 3478); (3482, 3505); (3507,
   3515); (3517, 3517); (3520, 3526); (3585, 3632); (3634, 3635); (3648,
   3654); (3713, 3714); (3716, 3716); (3718, 3722); (3724, 3747); (3749,
   3749); (3751, 3760); (3762, 3763); (3773, 3773); (3776, 3780); (3782,
   3782); (3804, 3807); (3840, 3840); (3904, 3911); (3913, 3948); (3976,
   3980); (4096, 4138); (4159, 4159); (4176, 4181); (4186, 4189); (4193,
   4193); (4197, 4198); (4206, 4208); (4213, 4225); (4238, 4238); (4256,
   4293); (4295, 4295); (4301, 4301); (4304, 4346); (4348, 4680); (4682,
   4685); (4688, 4694); (4696, 4696); (4698, 4701); (4704, 4744); (4746,
   4749); (4752, 4784); (4786, 4789); (4792, 4798); (4800, 4800); (4802,
   4805); (4808, 4822); (4824, 4880); (4882, 4885); (4888, 4954); (4992,
   5007); (5024, 5109); (5112, 5117); (5121, 5740); (5743, 5759); (5761,
   5786); (5792, 5866); (5873, 5880); (5888, 5905); (5919, 5937); (5952,
   5969); (5984, 5996); (5998, 6000); (6016, 6067); (6103, 6103); (6108,
   6108); (6176, 6264); (6272, 6276); (6279, 6312); (6314, 6314); (6320,
   6389); (6400, 6430); (6480, 6509); (6512, 6516); (6528, 6571); (6576,
   6601); (6656, 6678); (6688, 6740); (6823, 6823); (6917, 6963); (6981,
   6988); (7043, 7072); (7086, 7087); (7098, 7141); (7168, 7203); (7245,
   7247); (7258, 7293); (7296, 7304); (7312, 7354); (7357, 7359); (7401,
   7404); (7406, 7411); (7413, 7414); (7418, 7418); (7424, 7615); (7680,
   7957); (7960, 7965); (7968, 8005); (8008, 8013); (8016, 8023); (8025,
   8025); (8027, 8027); (8029, 8029); (8031, 8061); (8064, 8116); (8118,
   8124); (8126, 8126); (8130, 8132); (8134, 8140); (8144, 8147); (8150,
   8155); (8160, 8172); (8178, 8180); (8182, 8188); (8305, 8305); (8319,
   8319); (8336, 8348); (8450, 8450); (8455, 8455); (8458, 8467); (8469,
   8469); (8473, 8477); (8484, 8484); (8486, 8486); (8488, 8488); (8490,
   8493); (8495, 8505); (8508, 8511); (8517, 8521); (8526, 8526); (8579,
   8580); (11264, 11492); (11499, 11502); (11506, 11507); (11520, 11557);
   (11559, 11559); (11565, 11565); (11568, 11623); (11631, 11631); (11648,
   11670); (11680, 11686); (11688, 11694); (11696, 11702); (11704, 11710);
   (11712, 11718); (11720, 11726); (11728, 11734); (11736, 11742); (11823,
   11823); (12293, 12294); (12337, 12341); (12347, 12348); (12353, 12438);
   (12445, 12447); (12449, 12538); (12540, 12543); (12549, 12591); (12593,
   12686); (12704, 12735); (12784, 12799); (13312, 19903); (19968, 42124);
   (42192, 42237); (42240, 42508); (42512, 42527); (42538, 42539); (42560,
   42606); (42623, 42653); (42656, 42725); (42775, 42783); (42786, 42888);
   (42891, 42954); (42960, 42961); (42963, 42963); (42965, 42969); (42994,
   43009); (43011, 43013); (43015, 43018); (43020, 43042); (43072, 43123);
   (43138, 43187); (43250, 43255); (43259, 43259); (43261, 43262); (43274,
   43301); (43312, 43334); (43360, 43388); (43396, 43442); (43471, 43471);
   (43488, 43492); (43494, 43503); (43514, 43518); (43520, 43560); (43584,
   43586); (43588, 43595); (43616, 43638); (43642, 43642); (43646, 43695);
   (43697, 43697); (43701, 43702); (43705, 43709); (43712, 43712); (43714,
   43714); (43739, 43741); (43744, 43754); (43762, 43764); (43777, 43782);
   (43785, 43790); (43793, 43798); (43808, 43814); (43816, 43822); (43824,
   43866); (43868, 43881); (43888, 44002); (44032, 55203); (55216, 55238);
   (55243, 55291); (63744, 64109); (64112, 64217); (64256, 64262); (64275,
   64279); (64285, 64285); (64287, 64296); (64298, 64310); (64312, 64316);
   (64318, 64318); (64320, 64321); (64323, 64324); (64326, 64433); (64467,
   64829); (64848, 64911); (64914, 64967); (65008, 65019); (65136, 65140);
   (65142, 65276); (65313, 65338); (65345, 65370); (65382, 65470); (65474,
   65479); (65482, 65487); (65490, 65495); (65498, 65500); (65536, 65547);
   (65549, 65574); (65576, 65594); (65596, 65597); (65599, 65613); (65616,
   65629); (65664, 65786); (66176, 66204); (66208, 66256); (66304, 66335);
   (66349, 66368); (66370, 66377); (66384, 66421); (66432, 66461); (66464,
   66499); (66504, 66511); (66560, 66717); (66736, 66771); (66776, 66811);
   (66816, 66855); (66864, 66915); (66928, 66938); (66940, 66954); (66956,
   66962); (66964, 66965); (66967, 66977); (66979, 66993); (66995, 67001);
   (67003, 67004); (67072, 67382); (67392, 67413); (67424, 67431); (67456,
   67461); (67463, 67504); (67506, 67514); (67584, 67589); (67592, 67592);
   (67594, 67637); (67639, 67640); (67644, 67644); (67647, 67669); (67680,
   67702); (67712, 67742); (67808, 67826); (67828, 67829); (67840, 67861);
   (67872, 67897); (67968, 68023); (68030, 68031); (68096, 68096); (68112,
   68115); (68117, 68119); (68121, 68149); (68192, 68220); (68224, 68252);
   (68288, 68295); (68297, 68324); (68352, 68405); (68416, 68437); (68448,
   68466); (68480, 68497); (68608, 68680); (68736, 68786); (68800, 68850);
   (68864, 68899); (69248, 69289); (69296, 69297); (69376, 69404); (69415,
   69415); (69424, 69445); (69488, 69505); (69552, 69572); (69600, 69622);
   (69635, 69687); (69745, 69746); (69749, 69749); (69763, 69807); (69840,
   69864); (69891, 69926); (69956, 69956); (69959, 69959); (69968, 70002);
   (70006, 70006); (70019, 70066); (70081, 70084); (70106, 70106); (70108,
   70108); (70144, 70161); (70163, 70187); (70272, 70278); (70280, 70280);
   (70282, 70285); (70287, 70301); (70303, 70312); (70320, 70366); (70405,
   70412); (70415, 70416); (70419, 70440); (70442, 70448); (70450, 70451);
   (70453, 70457); (70461, 70461); (70480, 70480); (70493, 70497); (70656,
   70708); (70727, 70730); (70751, 70753); (70784, 70831); (70852, 70853);
   (70855, 70855); (71040, 71086); (71128, 71131); (71168, 71215); (71236,
   71236); (71296, 71338); (71352, 71352); (71424, 71450); (71488, 71494);
   (71680, 71723); (71840, 71903); (71935, 71942); (71945, 71945); (71948,
   71955); (71957, 71958); (71960, 71983); (71999, 71999); (72001, 72001);
   (72096, 72103); (72106, 72144); (72161, 72161); (72163, 72163); (72192,
   72192); (72203, 72242); (72250, 72250); (72272, 72272); (72284, 72329);
   (72349, 72349); (72368, 72440); (72704, 72712); (72714, 72750); (72768,
   72768); (72818, 72847); (72960, 72966); (72968, 72969); (72971, 73008);
   (73030, 73030); (73056, 73061); (73063, 73064); (73066, 73097); (73112,
   73112); (73440, 73458); (73648, 73648); (73728, 74649); (74880, 75075);
   (77712, 77808); (77824, 78894); (82944, 83526); (92160, 92728); (92736,
   92766); (92784, 92862); (92880, 92909); (92928, 92975); (92992, 92995);
   (93027, 93047); (93053, 93071); (93760, 93823); (93952, 94026); (94032,
   94032); (94099, 94111); (94176, 94177); (94179, 94179); (94208, 100343);
   (100352, 101589); (101632, 101640); (110576, 110579); (110581, 110587);
   (110589, 110590); (110592, 110882); (110928, 110930); (110948, 110951);
   (110960, 111355); (113664, 113770); (113776, 113788); (113792, 113800);
   (113808, 113817); (119808, 119892); (119894, 119964); (119966, 119967);
   (119970, 119970); (119973, 119974); (119977, 119980); (119982, 119993);
   (119995, 119995); (119997, 120003); (120005, 120069); (120071, 120074);
   (120077, 120084); (120086, 120092); (120094, 120121); (120123, 120126);
   (120128, 120132); (120134, 120134); (120138, 120144); (120146, 120485);
   (120488, 120512); (120514, 120538); (120540, 120570); (120572, 120596);
   (120598, 120628); (120630, 120654); (120656, 120686); (120688, 120712);
   (120714, 120744); (120746, 120770); (120772, 120779); (122624, 122654);
   (123136, 123180); (123191, 123197); (123214, 123214); (123536, 123565);
   (123584, 123627); (124896, 124902); (124904, 124907); (124909, 124910);
   (124912, 124926); (124928, 125124); (125184, 125251); (125259, 125259);
   (126464, 126467); (126469, 126495); (126497, 126498); (126500, 126500);
   (126503, 126503); (126505, 126514); (126516, 126519); (126521, 126521);
   (126523, 126523); (126530, 126530); (126535, 126535); (126537, 126537);
   (126539, 126539); (126541, 126543); (126545, 126546); (126548, 126548);
   (126551, 126551); (126553, 126553); (126555, 126555); (126557, 126557);
   (126559, 126559); (126561, 126562); (126564, 126564); (126567, 126570);
   (126572, 126578); (126580, 126583); (126585, 126588); (126590, 126590);
   (126592, 126601); (126603, 126619); (126625, 126627); (126629, 126633);
   (126635, 126651); (131072, 173791); (173824, 177976); (177984, 178205);
   (178208, 183969); (183984, 191456); (194560, 195101); (196608, 201546)
  ].

(** The code points [c] with [chr(c).upper() != chr(c)], each with the
    code points of [chr(c).upper()]. *)
Definition Uppercase_Mapping : list (codepoint * str) :=
  [
   (97, [65]); (98, [66]); (99, [67]); (100, [68]); (101, [69]); (102,
   [70]); (103, [71]); (104, [72]); (105, [73]); (106, [74]); (107, [75]);
   (108, [76]); (109, [77]); (110, [78]); (111, [79]); (112, [80]); (113,
   [81]); (114, [82]); (115, [83]); (116, [84]); (117, [85]); (118, [86]);
   (119, [87]); (120, [88]); (121, [89]); (122, [90]); (181, [924]); (223,
   [83; 83]); (224, [192]); (225, [193]); (226, [194]); (227, [195]); (228,
   [196]); (229, [197]); (230, [198]); (231, [199]); (232, [200]); (233,
   [201]); (234, [202]); (235, [203]); (236, [204]); (237, [205]); (238,
   [206]); (239, [207]); (240, [208]); (241, [209]); (242, [210]); (243,
   [211]); (244, [212]); (245, [213]); (246, [214]); (248, [216]); (249,
   [217]); (250, [218]); (251, [219]); (252, [220]); (253, [221]); (254,
   [222]); (255, [376]); (257, [256]); (259, [258]); (261, [260]); (263,
   [262]); (265, [264]); (267, [266]); (269, [268]); (271, [270]); (273,
   [272]); (275, [274]); (277, [276]); (279, [278]); (281, [280]); (283,
   [282]); (285, [284]); (287, [286]); (289, [288]); (291, [290]); (293,
   [292]); (295, [294]); (297, [296]); (299, [298]); (301, [300]); (303,
   [302]); (305, [73]); (307, [306]); (309, [308]); (311, [310]); (314,
   [313]); (316, [315]); (318, [317]); (320, [319]); (322, [321]); (324,
   [323]); (326, [325]); (328, [327]); (329, [700; 78]); (331, [330]); (333,
   [332]); (335, [334]); (337, [336]); (339, [338]); (341, [340]); (343,
   [342]); (345, [344]); (347, [346]); (349, [348]); (351, [350]); (353,
   [352]); (355, [354]); (357, [356]); (359, [358]); (361, [360]); (363,
   [362]); (365, [364]); (367, [366]); (369, [368]); (371, [370]); (373,
   [372]); (375, [374]); (378, [377]); (380, [379]); (382, [381]); (383,
   [83]); (384, [579]); (387, [386]); (389, [388]); (392, [391]); (396,
   [395]); (402, [401]); (405, [502]); (409, [408]); (410, [573]); (414,
   [544]); (417, [416]); (419, [418]); (421, [420]); (424, [423]); (429,
   [428]); (432, [431]); (436, [435]); (438, [437]); (441, [440]); (445,
   [444]); (447, [503]); (453, [452]); (454, [452]); (456, [455]); (457,
   [455]); (459, [458]); (460, [458]); (462, [461]); (464, [463]); (466,
   [465]); (468, [467]); (470, [469]); (472, [471]); (474, [473]); (476,
   [475]); (477, [398]); (479, [478]); (481, [480]); (483, [482]); (485,
   [484]); (487, [486]); (489, [488]); (491, [490]); (493, [492]); (495,
   [494]); (496, [74; 780]); (498, [497]); (499, [497]); (501, [500]); (505,
   [504]); (507, [506]); (509, [508]); (511, [510]); (513, [512]); (515,
   [514]); (517, [516]); (519, [518]); (521, [520]); (523, [522]); (525,
   [524]); (527, [526]); (529, [528]); (531, [530]); (533, [532]); (535,
   [534]); (537, [536]); (539, [538]); (541, [540]); (543, [542]); (547,
   [546]); (549, [548]); (551, [550]); (553, [552]); (555, [554]); (557,
   [556]); (559, [558]); (561, [560]); (563, [562]); (572, [571]); (575,
   [11390]); (576, [11391]); (578, [577]); (583, [582]); (585, [584]); (587,
   [586]); (589, [588]); (591, [590]); (592, [11375]); (593, [11373]); (594,
   [11376]); (595, [385]); (596, [390]); (598, [393]); (599, [394]); (601,
   [399]); (603, [400]); (604, [42923]); (608, [403]); (609, [42924]); (611,
   [404]); (613, [42893]); (614, [42922]); (616, [407]); (617, [406]); (618,
   [42926]); (619, [11362]); (620, [42925]); (623, [412]); (625, [11374]);
   (626, [413]); (629, [415]); (637, [11364]); (640, [422]); (642, [42949]);
   (643, [425]); (647, [42929]); (648, [430]); (649, [580]); (650, [433]);
   (651, [434]); (652, [581]); (658, [439]); (669, [42930]); (670, [42928]);
   (837, [921]); (881, [880]); (883, [882]); (887, [886]); (891, [1021]);
   (892, [1022]); (893, [1023]); (912, [921; 776; 769]); (940, [902]); (941,
   [904]); (942, [905]); (943, [906]); (944, [933; 776; 769]); (945, [913]);
   (946, [914]); (947, [915]); (948, [916]); (949, [917]); (950, [918]);
   (951, [919]); (952, [920]); (953, [921]); (954, [922]); (955, [923]);
   (956, [924]); (957, [925]); (958, [926]); (959, [927]); (960, [928]);
   (961, [929]); (962, [931]); (963, [931]); (964, [932]); (965, [933]);
   (966, [934]); (967, [935]); (968, [936]); (969, [937]); (970, [938]);
   (971, [939]); (972, [908]); (973, [910]); (974, [911]); (976, [914]);
   (977, [920]); (981, [934]); (982, [928]); (983, [975]); (985, [984]);
   (987, [986]); (989, [988]); (991, [990]); (993, [992]); (995, [994]);
   (997, [996]); (999, [998]); (1001, [1000]); (1003, [1002]); (1005,
   [1004]); (1007, [1006]); (1008, [922]); (1009, [929]); (1010, [1017]);
   (1011, [895]); (1013, [917]); (1016, [1015]); (1019, [1018]); (1072,
   [1040]); (1073, [1041]); (1074, [1042]); (1075, [1043]); (1076, [1044]);
   (1077, [1045]); (1078, [1046]); (1079, [1047]); (1080, [1048]); (1081,
   [1049]); (1082, [1050]); (1083, [1051]); (1084, [1052]); (1085, [1053]);
   (1086, [1054]); (1087, [1055]); (1088, [1056]); (1089, [1057]); (1090,
   [1058]); (1091, [1059]); (1092, [1060]); (1093, [1061]); (1094, [1062]);
   (1095, [1063]); (1096, [1064]); (1097, [1065]); (1098, [1066]); (1099,
   [1067]); (1100, [1068]); (1101, [1069]); (1102, [1070]); (1103, [1071]);
   (1104, [1024]); (1105, [1025]); (1106, [1026]); (1107, [1027]); (1108,
   [1028]); (1109, [1029]); (1110, [1030]); (1111, [1031]); (1112, [1032]);
   (1113, [1033]); (1114, [1034]); (1115, [1035]); (1116, [1036]); (1117,
   [1037]); (1118, [1038]); (1119, [1039]); (1121, [1120]); (1123, [1122]);
   (1125, [1124]); (1127, [1126]); (1129, [1128]); (1131, [1130]); (1133,
   [1132]); (1135, [1134]); (1137, [1136]); (1139, [1138]); (1141, [1140]);
   (1143, [1142]); (1145, [1144]); (1147, [1146]); (1149, [1148]); (1151,
   [1150]); (1153, [1152]); (1163, [1162]); (1165, [1164]); (1167, [1166]);
   (1169, [1168]); (1171, [1170]); (1173, [1172]); (1175, [1174]); (1177,
   [1176]); (1179, [1178]); (1181, [1180]); (1183, [1182]); (1185, [1184]);
   (1187, [1186]); (1189, [1188]); (1191, [1190]); (1193, [1192]); (1195,
   [1194]); (1197, [1196]); (1199, [1198]); (1201, [1200]); (1203, [1202]);
   (1205, [1204]); (1207, [1206]); (1209, [1208]); (1211, [1210]); (1213,
   [1212]); (1215, [1214]); (1218, [1217]); (1220, [1219]); (1222, [1221]);
   (1224, [1223]); (1226, [1225]); (1228, [1227]); (1230, [1229]); (1231,
   [1216]); (1233, [1232]); (1235, [1234]); (1237, [1236]); (1239, [1238]);
   (1241, [1240]); (1243, [1242]); (1245, [1244]); (1247, [1246]); (1249,
   [1248]); (1251, [1250]); (1253, [1252]); (1255, [1254]); (1257, [1256]);
   (1259, [1258]); (1261, [1260]); (1263, [1262]); (1265, [1264]); (1267,
   [1266]); (1269, [1268]); (1271, [1270]); (1273, [1272]); (1275, [1274]);
   (1277, [1276]); (1279, [1278]); (1281, [1280]); (1283, [1282]); (1285,
   [1284]); (1287, [1286]); (1289, [1288]); (1291, [1290]); (1293, [1292]);
   (1295, [1294]); (1297, [1296]); (1299, [1298]); (1301, [1300]); (1303,
   [1302]); (1305, [1304]); (1307, [1306]); (1309, [1308]); (1311, [1310]);
   (1313, [1312]); (1315, [1314]); (1317, [1316]); (1319, [1318]); (1321,
   [1320]); (1323, [1322]); (1325, [1324]); (1327, [1326]); (1377, [1329]);
   (1378, [1330]); (1379, [1331]); (1380, [1332]); (1381, [1333]); (1382,
   [1334]); (1383, [1335]); (1384, [1336]); (1385, [1337]); (1386, [1338]);
   (1387, [1339]); (1388, [1340]); (1389, [1341]); (1390, [1342]); (1391,
   [1343]); (1392, [1344]); (1393, [1345]); (1394, [1346]); (1395, [1347]);
   (1396, [1348]); (1397, [1349]); (1398, [1350]); (1399, [1351]); (1400,
   [1352]); (1401, [1353]); (1402, [1354]); (1403, [1355]); (1404, [1356]);
   (1405, [1357]); (1406, [1358]); (1407, [1359]); (1408, [1360]); (1409,
   [1361]); (1410, [1362]); (1411, [1363]); (1412, [1364]); (1413, [1365]);
   (1414, [1366]); (1415, [1333; 1362]); (4304, [7312]); (4305, [7313]);
   (4306, [7314]); (4307, [7315]); (4308, [7316]); (4309, [7317]); (4310,
   [7318]); (4311, [7319]); (4312, [7320]); (4313, [7321]); (4314, [7322]);
   (4315, [7323]); (4316, [7324]); (4317, [7325]); (4318, [7326]); (4319,
   [7327]); (4320, [7328]); (4321, [7329]); (4322, [7330]); (4323, [7331]);
   (4324, [7332]); (4325, [7333]); (4326, [7334]); (4327, [7335]); (4328,
   [7336]); (4329, [7337]); (4330, [7338]); (4331, [7339]); (4332, [7340]);
   (4333, [7341]); (4334, [7342]); (4335, [7343]); (4336, [7344]); (4337,
   [7345]); (4338, [7346]); (4339, [7347]); (4340, [7348]); (4341, [7349]);
   (4342, [7350]); (4343, [7351]); (4344, [7352]); (4345, [7353]); (4346,
   [7354]); (4349, [7357]); (4350, [7358]); (4351, [7359]); (5112, [5104]);
   (5113, [5105]); (5114, [5106]); (5115, [5107]); (5116, [5108]); (5117,
   [5109]); (7296, [1042]); (7297, [1044]); (7298, [1054]); (7299, [1057]);
   (7300, [1058]); (7301, [1058]); (7302, [1066]); (7303, [1122]); (7304,
   [42570]); (7545, [42877]); (7549, [11363]); (7566, [42950]); (7681,
   [7680]); (7683, [7682]); (7685, [7684]); (7687, [7686]); (7689, [7688]);
   (7691, [7690]); (7693, [7692]); (7695, [7694]); (7697, [7696]); (7699,
   [7698]); (7701, [7700]); (7703, [7702]); (7705, [7704]); (7707, [7706]);
   (7709, [7708]); (7711, [7710]); (7713, [7712]); (7715, [7714]); (7717,
   [7716]); (7719, [7718]); (7721, [7720]); (7723, [7722]); (7725, [7724]);
   (7727, [7726]); (7729, [7728]); (7731, [7730]); (7733, [7732]); (7735,
   [7734]); (7737, [7736]); (7739, [7738]); (7741, [7740]); (7743, [7742]);
   (7745, [7744]); (7747, [7746]); (7749, [7748]); (7751, [7750]); (7753,
   [7752]); (7755, [7754]); (7757, [7756]); (7759, [7758]); (7761, [7760]);
   (7763, [7762]); (7765, [7764]); (7767, [7766]); (7769, [7768]); (7771,
   [7770]); (7773, [7772]); (7775, [7774]); (7777, [7776]); (7779, [7778]);
   (7781, [7780]); (7783, [7782]); (7785, [7784]); (7787, [7786]); (7789,
   [7788]); (7791, [7790]); (7793, [7792]); (7795, [7794]); (7797, [7796]);
   (7799, [7798]); (7801, [7800]); (7803, [7802]); (7805, [7804]); (7807,
   [7806]); (7809, [7808]); (7811, [7810]); (7813, [7812]); (7815, [7814]);
   (7817, [7816]); (7819, [7818]); (7821, [7820]); (7823, [7822]); (7825,
   [7824]); (7827, [7826]); (7829, [7828]); (7830, [72; 817]); (7831, [84;
   776]); (7832, [87; 778]); (7833, [89; 778]); (7834, [65; 702]); (7835,
   [7776]); (7841, [7840]); (7843, [7842]); (7845, [7844]); (7847, [7846]);
   (7849, [7848]); (7851, [7850]); (7853, [7852]); (7855, [7854]); (7857,
   [7856]); (7859, [7858]); (7861, [7860]); (7863, [7862]); (7865, [7864]);
   (7867, [7866]); (7869, [7868]); (7871, [7870]); (7873, [7872]); (7875,
   [7874]); (7877, [7876]); (7879, [7878]); (7881, [7880]); (7883, [7882]);
   (7885, [7884]); (7887, [7886]); (7889, [7888]); (7891, [7890]); (7893,
   [7892]); (7895, [7894]); (7897, [7896]); (7899, [7898]); (7901, [7900]);
   (7903, [7902]); (7905, [7904]); (7907, [7906]); (7909, [7908]); (7911,
   [7910]); (7913, [7912]); (7915, [7914]); (7917, [7916]); (7919, [7918]);
   (7921, [7920]); (7923, [7922]); (7925, [7924]); (7927, [7926]); (7929,
   [7928]); (7931, [7930]); (7933, [7932]); (7935, [7934]); (7936, [7944]);
   (7937, [7945]); (7938, [7946]); (7939, [7947]); (7940, [7948]); (7941,
   [7949]); (7942, [7950]); (7943, [7951]); (7952, [7960]); (7953, [7961]);
   (7954, [7962]); (7955, [7963]); (7956, [7964]); (7957, [7965]); (7968,
   [7976]); (7969, [7977]); (7970, [7978]); (7971, [7979]); (7972, [7980]);
   (7973, [7981]); (7974, [7982]); (7975, [7983]); (7984, [7992]); (7985,
   [7993]); (7986, [7994]); (7987, [7995]); (7988, [7996]); (7989, [7997]);
   (7990, [7998]); (7991, [7999]); (8000, [8008]); (8001, [8009]); (8002,
   [8010]); (8003, [8011]); (8004, [8012]); (8005, [8013]); (8016, [933;
   787]); (8017, [8025]); (8018, [933; 787; 768]); (8019, [8027]); (8020,
   [933; 787; 769]); (8021, [8029]); (8022, [933; 787; 834]); (8023,
   [8031]); (8032, [8040]); (8033, [8041]); (8034, [8042]); (8035, [8043]);
   (8036, [8044]); (8037, [8045]); (8038, [8046]); (8039, [8047]); (8048,
   [8122]); (8049, [8123]); (8050, [8136]); (8051, [8137]); (8052, [8138]);
   (8053, [8139]); (8054, [8154]); (8055, [8155]); (8056, [8184]); (8057,
   [8185]); (8058, [8170]); (8059, [8171]); (8060, [8186]); (8061, [8187]);
   (8064, [7944; 921]); (8065, [7945; 921]); (8066, [7946; 921]); (8067,
   [7947; 921]); (8068, [7948; 921]); (8069, [7949; 921]); (8070, [7950;
   921]); (8071, [7951; 921]); (8072, [7944; 921]); (8073, [7945; 921]);
   (8074, [7946; 921]); (8075, [7947; 921]); (8076, [7948; 921]); (8077,
   [7949; 921]); (8078, [7950; 921]); (8079, [7951; 921]); (8080, [7976;
   921]); (8081, [7977; 921]); (8082, [7978; 921]); (8083, [7979; 921]);
   (8084, [7980; 921]); (8085, [7981; 921]); (8086, [7982; 921]); (8087,
   [7983; 921]); (8088, [7976; 921]); (8089, [7977; 921]); (8090, [7978;
   921]); (8091, [7979; 921]); (8092, [7980; 921]); (8093, [7981; 921]);
   (8094, [7982; 921]); (8095, [7983; 921]); (8096, [8040; 921]); (8097,
   [8041; 921]); (8098, [8042; 921]); (8099, [8043; 921]); (8100, [8044;
   921]); (8101, [8045; 921]); (8102, [8046; 921]); (8103, [8047; 921]);
   (8104, [8040; 921]); (8105, [8041; 921]); (8106, [8042; 921]); (8107,
   [8043; 921]); (8108, [8044; 921]); (8109, [8045; 921]); (8110, [8046;
   921]); (8111, [8047; 921]); (8112, [8120]); (8113, [8121]); (8114, [8122;
   921]); (8115, [913; 921]); (8116, [902; 921]); (8118, [913; 834]); (8119,
   [913; 834; 921]); (8124, [913; 921]); (8126, [921]); (8130, [8138; 921]);
   (8131, [919; 921]); (8132, [905; 921]); (8134, [919; 834]); (8135, [919;
   834; 921]); (8140, [919; 921]); (8144, [8152]); (8145, [8153]); (8146,
   [921; 776; 768]); (8147, [921; 776; 769]); (8150, [921; 834]); (8151,
   [921; 776; 834]); (8160, [8168]); (8161, [8169]); (8162, [933; 776;
   768]); (8163, [933; 776; 769]); (8164, [929; 787]); (8165, [8172]);
   (8166, [933; 834]); (8167, [933; 776; 834]); (8178, [8186; 921]); (8179,
   [937; 921]); (8180, [911; 921]); (8182, [937; 834]); (8183, [937; 834;
   921]); (8188, [937; 921]); (8526, [8498]); (8560, [8544]); (8561,
   [8545]); (8562, [8546]); (8563, [8547]); (8564, [8548]); (8565, [8549]);
   (8566, [8550]); (8567, [8551]); (8568, [8552]); (8569, [8553]); (8570,
   [8554]); (8571, [8555]); (8572, [8556]); (8573, [8557]); (8574, [8558]);
   (8575, [8559]); (8580, [8579]); (9424, [9398]); (9425, [9399]); (9426,
   [9400]); (9427, [9401]); (9428, [9402]); (9429, [9403]); (9430, [9404]);
   (9431, [9405]); (9432, [9406]); (9433, [9407]); (9434, [9408]); (9435,
   [9409]); (9436, [9410]); (9437, [9411]); (9438, [9412]); (9439, [9413]);
   (9440, [9414]); (9441, [9415]); (9442, [9416]); (9443, [9417]); (9444,
   [9418]); (9445, [9419]); (9446, [9420]); (9447, [9421]); (9448, [9422]);
   (9449, [9423]); (11312, [11264]); (11313, [11265]); (11314, [11266]);
   (11315, [11267]); (11316, [11268]); (11317, [11269]); (11318, [11270]);
   (11319, [11271]); (11320, [11272]); (11321, [11273]); (11322, [11274]);
   (11323, [11275]); (11324, [11276]); (11325, [11277]); (11326, [11278]);
   (11327, [11279]); (11328, [11280]); (11329, [11281]); (11330, [11282]);
   (11331, [11283]); (11332, [11284]); (11333, [11285]); (11334, [11286]);
   (11335, [11287]); (11336, [11288]); (11337, [11289]); (11338, [11290]);
   (11339, [11291]); (11340, [11292]); (11341, [11293]); (11342, [11294]);
   (11343, [11295]); (11344, [11296]); (11345, [11297]); (11346, [11298]);
   (11347, [11299]); (11348, [11300]); (11349, [11301]); (11350, [11302]);
   (11351, [11303]); (11352, [11304]); (11353, [11305]); (11354, [11306]);
   (11355, [11307]); (11356, [11308]); (11357, [11309]); (11358, [11310]);
   (11359, [11311]); (11361, [11360]); (11365, [570]); (11366, [574]);
   (11368, [11367]); (11370, [11369]); (11372, [11371]); (11379, [11378]);
   (11382, [11381]); (11393, [11392]); (11395, [11394]); (11397, [11396]);
   (11399, [11398]); (11401, [11400]); (11403, [11402]); (11405, [11404]);
   (11407, [11406]); (11409, [11408]); (11411, [11410]); (11413, [11412]);
   (11415, [11414]); (11417, [11416]); (11419, [11418]); (11421, [11420]);
   (11423, [11422]); (11425, [11424]); (11427, [11426]); (11429, [11428]);
   (11431, [11430]); (11433, [11432]); (11435, [11434]); (11437, [11436]);
   (11439, [11438]); (11441, [11440]); (11443, [11442]); (11445, [11444]);
   (11447, [11446]); (11449, [11448]); (11451, [11450]); (11453, [11452]);
   (11455, [11454]); (11457, [11456]); (11459, [11458]); (11461, [11460]);
   (11463, [11462]); (11465, [11464]); (11467, [11466]); (11469, [11468]);
   (11471, [11470]); (11473, [11472]); (11475, [11474]); (11477, [11476]);
   (11479, [11478]); (11481, [11480]); (11483, [11482]); (11485, [11484]);
   (11487, [11486]); (11489, [11488]); (11491, [11490]); (11500, [11499]);
   (11502, [11501]); (11507, [11506]); (11520, [4256]); (11521, [4257]);
   (11522, [4258]); (11523, [4259]); (11524, [4260]); (11525, [4261]);
   (11526, [4262]); (11527, [4263]); (11528, [4264]); (11529, [4265]);
   (11530, [4266]); (11531, [4267]); (11532, [4268]); (11533, [4269]);
   (11534, [4270]); (11535, [4271]); (11536, [4272]); (11537, [4273]);
   (11538, [4274]); (11539, [4275]); (11540, [4276]); (11541, [4277]);
   (11542, [4278]); (11543, [4279]); (11544, [4280]); (11545, [4281]);
   (11546, [4282]); (11547, [4283]); (11548, [4284]); (11549, [4285]);
   (11550, [4286]); (11551, [4287]); (11552, [4288]); (11553, [4289]);
   (11554, [4290]); (11555, [4291]); (11556, [4292]); (11557, [4293]);
   (11559, [4295]); (11565, [4301]); (42561, [42560]); (42563, [42562]);
   (42565, [42564]); (42567, [42566]); (42569, [42568]); (42571, [42570]);
   (42573, [42572]); (42575, [42574]); (42577, [42576]); (42579, [42578]);
   (42581, [42580]); (42583, [42582]); (42585, [42584]); (42587, [42586]);
   (42589, [42588]); (42591, [42590]); (42593, [42592]); (42595, [42594]);
   (42597, [42596]); (42599, [42598]); (42601, [42600]); (42603, [42602]);
   (42605, [42604]); (42625, [42624]); (42627, [42626]); (42629, [42628]);
   (42631, [42630]); (42633, [42632]); (42635, [42634]); (42637, [42636]);
   (42639, [42638]); (42641, [42640]); (42643, [42642]); (42645, [42644]);
   (42647, [42646]); (42649, [42648]); (42651, [42650]); (42787, [42786]);
   (42789, [42788]); (42791, [42790]); (42793, [42792]); (42795, [42794]);
   (42797, [42796]); (42799, [42798]); (42803, [42802]); (42805, [42804]);
   (42807, [42806]); (42809, [42808]); (42811, [42810]); (42813, [42812]);
   (42815, [42814]); (42817, [42816]); (42819, [42818]); (42821, [42820]);
   (42823, [42822]); (42825, [42824]); (42827, [42826]); (42829, [42828]);
   (42831, [42830]); (42833, [42832]); (42835, [42834]); (42837, [42836]);
   (42839, [42838]); (42841, [42840]); (42843, [42842]); (42845, [42844]);
   (42847, [42846]); (42849, [42848]); (42851, [42850]); (42853, [42852]);
   (42855, [42854]); (42857, [42856]); (42859, [42858]); (42861, [42860]);
   (42863, [42862]); (42874, [42873]); (42876, [42875]); (42879, [42878]);
   (42881, [42880]); (42883, [42882]); (42885, [42884]); (42887, [42886]);
   (42892, [42891]); (42897, [42896]); (42899, [42898]); (42900, [42948]);
   (42903, [42902]); (42905, [42904]); (42907, [42906]); (42909, [42908]);
   (42911, [42910]); (42913, [42912]); (42915, [42914]); (42917, [42916]);
   (42919, [42918]); (42921, [42920]); (42933, [42932]); (42935, [42934]);
   (42937, [42936]); (42939, [42938]); (42941, [42940]); (42943, [42942]);
   (42945, [42944]); (42947, [42946]); (42952, [42951]); (42954, [42953]);
   (42961, [42960]); (42967, [42966]); (42969, [42968]); (42998, [42997]);
   (43859, [42931]); (43888, [5024]); (43889, [5025]); (43890, [5026]);
   (43891, [5027]); (43892, [5028]); (43893, [5029]); (43894, [5030]);
   (43895, [5031]); (43896, [5032]); (43897, [5033]); (43898, [5034]);
   (43899, [5035]); (43900, [5036]); (43901, [5037]); (43902, [5038]);
   (43903, [5039]); (43904, [5040]); (43905, [5041]); (43906, [5042]);
   (43907, [5043]); (43908, [5044]); (43909, [5045]); (43910, [5046]);
   (43911, [5047]); (43912, [5048]); (43913, [5049]); (43914, [5050]);
   (43915, [5051]); (43916, [5052]); (43917, [5053]); (43918, [5054]);
   (43919, [5055]); (43920, [5056]); (43921, [5057]); (43922, [5058]);
   (43923, [5059]); (43924, [5060]); (43925, [5061]); (43926, [5062]);
   (43927, [5063]); (43928, [5064]); (43929, [5065]); (43930, [5066]);
   (43931, [5067]); (43932, [5068]); (43933, [5069]); (43934, [5070]);
   (43935, [5071]); (43936, [5072]); (43937, [5073]); (43938, [5074]);
   (43939, [5075]); (43940, [5076]); (43941, [5077]); (43942, [5078]);
   (43943, [5079]); (43944, [5080]); (43945, [5081]); (43946, [5082]);
   (43947, [5083]); (43948, [5084]); (43949, [5085]); (43950, [5086]);
   (43951, [5087]); (43952, [5088]); (43953, [5089]); (43954, [5090]);
   (43955, [5091]); (43956, [5092]); (43957, [5093]); (43958, [5094]);
   (43959, [5095]); (43960, [5096]); (43961, [5097]); (43962, [5098]);
   (43963, [5099]); (43964, [5100]); (43965, [5101]); (43966, [5102]);
   (43967, [5103]); (64256, [70; 70]); (64257, [70; 73]); (64258, [70; 76]);
   (64259, [70; 70; 73]); (64260, [70; 70; 76]); (64261, [83; 84]); (64262,
   [83; 84]); (64275, [1348; 1350]); (64276, [1348; 1333]); (64277, [1348;
   1339]); (64278, [1358; 1350]); (64279, [1348; 1341]); (65345, [65313]);
   (65346, [65314]); (65347, [65315]); (65348, [65316]); (65349, [65317]);
   (65350, [65318]); (65351, [65319]); (65352, [65320]); (65353, [65321]);
   (65354, [65322]); (65355, [65323]); (65356, [65324]); (65357, [65325]);
   (65358, [65326]); (65359, [65327]); (65360, [65328]); (65361, [65329]);
   (65362, [65330]); (65363, [65331]); (65364, [65332]); (65365, [65333]);
   (65366, [65334]); (65367, [65335]); (65368, [65336]); (65369, [65337]);
   (65370, [65338]); (66600, [66560]); (66601, [66561]); (66602, [66562]);
   (66603, [66563]); (66604, [66564]); (66605, [66565]); (66606, [66566]);
   (66607, [66567]); (66608, [66568]); (66609, [66569]); (66610, [66570]);
   (66611, [66571]); (66612, [66572]); (66613, [66573]); (66614, [66574]);
   (66615, [66575]); (66616, [66576]); (66617, [66577]); (66618, [66578]);
   (66619, [66579]); (66620, [66580]); (66621, [66581]); (66622, [66582]);
   (66623, [66583]); (66624, [66584]); (66625, [66585]); (66626, [66586]);
   (66627, [66587]); (66628, [66588]); (66629, [66589]); (66630, [66590]);
   (66631, [66591]); (66632, [66592]); (66633, [66593]); (66634, [66594]);
   (66635, [66595]); (66636, [66596]); (66637, [66597]); (66638, [66598]);
   (66639, [66599]); (66776, [66736]); (66777, [66737]); (66778, [66738]);
   (66779, [66739]); (66780, [66740]); (66781, [66741]); (66782, [66742]);
   (66783, [66743]); (66784, [66744]); (66785, [66745]); (66786, [66746]);
   (66787, [66747]); (66788, [66748]); (66789, [66749]); (66790, [66750]);
   (66791, [66751]); (66792, [66752]); (66793, [66753]); (66794, [66754]);
   (66795, [66755]); (66796, [66756]); (66797, [66757]); (66798, [66758]);
   (66799, [66759]); (66800, [66760]); (66801, [66761]); (66802, [66762]);
   (66803, [66763]); (66804, [66764]); (66805, [66765]); (66806, [66766]);
   (66807, [66767]); (66808, [66768]); (66809, [66769]); (66810, [66770]);
   (66811, [66771]); (66967, [66928]); (66968, [66929]); (66969, [66930]);
   (66970, [66931]); (66971, [66932]); (66972, [66933]); (66973, [66934]);
   (66974, [66935]); (66975, [66936]); (66976, [66937]); (66977, [66938]);
   (66979, [66940]); (66980, [66941]); (66981, [66942]); (66982, [66943]);
   (66983, [66944]); (66984, [66945]); (66985, [66946]); (66986, [66947]);
   (66987, [66948]); (66988, [66949]); (66989, [66950]); (66990, [66951]);
   (66991, [66952]); (66992, [66953]); (66993, [66954]); (66995, [66956]);
   (66996, [66957]); (66997, [66958]); (66998, [66959]); (66999, [66960]);
   (67000, [66961]); (67001, [66962]); (67003, [66964]); (67004, [66965]);
   (68800, [68736]); (68801, [68737]); (68802, [68738]); (68803, [68739]);
   (68804, [68740]); (68805, [68741]); (68806, [68742]); (68807, [68743]);
   (68808, [68744]); (68809, [68745]); (68810, [68746]); (68811, [68747]);
   (68812, [68748]); (68813, [68749]); (68814, [68750]); (68815, [68751]);
   (68816, [68752]); (68817, [68753]); (68818, [68754]); (68819, [68755]);
   (68820, [68756]); (68821, [68757]); (68822, [68758]); (68823, [68759]);
   (68824, [68760]); (68825, [68761]); (68826, [68762]); (68827, [68763]);
   (68828, [68764]); (68829, [68765]); (68830, [68766]); (68831, [68767]);
   (68832, [68768]); (68833, [68769]); (68834, [68770]); (68835, [68771]);
   (68836, [68772]); (68837, [68773]); (68838, [68774]); (68839, [68775]);
   (68840, [68776]); (68841, [68777]); (68842, [68778]); (68843, [68779]);
   (68844, [68780]); (68845, [68781]); (68846, [68782]); (68847, [68783]);
   (68848, [68784]); (68849, [68785]); (68850, [68786]); (71872, [71840]);
   (71873, [71841]); (71874, [71842]); (71875, [71843]); (71876, [71844]);
   (71877, [71845]); (71878, [71846]); (71879, [71847]); (71880, [71848]);
   (71881, [71849]); (71882, [71850]); (71883, [71851]); (71884, [71852]);
   (71885, [71853]); (71886, [71854]); (71887, [71855]); (71888, [71856]);
   (71889, [71857]); (71890, [71858]); (71891, [71859]); (71892, [71860]);
   (71893, [71861]); (71894, [71862]); (71895, [71863]); (71896, [71864]);
   (71897, [71865]); (71898, [71866]); (71899, [71867]); (71900, [71868]);
   (71901, [71869]); (71902, [71870]); (71903, [71871]); (93792, [93760]);
   (93793, [93761]); (93794, [93762]); (93795, [93763]); (93796, [93764]);
   (93797, [93765]); (93798, [93766]); (93799, [93767]); (93800, [93768]);
   (93801, [93769]); (93802, [93770]); (93803, [93771]); (93804, [93772]);
   (93805, [93773]); (93806, [93774]); (93807, [93775]); (93808, [93776]);
   (93809, [93777]); (93810, [93778]); (93811, [93779]); (93812, [93780]);
   (93813, [93781]); (93814, [93782]); (93815, [93783]); (93816, [93784]);
   (93817, [93785]); (93818, [93786]); (93819, [93787]); (93820, [93788]);
   (93821, [93789]); (93822, [93790]); (93823, [93791]); (125218, [125184]);
   (125219, [125185]); (125220, [125186]); (125221, [125187]); (125222,
   [125188]); (125223, [125189]); (125224, [125190]); (125225, [125191]);
   (125226, [125192]); (125227, [125193]); (125228, [125194]); (125229,
   [125195]); (125230, [125196]); (125231, [125197]); (125232, [125198]);
   (125233, [125199]); (125234, [125200]); (125235, [125201]); (125236,
   [125202]); (125237, [125203]); (125238, [125204]); (125239, [125205]);
   (125240, [125206]); (125241, [125207]); (125242, [125208]); (125243,
   [125209]); (125244, [125210]); (125245, [125211]); (125246, [125212]);
   (125247, [125213]); (125248, [125214]); (125249, [125215]); (125250,
   [125216]); (125251, [125217])
  ].

Definition in_ranges (c : codepoint) (ranges : list (codepoint * codepoint)) : bool :=
  existsb (fun r => (fst r <=? c) && (c <=? snd r)) ranges.

Fixpoint assoc {A} (c : codepoint) (table : list (codepoint * A)) : option A :=
  match table with
  | [] => None
  | (k, v) :: rest => if k =? c then Some v else assoc c rest
  end.

Definition ucd : Unicode :=
  {| alphabetic := fun c => in_ranges c Letter;
     whitespace := fun c => existsb (N.eqb c) White_Space;
     uppercase := fun c =>
       match assoc c Uppercase_Mapping with
       | Some u => u
       | None => [c]
       end |}.

End UCD.
(** ** Exceptions and outcomes *)

Module Py.

Inductive exn : Type :=
| EOFError            (* input() at end of input *)
| KeyboardInterrupt   (* the player interrupts a prompt, as with Ctrl-C *)
| IndexError          (* random.choice on an empty sequence *)
| IOError             (* OSError: open, read or write failed *)
| JSONDecodeError     (* json.load on text that is not JSON *)
| UnicodeDecodeError  (* reading bytes that are not UTF-8 *)
| UnicodeEncodeError  (* writing text that UTF-8 cannot encode *)
| RecursionError.     (* json.load on too deeply nested text *)

#[global] Instance exn_eq_dec : EqDecision exn.
Proof. solve_decision. Defined.

Inductive outcome (A : Type) : Type :=
| Done (a : A)
| Raised (e : exn).

Arguments Done {A} a.
Arguments Raised {A} e.

(** State and exception monad: a raised exception keeps the state reached
    so far, as the attributes of a Python object survive a raise. *)
Definition M (S A : Type) : Type := S -> outcome A * S.

Definition ret {S A} (a : A) : M S A := fun s => (Done a, s).

Definition raise {S A} (e : exn) : M S A := fun s => (Raised e, s).

Definition bind {S A B} (m : M S A) (k : A -> M S B) : M S B :=
  fun s =>
    match m s with
    | (Done a, s') => k a s'
    | (Raised e, s') => (Raised e, s')
    end.

Definition get {S} : M S S := fun s => (Done s, s).

Definition modify {S} (f : S -> S) : M S unit := fun s => (Done tt, f s).

(** [try: m except classes: pass] *)
Definition try_except_pass {S} (m : M S unit) (classes : list exn) : M S unit :=
  fun s =>
    match m s with
    | (Done _, s') => (Done tt, s')
    | (Raised e, s') =>
        if bool_decide (e ∈ classes) then (Done tt, s') else (Raised e, s')
    end.

End Py.

Declare Scope py_scope.
Delimit Scope py_scope with py.
Notation "x <- m ;; k" := (Py.bind m (fun x => k))
(at level 100, m at next level, right associativity) : py_scope.
Notation "m ;;; k" := (Py.bind m (fun _ => k))
(at level 100, right associativity) : py_scope.

(** ** Constants and the word table *)

Module WordBank.

Import PyStr.

Definition MAX_ATTEMPTS : Z := 6.
Definition ROUNDS_PER_GAME : nat := 10.

(** An entry of [WORD_DATABASE].  The game reads the word; the other
    fields are text that is only printed. *)
Record WordRecord : Type := {
  word : str;
  meaning : string;
  ipa : string;
  sentence : string
}.

#[global] Instance WordRecord_eq_dec : EqDecision WordRecord.
Proof. solve_decision. Defined.

(** The keys of [WORD_DATABASE]; [get_difficulty] returns no other string. *)
Inductive Difficulty : Type := easy | medium | hard.

#[global] Instance Difficulty_eq_dec : EqDecision Difficulty.
Proof. solve_decision. Defined.

Definition difficulty_name (d : Difficulty) : str :=
  match d with
  | easy => py "easy"
  | medium => py "medium"
  | hard => py "hard"
  end.

Definition mk (w m i s : string) : WordRecord :=
  {| word := py w; meaning := m; ipa := i; sentence := s |}.

Definition WORD_DATABASE (d : Difficulty) : list WordRecord :=
  match d with
  | easy =>
      [ mk "apple" "سیب" "/ˈæpəl/" "I eat an apple every day.";
        mk "book" "کتاب" "/bʊk/" "She is reading a book.";
        mk "cat" "گربه" "/kæt/" "The cat is sleeping.";
        mk "dog" "سگ" "/dɔːɡ/" "My dog is very friendly.";
        mk "house" "خانه" "/haʊs/" "They live in a big house.";
        mk "water" "آب" "/ˈwɔːtər/" "Please drink more water.";
        mk "friend" "دوست" "/frend/" "He is my best friend.";
        mk "school" "مدرسه" "/skuːl/" "The children go to school.";
        mk "happy" "خوشحال" "/ˈhæpi/" "She looks very happy today.";
        mk "family" "خانواده" "/ˈfæməli/" "My family is very important to me." ]
  | medium =>
      [ mk "beautiful" "زیبا" "/ˈbjuːtɪfəl/" "The sunset was beautiful.";
        mk "important" "مهم" "/ɪmˈpɔːrtənt/" "This is an important decision.";
        mk "knowledge" "دانش" "/ˈnɑːlɪdʒ/" "Knowledge is power.";
        mk "environment" "محیط زیست" "/ɪnˈvaɪrənmənt/" "We must protect the environment.";
        mk "successful" "موفق" "/səkˈsesfəl/" "She became a successful doctor.";
        mk "difficult" "دشوار" "/ˈdɪfɪkəlt/" "The exam was very difficult.";
        mk "interesting" "جالب" "/ˈɪntrəstɪŋ/" "The book is very interesting.";
        mk "necessary" "ضروری" "/ˈnesəseri/" "Sleep is necessary for health.";
        mk "experience" "تجربه" "/ɪkˈspɪriəns/" "Traveling is a great experience.";
        mk "government" "دولت" "/ˈɡʌvərnmənt/" "The government announced new policies." ]
  | hard =>
      [ mk "entrepreneur" "کارآفرین" "/ˌɑːntrəprəˈnɜːr/" "The entrepreneur started a new company.";
        mk "consciousness" "آگاهی" "/ˈkɑːnʃəsnəs/" "Human consciousness is complex.";
        mk "philosophical" "فلسفی" "/ˌfɪləˈsɑːfɪkəl/" "They had a philosophical discussion.";
        mk "revolutionary" "انقلابی" "/ˌrevəˈluːʃəneri/" "It was a revolutionary idea.";
        mk "extraordinary" "استثنایی" "/ɪkˈstrɔːrdəneri/" "She has extraordinary talent.";
        mk "sophisticated" "پیچیده و پیشرفته" "/səˈfɪstɪkeɪtɪd/" "The system is very sophisticated.";
        mk "unprecedented" "بی‌سابقه" "/ʌnˈpresɪdentɪd/" "This is an unprecedented situation.";
        mk "psychological" "روانشناختی" "/ˌsaɪkəˈlɑːdʒɪkəl/" "The study has psychological implications.";
        mk "infrastructure" "زیرساخت" "/ˈɪnfrəstrʌktʃər/" "The city needs better infrastructure.";
        mk "communication" "ارتباطات" "/kəˌmjuːnɪˈkeɪʃən/" "Good communication is essential." ]
  end.

(** The base points of a completed word:
    [{"easy": 10, "medium": 20, "hard": 30}[difficulty]]. *)
Definition base_points (d : Difficulty) : Z :=
  match d with
  | easy => 10
  | medium => 20
  | hard => 30
  end.

(** [random.choice(seq)] for the draw [r] of the generator. *)
Definition choice {A} (r : nat) (seq : list A) : option A :=
  seq !! (r mod length seq)%nat.

End WordBank.

(** ** The high-score list *)

Module Ledger.

Import PyStr.

Local Open Scope Z_scope.

(** The dictionary [add_high_score] appends:
    [{"name": .., "score": .., "difficulty": .., "date": ..}]. *)
Record ScoreEntry : Type := {
  name : str;
  score : Z;
  difficulty : str;
  date : str
}.

#[global] Instance ScoreEntry_eq_dec : EqDecision ScoreEntry.
Proof. solve_decision. Defined.

(** [list.sort(key=lambda x: x["score"], reverse=True)].  Python's sort is
    stable, also under [reverse=True]: entries with equal keys keep their
    order.  [insert_desc e l] puts [e] in front of the first entry whose
    score does not exceed its own, so an entry that stood before entries
    of the same score stays before them. *)
Fixpoint insert_desc (e : ScoreEntry) (l : list ScoreEntry) : list ScoreEntry :=
  match l with
  | [] => [e]
  | y :: r => if score e <? score y then y :: insert_desc e r else e :: y :: r
  end.

Fixpoint sort_by_score_reverse (l : list ScoreEntry) : list ScoreEntry :=
  match l with
  | [] => []
  | e :: r => insert_desc e (sort_by_score_reverse r)
  end.

(** The list surgery of [add_high_score]: append, sort, keep [[:10]]. *)
Definition ranked (high_scores : list ScoreEntry) (e : ScoreEntry) : list ScoreEntry :=
  take 10 (sort_by_score_reverse (high_scores ++ [e])).

(** Truth value of a list: [bool(l)]. *)
Definition truthy {A} (l : list A) : bool :=
  match l with
  | [] => false
  | _ :: _ => true
  end.

(** The condition guarding [add_high_score] at the end of [play_game]:
    [self.high_scores and self.score > self.high_scores[-1]['score']
     or not self.high_scores],
    which Python reads as [(A and B) or C].  [B] is evaluated only when
    the list is non-empty, where [[-1]] is its last element. *)
Definition high_score_check (high_scores : list ScoreEntry) (s : Z) : bool :=
  (if truthy high_scores
   then match last high_scores with
        | Some lowest => s >? score lowest
        | None => false
        end
   else false)
  || negb (truthy high_scores).

(** Descending order of scores, and the least score of a list. *)
Definition desc (a b : ScoreEntry) : Prop := score a >= score b.

Definition sorted_desc (l : list ScoreEntry) : Prop := Sorted desc l.

Definition has_score (k : Z) (e : ScoreEntry) : Prop := score e = k.

#[global] Instance has_score_dec k e : Decision (has_score k e).
Proof. unfold has_score. apply _. Defined.

(** The entries of score [k], in the order in which they stand. *)
Definition ties (k : Z) (l : list ScoreEntry) : list ScoreEntry :=
  filter (has_score k) l.

Definition is_minimum (m : Z) (l : list ScoreEntry) : Prop :=
  (exists e, e ∈ l /\ score e = m) /\ forall e, e ∈ l -> m <= score e.

End Ledger.

(** ** The score file *)

Module Store.

Import PyStr Py Ledger.

(** What [json.load] can return.  Numbers are integers here: the game
    writes no others. *)
Inductive json : Type :=
| JNull
| JBool (b : bool)
| JInt (z : Z)
| JStr (s : str)
| JList (l : list json)
| JDict (kv : list (str * json)).

(** What [json.dump] writes for the list the game holds. *)
Definition entry_json (e : ScoreEntry) : json :=
  JDict [(py "name", JStr (name e)); (py "score", JInt (score e));
         (py "difficulty", JStr (difficulty e)); (py "date", JStr (date e))].

Definition ledger_json (l : list ScoreEntry) : json := JList (map entry_json l).

(** The inverse of [entry_json]: it recognises the dictionaries that
    [json.dump] writes for an entry, the four keys in the order of
    [add_high_score], and gives the entry back.  A value it does not
    recognise is none that the game has written. *)
Definition as_entry (v : json) : option ScoreEntry :=
  match v with
  | JDict [(k1, JStr n); (k2, JInt s); (k3, JStr d); (k4, JStr t)] =>
      if bool_decide ([k1; k2; k3; k4] =
                      [py "name"; py "score"; py "difficulty"; py "date"])
      then Some {| name := n; score := s; difficulty := d; date := t |}
      else None
  | _ => None
  end.

Definition as_ledger (v : json) : option (list ScoreEntry) :=
  match v with
  | JList l => mapM as_entry l
  | _ => None
  end.

(** The state of [HIGH_SCORE_FILE] as the game can observe it. *)
Inductive FileState : Type :=
| Absent                 (* os.path.exists(..) is False *)
| Holds (v : json)       (* the file holds text that json.load decodes to v *)
| Unreadable (e : exn).  (* the file exists; open, read or json.load raises e *)

(** What happens when the file is opened for writing and dumped to:
    the write goes through, or it raises and leaves the file as [after]. *)
Inductive WriteBehaviour : Type :=
| Writes
| WriteFails (e : exn) (after : FileState).

Record Disk : Type := {
  file : FileState;
  on_write : WriteBehaviour
}.

Definition path_exists (f : FileState) : bool :=
  match f with
  | Absent => false
  | _ => true
  end.

(** [with open(HIGH_SCORE_FILE, 'r', encoding='utf-8') as f: json.load(f)] *)
Definition open_and_load (f : FileState) : outcome json :=
  match f with
  | Absent => Raised IOError
  | Holds v => Done v
  | Unreadable e => Raised e
  end.

(** [load_high_scores]: the value read is returned as it is; the two
    listed exception classes fall through to [return []]. *)
Definition load_high_scores (d : Disk) : outcome json :=
  if path_exists (file d) then
    match open_and_load (file d) with
    | Done v => Done v
    | Raised e =>
        if bool_decide (e ∈ [JSONDecodeError; IOError])
        then Done (JList [])
        else Raised e
    end
  else Done (JList []).

(** What [load_high_scores] returns, read back as a list of entries
    where it is a list that the game has written.  The operations on the
    ledger are modelled on lists of entries, the values that
    [add_high_score] builds and [save_high_scores] writes. *)
Definition loaded_ledger (d : Disk) : outcome (option (list ScoreEntry)) :=
  match load_high_scores d with
  | Done v => Done (as_ledger v)
  | Raised e => Raised e
  end.

(** [with open(HIGH_SCORE_FILE, 'w', encoding='utf-8') as f: json.dump(v, f, ..)] *)
Definition open_and_dump (v : json) : M Disk unit :=
  fun d =>
    match on_write d with
    | Writes => (Done tt, {| file := Holds v; on_write := on_write d |})
    | WriteFails e after => (Raised e, {| file := after; on_write := on_write d |})
    end.

(** [save_high_scores]: [try: .. except IOError: pass]. *)
Definition save_high_scores (high_scores : list ScoreEntry) : M Disk unit :=
  try_except_pass (open_and_dump (ledger_json high_scores)) [IOError].

End Store.

(** ** The game object and the session state *)

Module Game.

Import PyStr Py WordBank Store.

Local Open Scope Z_scope.

(** The attributes of [LetterGuessingGame]. *)
Record LetterGuessingGame : Type := {
  score : Z;
  round : nat;
  words_learned : list str;
  start_time : option str;
  total_attempts : Z;
  correct_guesses : Z;
  high_scores : list Ledger.ScoreEntry
}.

Definition set_score (v : Z) (g : LetterGuessingGame) : LetterGuessingGame :=
  {| score := v; round := round g; words_learned := words_learned g;
     start_time := start_time g; total_attempts := total_attempts g;
     correct_guesses := correct_guesses g; high_scores := high_scores g |}.

Definition set_round (v : nat) (g : LetterGuessingGame) : LetterGuessingGame :=
  {| score := score g; round := v; words_learned := words_learned g;
     start_time := start_time g; total_attempts := total_attempts g;
     correct_guesses := correct_guesses g; high_scores := high_scores g |}.

Definition set_words_learned (v : list str) (g : LetterGuessingGame) : LetterGuessingGame :=
  {| score := score g; round := round g; words_learned := v;
     start_time := start_time g; total_attempts := total_attempts g;
     correct_guesses := correct_guesses g; high_scores := high_scores g |}.

Definition set_start_time (v : option str) (g : LetterGuessingGame) : LetterGuessingGame :=
  {| score := score g; round := round g; words_learned := words_learned g;
     start_time := v; total_attempts := total_attempts g;
     correct_guesses := correct_guesses g; high_scores := high_scores g |}.

Definition set_total_attempts (v : Z) (g : LetterGuessingGame) : LetterGuessingGame :=
  {| score := score g; round := round g; words_learned := words_learned g;
     start_time := start_time g; total_attempts := v;
     correct_guesses := correct_guesses g; high_scores := high_scores g |}.

Definition set_correct_guesses (v : Z) (g : LetterGuessingGame) : LetterGuessingGame :=
  {| score := score g; round := round g; words_learned := words_learned g;
     start_time := start_time g; total_attempts := total_attempts g;
     correct_guesses := v; high_scores := high_scores g |}.

Definition set_high_scores (v : list Ledger.ScoreEntry) (g : LetterGuessingGame) : LetterGuessingGame :=
  {| score := score g; round := round g; words_learned := words_learned g;
     start_time := start_time g; total_attempts := total_attempts g;
     correct_guesses := correct_guesses g; high_scores := v |}.

(** What the game reads from outside: the terminal (the lines still to
    come, and the exception that [input()] raises once they have run out:
    [EOFError] at the end of input, [KeyboardInterrupt] when the player
    interrupts the prompt), the random generator ([rand k] is its [k]-th
    draw), the clock ([clock k] is its [k]-th reading, in printed form) and
    the score file. *)
Record World : Type := {
  stdin : list str;
  ending : exn;
  rand : nat -> nat;
  drawn : nat;
  clock : nat -> str;
  ticks : nat;
  disk : Disk
}.

Definition set_stdin (v : list str) (w : World) : World :=
  {| stdin := v; ending := ending w; rand := rand w; drawn := drawn w; clock := clock w;
     ticks := ticks w; disk := disk w |}.

Definition set_drawn (v : nat) (w : World) : World :=
  {| stdin := stdin w; ending := ending w; rand := rand w; drawn := v; clock := clock w;
     ticks := ticks w; disk := disk w |}.

Definition set_ticks (v : nat) (w : World) : World :=
  {| stdin := stdin w; ending := ending w; rand := rand w; drawn := drawn w; clock := clock w;
     ticks := v; disk := disk w |}.

Definition set_disk (v : Disk) (w : World) : World :=
  {| stdin := stdin w; ending := ending w; rand := rand w; drawn := drawn w; clock := clock w;
     ticks := ticks w; disk := v |}.

Record State : Type := {
  self : LetterGuessingGame;
  world : World
}.

Definition on_self (f : LetterGuessingGame -> LetterGuessingGame) (st : State) : State :=
  {| self := f (self st); world := world st |}.

Definition on_world (f : World -> World) (st : State) : State :=
  {| self := self st; world := f (world st) |}.

(** [input(..)]: the next line of the terminal, or the exception with
    which the terminal ends. *)
Definition input : M State str :=
  fun st =>
    match stdin (world st) with
    | [] => (Raised (ending (world st)), st)
    | line :: rest => (Done line, on_world (set_stdin rest) st)
    end.

(** [datetime.now()] *)
Definition now : M State str :=
  fun st =>
    let w := world st in
    (Done (clock w (ticks w)), on_world (set_ticks (S (ticks w))) st).

(** [get_random_word] *)
Definition get_random_word (difficulty : Difficulty) : M State WordRecord :=
  fun st =>
    let w := world st in
    let words := WORD_DATABASE difficulty in
    match choice (rand w (drawn w)) words with
    | Some word_data => (Done word_data, on_world (set_drawn (S (drawn w))) st)
    | None => (Raised IndexError, st)
    end.

(** [save_high_scores], on the file of the session. *)
Definition save_high_scores : M State unit :=
  fun st =>
    let '(o, d) := Store.save_high_scores (high_scores (self st)) (disk (world st)) in
    (o, on_world (set_disk d) st).

End Game.

(** ** One round *)

Module Round.

Import Py PyStr WordBank Game.

Local Open Scope Z_scope.

(** The local variables of [play_round]. *)
Record RoundState : Type := {
  correct_letters : gset str;
  wrong_letters : gset str;
  attempts_left : Z
}.

Definition initial : RoundState :=
  {| correct_letters := ∅; wrong_letters := ∅; attempts_left := MAX_ATTEMPTS |}.

(** [all(letter in guessed_letters for letter in word)] *)
Definition is_word_complete (word : str) (guessed_letters : gset str) : bool :=
  forallb (fun letter => bool_decide (letter ∈ guessed_letters)) (letters word).

Section WithUnicode.

Context `{U : Unicode}.

(** [input(..).strip().upper()] applied to the line typed. *)
Definition read_guess (line : str) : str := upper (strip line).

(** [len(guess) == 1 and guess.isalpha()] *)
Definition single_letter (guess : str) : bool :=
  (length guess =? 1)%nat && isalpha guess.

(** [guess in correct_letters or guess in wrong_letters] *)
Definition already_guessed (guess : str) (rs : RoundState) : bool :=
  bool_decide (guess ∈ correct_letters rs) || bool_decide (guess ∈ wrong_letters rs).

(** The guess leaves the inner [while True] loop through [break]. *)
Definition accepted (guess : str) (rs : RoundState) : bool :=
  single_letter guess && negb (already_guessed guess rs).

Inductive Flow : Type :=
| Continue
| Return (b : bool).

(** The body of the outer loop from [self.total_attempts += 1] on, for an
    accepted [guess]. *)
Definition take_guess (word_data : WordRecord) (difficulty : Difficulty)
    (guess : str) (g : LetterGuessingGame) (rs : RoundState)
    : Flow * LetterGuessingGame * RoundState :=
  let word := upper (word word_data) in
  let g := set_total_attempts (total_attempts g + 1) g in
  if contains guess word then
    let rs := {| correct_letters := correct_letters rs ∪ {[guess]};
                 wrong_letters := wrong_letters rs;
                 attempts_left := attempts_left rs |} in
    let g := set_correct_guesses (correct_guesses g + 1) g in
    if is_word_complete word (correct_letters rs) then
      let points := base_points difficulty in
      let bonus := attempts_left rs * 5 in
      let total_points := points + bonus in
      let g := set_score (score g + total_points) g in
      let g := set_words_learned (words_learned g ++ [WordBank.word word_data]) g in
      (Return true, g, rs)
    else (Continue, g, rs)
  else
    let rs := {| correct_letters := correct_letters rs;
                 wrong_letters := wrong_letters rs ∪ {[guess]};
                 attempts_left := attempts_left rs - 1 |} in
    (Continue, g, rs).

(** One line typed at the prompt [Enter a letter: ]: a guess that is not
    accepted is answered with a message and the prompt comes again. *)
Definition submit (word_data : WordRecord) (difficulty : Difficulty)
    (line : str) (g : LetterGuessingGame) (rs : RoundState)
    : Flow * LetterGuessingGame * RoundState :=
  let guess := read_guess line in
  if accepted guess rs then take_guess word_data difficulty guess g rs
  else (Continue, g, rs).

(** [while attempts_left > 0: ..], one turn per line read, on a terminal
    that holds [lines] and then ends with [ending].  A rejected line
    changes nothing, so the test of the outer loop may be repeated before
    each prompt of the inner one.  The result is the value returned (or
    the exception), the game, the locals at exit, and the lines left on
    the terminal. *)
Fixpoint round_loop (word_data : WordRecord) (difficulty : Difficulty)
    (ending : exn) (lines : list str) (g : LetterGuessingGame) (rs : RoundState)
    : outcome bool * LetterGuessingGame * RoundState * list str :=
  if attempts_left rs >? 0 then
    match lines with
    | [] => (Raised ending, g, rs, [])
    | line :: rest =>
        match submit word_data difficulty line g rs with
        | (Return b, g', rs') => (Done b, g', rs', rest)
        | (Continue, g', rs') => round_loop word_data difficulty ending rest g' rs'
        end
    end
  else (Done false, g, rs, lines).

(** The same loop with the nesting of the source: the inner [while True]
    asks until a guess is accepted, the outer loop takes that guess.  The
    outer loop reads at least one line per turn; [fuel] bounds its turns. *)
Fixpoint ask_letter (lines : list str) (rs : RoundState)
    : option (str * list str) :=
  match lines with
  | [] => None
  | line :: rest =>
      let guess := read_guess line in
      if single_letter guess then
        if already_guessed guess rs then ask_letter rest rs
        else Some (guess, rest)
      else ask_letter rest rs
  end.

Fixpoint nested_loop (fuel : nat) (word_data : WordRecord) (difficulty : Difficulty)
    (ending : exn) (lines : list str) (g : LetterGuessingGame) (rs : RoundState)
    : option (outcome bool * LetterGuessingGame * RoundState * list str) :=
  match fuel with
  | O => None
  | S fuel' =>
      if attempts_left rs >? 0 then
        match ask_letter lines rs with
        | None => Some (Raised ending, g, rs, [])
        | Some (guess, rest) =>
            match take_guess word_data difficulty guess g rs with
            | (Return b, g', rs') => Some (Done b, g', rs', rest)
            | (Continue, g', rs') =>
                nested_loop fuel' word_data difficulty ending rest g' rs'
            end
        end
      else Some (Done false, g, rs, lines)
  end.

(** The successive values of the locals while [round_loop] runs. *)
Fixpoint round_trace (word_data : WordRecord) (difficulty : Difficulty)
    (lines : list str) (g : LetterGuessingGame) (rs : RoundState)
    : list RoundState :=
  rs ::
  if attempts_left rs >? 0 then
    match lines with
    | [] => []
    | line :: rest =>
        match submit word_data difficulty line g rs with
        | (Return b, g', rs') => [rs']
        | (Continue, g', rs') => round_trace word_data difficulty rest g' rs'
        end
    end
  else [].

(** [play_round] on a word already drawn. *)
Definition play_word (word_data : WordRecord) (difficulty : Difficulty)
    : M State (bool * RoundState) :=
  fun st =>
    let '(o, g, rs, rest) :=
      round_loop word_data difficulty (ending (world st)) (stdin (world st))
        (self st) initial in
    (match o with
     | Done b => Done (b, rs)
     | Raised e => Raised e
     end,
     {| self := g; world := set_stdin rest (world st) |}).

(** [play_round], returning the locals at exit next to the boolean. *)
Definition play_round_locals (difficulty : Difficulty) : M State (bool * RoundState) :=
  (word_data <- get_random_word difficulty ;;
   play_word word_data difficulty)%py.

Definition play_round (difficulty : Difficulty) : M State bool :=
  (r <- play_round_locals difficulty ;; ret (fst r))%py.

(** The points a finished round added to the score. *)
Definition points_earned (difficulty : Difficulty) (r : bool * RoundState) : Z :=
  if fst r then base_points difficulty + attempts_left (snd r) * 5 else 0.

(** The three ways a line can go. *)
Inductive submit_case wd d line g rs : Flow * LetterGuessingGame * RoundState -> Prop :=
| case_rejected :
    accepted (read_guess line) rs = false ->
    submit_case wd d line g rs (Continue, g, rs)
| case_wrong :
    accepted (read_guess line) rs = true ->
    contains (read_guess line) (upper (word wd)) = false ->
    submit_case wd d line g rs
      (Continue,
       set_total_attempts (total_attempts g + 1) g,
       {| correct_letters := correct_letters rs;
          wrong_letters := wrong_letters rs ∪ {[read_guess line]};
          attempts_left := attempts_left rs - 1 |})
| case_correct (winning : bool) :
    accepted (read_guess line) rs = true ->
    contains (read_guess line) (upper (word wd)) = true ->
    is_word_complete (upper (word wd)) (correct_letters rs ∪ {[read_guess line]}) = winning ->
    submit_case wd d line g rs
      (if winning then Return true else Continue,
       (if winning
        then fun g' => set_words_learned (words_learned g ++ [word wd])
               (set_score (score g + (base_points d + attempts_left rs * 5)) g')
        else fun g' => g')
         (set_correct_guesses (correct_guesses g + 1)
            (set_total_attempts (total_attempts g + 1) g)),
       {| correct_letters := correct_letters rs ∪ {[read_guess line]};
          wrong_letters := wrong_letters rs;
          attempts_left := attempts_left rs |}).

(** What a round has done to the counters of the game, read off its
    locals: every accepted guess is in exactly one of the two sets. *)
Definition tally g0 g rs : Prop :=
  total_attempts g =
    total_attempts g0 + Z.of_nat (size (correct_letters rs))
                      + Z.of_nat (size (wrong_letters rs)) /\
  correct_guesses g = correct_guesses g0 + Z.of_nat (size (correct_letters rs)) /\
  attempts_left rs = MAX_ATTEMPTS - Z.of_nat (size (wrong_letters rs)) /\
  0 <= attempts_left rs /\
  round g = round g0 /\ start_time g = start_time g0 /\ high_scores g = high_scores g0.

Definition in_progress g0 g rs : Prop :=
  tally g0 g rs /\ score g = score g0 /\ words_learned g = words_learned g0.

(** [attempts_left] is within its budget. *)
Definition in_range (rs : RoundState) : Prop := 0 <= attempts_left rs <= MAX_ATTEMPTS.

(** The number of guesses of a list that are not letters of the word. *)
Definition misses (word : str) (guesses : list str) : nat :=
  length (List.filter (fun guess => negb (contains guess word)) guesses).

End WithUnicode.

End Round.

(** ** The session *)

Module Session.

Import Py PyStr WordBank Game Round.

Local Open Scope Z_scope.

(** [add_high_score] *)
Definition add_high_score (name : str) (score : Z) (difficulty : str)
    : M State unit :=
  (date <- now ;;
   let entry := {| Ledger.name := name; Ledger.score := score;
                   Ledger.difficulty := difficulty; Ledger.date := date |} in
   modify (on_self (fun g => set_high_scores (Ledger.ranked (high_scores g) entry) g)) ;;;
   save_high_scores)%py.

(** [display_final_stats] prints; of the state it only reads the clock. *)
Definition display_final_stats : M State unit :=
  (st <- get ;;
   match start_time (self st) with
   | None => ret tt
   | Some _ => _ <- now ;; ret tt
   end)%py.

Section WithUnicode.

Context `{U : Unicode}.

(** [get_difficulty]: asks again until the answer is 1, 2 or 3, on a
    terminal that holds [lines] and then ends with [ending]. *)
Fixpoint get_difficulty_loop (ending : exn) (lines : list str)
    : outcome Difficulty * list str :=
  match lines with
  | [] => (Raised ending, [])
  | line :: rest =>
      let choice := strip line in
      if bool_decide (choice = py "1") then (Done easy, rest)
      else if bool_decide (choice = py "2") then (Done medium, rest)
      else if bool_decide (choice = py "3") then (Done hard, rest)
      else get_difficulty_loop ending rest
  end.

Definition get_difficulty : M State Difficulty :=
  fun st =>
    let '(o, rest) := get_difficulty_loop (ending (world st)) (stdin (world st)) in
    (o, on_world (set_stdin rest) st).

(** [for self.round in range(ROUNDS_PER_GAME): ..].  The value is the
    list of what the rounds returned, which the Python loop drops; it is
    kept to state what a session did. *)
Fixpoint play_rounds (rounds : list nat) (difficulty : Difficulty)
    : M State (list (bool * RoundState)) :=
  match rounds with
  | [] => ret []
  | i :: rest =>
      (modify (on_self (set_round i)) ;;;
       r <- play_round_locals difficulty ;;
       (if (i <? ROUNDS_PER_GAME - 1)%nat then _ <- input ;; ret tt else ret tt) ;;;
       history <- play_rounds rest difficulty ;;
       ret (r :: history))%py
  end.

(** [play_game] *)
Definition play_game : M State (list (bool * RoundState)) :=
  (difficulty <- get_difficulty ;;
   line <- input ;;
   let player_name := strip line in
   modify (on_self (set_score 0)) ;;;
   modify (on_self (set_round 0)) ;;;
   modify (on_self (set_words_learned [])) ;;;
   t <- now ;;
   modify (on_self (set_start_time (Some t))) ;;;
   modify (on_self (set_total_attempts 0)) ;;;
   modify (on_self (set_correct_guesses 0)) ;;;
   history <- play_rounds (seq 0 ROUNDS_PER_GAME) difficulty ;;
   display_final_stats ;;;
   st <- get ;;
   (if Ledger.high_score_check (high_scores (self st)) (score (self st))
    then add_high_score player_name (score (self st)) (difficulty_name difficulty)
    else ret tt) ;;;
   _ <- input ;;
   ret history)%py.

End WithUnicode.

(** What one round of a history did: the guesses it accepted, those that
    were letters of the word, and whether it was won. *)
Definition guesses_made (r : bool * RoundState) : Z :=
  Z.of_nat (size (correct_letters (snd r))) + Z.of_nat (size (wrong_letters (snd r))).

Definition correct_made (r : bool * RoundState) : Z :=
  Z.of_nat (size (correct_letters (snd r))).

Definition won (r : bool * RoundState) : Z := if fst r then 1 else 0.

Definition total (f : bool * RoundState -> Z) (history : list (bool * RoundState)) : Z :=
  foldr (fun r acc => f r + acc) 0 history.

(** Everything of the state that is neither an attribute of the game nor
    the terminal. *)
Definition surroundings (st : State) : (nat -> nat) * nat * (nat -> str) * nat * Store.Disk :=
  (rand (world st), drawn (world st), clock (world st), ticks (world st), disk (world st)).

End Session.

(** ** Inputs of the examples *)

Module Examples.

Import PyStr Py WordBank Ledger Store Game Round.

Local Open Scope Z_scope.

(** The lines typed, from literals of ASCII characters. *)
Definition typed (lines : list string) : list str := map py lines.

Definition entry_of (n : string) (s : Z) : ScoreEntry :=
  {| Ledger.name := py n; Ledger.score := s;
     Ledger.difficulty := py "easy"; Ledger.date := py "2024-01-01 10:00" |}.

(** A ledger holding the single score 50. *)
Definition one_entry_ledger : list ScoreEntry := [entry_of "Ann" 50].

(** A file that holds bytes which are not UTF-8. *)
Definition undecodable_disk : Disk :=
  {| file := Unreadable UnicodeDecodeError; on_write := Writes |}.

(** The state on which the examples run: a fresh game, a generator that
    always draws index [r], and a terminal that holds the lines [lines] and
    then is at its end. *)
Definition example_state (lines : list string) (r : nat) : State :=
  {| self := {| score := 0; round := 0; words_learned := []; start_time := None;
                total_attempts := 0; correct_guesses := 0; high_scores := [] |};
     world := {| stdin := typed lines; ending := EOFError;
                 rand := fun _ => r; drawn := 0;
                 clock := fun _ => py "2024-01-01 10:00"; ticks := 0;
                 disk := {| Store.file := Store.Absent; Store.on_write := Store.Writes |} |} |}.

(** The same state at a terminal where the player interrupts the prompt
    that comes after the lines. *)
Definition interrupted (st : State) : State :=
  {| self := self st;
     world := {| stdin := stdin (world st); ending := KeyboardInterrupt;
                 rand := rand (world st); drawn := drawn (world st);
                 clock := clock (world st); ticks := ticks (world st);
                 disk := disk (world st) |} |}.

(** "CAT" is the word of index 2 on easy. *)
Definition cat : WordRecord := mk "cat" "گربه" "/kæt/" "The cat is sleeping.".

Definition cat_state : State := example_state ["C"; "A"; "T"] 2.

(** Six letters that are not in "CAT", then its three letters. *)
Definition late_cat_lines : list str :=
  typed ["X"; "Y"; "Z"; "Q"; "W"; "V"; "C"; "A"; "T"].

Definition late_cat_state : State :=
  example_state ["X"; "Y"; "Z"; "Q"; "W"; "V"; "C"; "A"; "T"] 2.

(** Locals in which the letter A has been guessed. *)
Definition a_guessed : RoundState :=
  {| correct_letters := {[py "A"]}; wrong_letters := ∅; attempts_left := 6 |}.

(** A session on easy in which every round draws "CAT": the first round is
    won, the second is lost on six letters that miss, the other eight are
    won. *)
Definition session_lines : list string :=
  (["1"; "Al"] ++ ["c"; "a"; "t"; ""] ++ ["x"; "y"; "z"; "q"; "w"; "v"; ""] ++
   concat (replicate 7 ["c"; "a"; "t"; ""]) ++ ["c"; "a"; "t"] ++ [""])%list.

Definition session_state : State := example_state session_lines 2.

(** Which rounds of a session were won. *)
Definition outcomes_of (r : outcome (list (bool * RoundState)) * State) : list bool :=
  match fst r with
  | Done history => map fst history
  | Raised _ => []
  end.

(** A score file that was not written by the game: eleven entries in
    ascending order of score. *)
Definition foreign_ledger : list ScoreEntry :=
  [entry_of "Bob" 1; entry_of "Bob" 2; entry_of "Bob" 3; entry_of "Bob" 4;
   entry_of "Bob" 5; entry_of "Bob" 6; entry_of "Bob" 7; entry_of "Bob" 8;
   entry_of "Bob" 9; entry_of "Bob" 10; entry_of "Bob" 11].

Definition foreign_disk : Disk :=
  {| file := Holds (ledger_json foreign_ledger); on_write := Writes |}.

(** A score file that holds a JSON list which is not a list of entries. *)
Definition odd_disk : Disk :=
  {| file := Holds (JList [JStr (py "x")]); on_write := Writes |}.

(** An empty ledger about to receive Alice's 50 points. *)
Definition alice_state : State := example_state [] 0.

(** The same, where the score file cannot be written: opening it raises
    [PermissionError], an [OSError], and no file comes to be. *)
Definition read_only_disk : Disk :=
  {| file := Absent; on_write := WriteFails IOError Absent |}.

Definition read_only_state : State :=
  on_world (set_disk read_only_disk) (example_state [] 0).

(** "DOG" is the word of index 3 on easy; six letters that are not in it. *)
Definition dog_state : State := example_state ["X"; "Y"; "Z"; "Q"; "W"; "V"] 3.

Definition dog_locals : RoundState :=
  {| correct_letters := ∅;
     wrong_letters := {[py "X"]} ∪ {[py "Y"]} ∪ {[py "Z"]} ∪ {[py "Q"]} ∪ {[py "W"]}
                      ∪ {[py "V"]};
     attempts_left := 0 |}.

End Examples.

(** ** What is shown of a word and of the ledger *)

Module Display.

Import Py PyStr WordBank Ledger Game Round.

Local Open Scope list_scope.

(** The two colour codes of colorama that [display_word_state] writes,
    [Fore.GREEN] and [Style.RESET_ALL]; their text belongs to the library. *)
Record Palette : Type := {
  GREEN : str;
  RESET_ALL : str
}.

Section WithUnicode.

Context `{U : Unicode}.

(** [display_word_state]: a cell per letter of the word, the letter in
    green where it has been guessed and an underscore where it has not,
    every cell followed by a blank; the whole is stripped. *)
Definition display_word_state (p : Palette) (word : str)
    (guessed_letters : gset str) : str :=
  strip
    (fold_left
       (fun display letter =>
          if bool_decide (letter ∈ guessed_letters)
          then display ++ (GREEN p ++ upper letter ++ RESET_ALL p ++ py " ")
          else display ++ py "_ ")
       (letters word) []).

End WithUnicode.

(** [display_high_scores] and [display_instructions] print and then wait
    for the Enter key. *)
Definition display_high_scores : M State unit :=
  (_ <- input ;; ret tt)%py.

Definition display_instructions : M State unit :=
  (_ <- input ;; ret tt)%py.

(** [s.count(c)] for a code point [c]. *)
Fixpoint occurrences (c : codepoint) (s : str) : nat :=
  match s with
  | [] => 0
  | a :: r => (if (a =? c)%N then 1 else 0) + occurrences c r
  end.

(** The letters of a word that are still hidden, one per position. *)
Definition hidden (word : str) (guessed_letters : gset str) : list str :=
  List.filter (fun letter => negb (bool_decide (letter ∈ guessed_letters))) (letters word).

(** The rows of the table of [display_high_scores]:
    [enumerate(self.high_scores[:10], 1)]. *)
Definition high_score_rows (high_scores : list ScoreEntry) : list (nat * ScoreEntry) :=
  zip (seq 1 (length (take 10 high_scores))) (take 10 high_scores).

End Display.

(** ** The menu *)

Module Menu.

Import Py PyStr WordBank Ledger Store Game Round Session Display.

Local Open Scope Z_scope.

Section WithUnicode.

Context `{U : Unicode}.

(** [run]: the menu loop.  Every turn reads a line, so the number of turns
    is bounded by the number of lines on the terminal; [fuel] bounds the
    turns and [None] stands for fuel that ran out. *)
Fixpoint run (fuel : nat) (st : State) : option (outcome unit * State) :=
  match fuel with
  | O => None
  | S fuel' =>
      match input st with
      | (Raised e, st1) => Some (Raised e, st1)
      | (Done line, st1) =>
          let choice := strip line in
          if bool_decide (choice = py "1") then
            match play_game st1 with
            | (Done _, st2) => run fuel' st2
            | (Raised e, st2) => Some (Raised e, st2)
            end
          else if bool_decide (choice = py "2") then
            match display_high_scores st1 with
            | (Done _, st2) => run fuel' st2
            | (Raised e, st2) => Some (Raised e, st2)
            end
          else if bool_decide (choice = py "3") then
            match display_instructions st1 with
            | (Done _, st2) => run fuel' st2
            | (Raised e, st2) => Some (Raised e, st2)
            end
          else if bool_decide (choice = py "4") then Some (Done tt, st1)
          else run fuel' st1
      end
  end.


End WithUnicode.

(** A failure of the write to the score file that [save_high_scores] does
    not catch. *)
Definition write_failure (e : exn) (d : Disk) : Prop :=
  (exists after, on_write d = WriteFails e after) /\ e <> IOError.

(** The ways an operation that started in world [w] can have been cut
    short in world [w']: the terminal ran out and [input()] raised the
    exception with which the terminal ends, or the score file could not be
    written. *)
Definition cut_short (e : exn) (w w' : World) : Prop :=
  (e = ending w /\ stdin w' = []) \/ write_failure e (disk w).

(** An operation that reads the terminal forwards (what it leaves is an
    end piece of what it found), leaves the behaviour of the score file
    alone, and raises only when it is cut short. *)
Definition steady {A} (m : M State A) : Prop :=
  forall st o st',
    m st = (o, st') ->
    stdin (world st') `suffix_of` stdin (world st) /\
    ending (world st') = ending (world st) /\
    on_write (disk (world st')) = on_write (disk (world st)) /\
    forall e, o = Raised e -> cut_short e (world st) (world st').

End Menu.

(** ** Names for what the further properties speak of *)

Module Views.

Import Py PyStr WordBank Ledger Store Game Round Session Examples Display.

Local Open Scope Z_scope.
Local Open Scope list_scope.

(** The entry [add_high_score] builds in state [st]. *)
Definition entry_added (n : str) (s : Z) (d : str) (st : State) : ScoreEntry :=
  {| name := n; Ledger.score := s; difficulty := d;
     date := clock (world st) (ticks (world st)) |}.

(** The ledger of the game once [add_high_score] has run. *)
Definition ledger_after (n : str) (s : Z) (d : str) (st : State) : list ScoreEntry :=
  high_scores (self (snd (add_high_score n s d st))).

Section WithUnicode.

Context `{U : Unicode}.

(** The two sets of a round tell the letters of the word from the others,
    and hold guesses as the prompt accepts them: one alphabetic code
    point. *)
Definition letters_sound (w : str) (rs : RoundState) : Prop :=
  (forall x, x ∈ correct_letters rs -> x ∈ letters w /\ single_letter x = true) /\
  (forall x, x ∈ wrong_letters rs -> (x ∉ letters w) /\ single_letter x = true).

(** The round is still open: the word is not complete yet. *)
Definition still_open (w : str) (rs : RoundState) : Prop :=
  letters_sound w rs /\ is_word_complete w (correct_letters rs) = false.

(** The letters to type for a word: each of its letters once, in capitals. *)
Definition spelling (wd : WordRecord) : list str :=
  remove_dups (letters (upper (word wd))).

(** Every letter of a word, in capitals, is a well-formed guess that the
    prompt reads as it stands. *)
Definition typable (wd : WordRecord) : bool :=
  forallb (fun x => bool_decide (read_guess x = x) && single_letter x)
          (letters (upper (word wd))).

(** A choice that [get_difficulty] and the menu take for none of theirs. *)
Definition no_choice (options : list str) (line : str) : Prop :=
  strip line ∉ options.

(** The cell of one letter in [display_word_state]. *)
Definition cell (p : Display.Palette) (guessed_letters : gset str) (letter : str) : str :=
  if bool_decide (letter ∈ guessed_letters)
  then Display.GREEN p ++ upper letter ++ Display.RESET_ALL p ++ py " "
  else py "_ ".

End WithUnicode.

(** What the locals of a round that returned say of it: every miss cost
    an attempt, a round won had an attempt left and a round lost had none. *)
Definition round_sound (r : bool * RoundState) : Prop :=
  attempts_left (snd r) = MAX_ATTEMPTS - Z.of_nat (size (wrong_letters (snd r))) /\
  if fst r then 0 < attempts_left (snd r) else attempts_left (snd r) = 0.

(** The misses of a session. *)
Definition misses_made (r : bool * RoundState) : Z :=
  Z.of_nat (size (wrong_letters (snd r))).

(** The state in which the first round of a session starts: the counters
    of the game are reset and the clock has been read once. *)
Definition opened (st : State) : State :=
  on_self (set_correct_guesses 0)
    (on_self (set_total_attempts 0)
       (on_self (set_start_time (Some (clock (world st) (ticks (world st)))))
          (on_world (set_ticks (S (ticks (world st))))
             (on_self (set_words_learned [])
                (on_self (set_round 0) (on_self (set_score 0) st)))))).

(** The rounds of a session that returned, and the state it left. *)
Definition history_of (r : outcome (list (bool * RoundState)) * State)
    : list (bool * RoundState) :=
  match fst r with
  | Done history => history
  | Raised _ => []
  end.

(** What is typed to choose a difficulty. *)
Definition choice_key (d : Difficulty) : str :=
  match d with
  | easy => py "1"
  | medium => py "2"
  | hard => py "3"
  end.

(** The underscore, U+005F. *)
Definition low_line : codepoint := 95%N.

(** The colour codes as colorama defines them: ESC [ 32 m and ESC [ 0 m. *)
Definition ansi : Display.Palette :=
  {| Display.GREEN := 27%N :: py "[32m";
     Display.RESET_ALL := 27%N :: py "[0m" |}.

(** A ledger of ten entries in descending order, scores 100 down to 10. *)
Definition full_ledger : list ScoreEntry :=
  [entry_of "Eve" 100; entry_of "Eve" 90; entry_of "Eve" 80; entry_of "Eve" 70;
   entry_of "Eve" 60; entry_of "Eve" 50; entry_of "Eve" 40; entry_of "Eve" 30;
   entry_of "Eve" 20; entry_of "Eve" 10].

(** The example state with ledger [hs]. *)
Definition state_with_ledger (hs : list ScoreEntry) (lines : list string) (r : nat) : State :=
  on_self (set_high_scores hs) (example_state lines r).

End Views.

(** * Properties *)

(** Decidable facts about closed data are settled by evaluation. *)
Ltac decide_by_computation := apply (bool_decide_unpack _); vm_compute; exact I.

(** ** Strings *)

Section StringFacts.

Import PyStr.

Local Open Scope list_scope.

Implicit Types (s t : str) (c : codepoint).

Lemma is_lower_spec c : is_lower c = true <-> (97 <= c <= 122)%N.
Proof. unfold is_lower. rewrite andb_true_iff, !N.leb_le. tauto. Qed.

Lemma is_upper_spec c : is_upper c = true <-> (65 <= c <= 90)%N.
Proof. unfold is_upper. rewrite andb_true_iff, !N.leb_le. tauto. Qed.

Lemma ascii_isspace_spec c :
  ascii_isspace c = true <-> (9 <= c <= 13)%N \/ (28 <= c <= 32)%N.
Proof.
  unfold ascii_isspace. rewrite orb_true_iff, !andb_true_iff, !N.leb_le. tauto.
Qed.

Lemma ascii_upper_spec c :
  ((97 <= c <= 122)%N /\ ascii_upper c = (c - 32)%N) \/
  (~ (97 <= c <= 122)%N /\ ascii_upper c = c).
Proof.
  unfold ascii_upper. destruct (is_lower c) eqn:Hl.
  - left. by apply is_lower_spec in Hl.
  - right. split; [|done]. intros Hc. apply is_lower_spec in Hc. congruence.
Qed.

Lemma ascii_upper_lt c : (c < 128)%N -> (ascii_upper c < 128)%N.
Proof. destruct (ascii_upper_spec c) as [[? ->]|[? ->]]; lia. Qed.

Lemma ascii_upper_idem c : ascii_upper (ascii_upper c) = ascii_upper c.
Proof.
  destruct (ascii_upper_spec c) as [[Hc ->]|[Hc ->]].
  - destruct (ascii_upper_spec (c - 32)) as [[? _]|[_ ->]]; [lia|done].
  - destruct (ascii_upper_spec c) as [[? _]|[_ ->]]; [done|done].
Qed.

Lemma ascii_isspace_upper c : ascii_isspace (ascii_upper c) = ascii_isspace c.
Proof.
  apply eq_true_iff_eq. rewrite !ascii_isspace_spec.
  destruct (ascii_upper_spec c) as [[Hc ->]|[Hc ->]]; lia.
Qed.

(** The ASCII rows are a database that has the facts. *)
Lemma basic_latin_lawful : Lawful basic_latin.
Proof.
  split; simpl; try done.
  - intros c Hc. apply ascii_isspace_spec in Hc.
    destruct (ascii_upper_spec c) as [[? _]|[_ ->]]; [lia|done].
  - intros c Hc. split; [done|]. constructor; [|constructor].
    by rewrite ascii_isspace_upper.
  - intros c. unfold upper. simpl. by rewrite ascii_upper_idem.
  - intros c u Hc Hu%list_elem_of_singleton Hlt. subst u.
    destruct (ascii_upper_spec c) as [[? _]|[_ Heq]]; [lia|]. rewrite Heq in Hlt. lia.
Qed.

Lemma is_ascii_spec s : is_ascii s = true <-> Forall (fun c => (c < 128)%N) s.
Proof.
  unfold is_ascii. rewrite forallb_forall, Forall_forall. split.
  - intros H c Hc. apply N.ltb_lt, H. by apply list_elem_of_In.
  - intros H c Hc. apply N.ltb_lt, H. by apply list_elem_of_In.
Qed.

Lemma is_ascii_cons c s : is_ascii (c :: s) = true <-> (c < 128)%N /\ is_ascii s = true.
Proof. unfold is_ascii. simpl. by rewrite andb_true_iff, N.ltb_lt. Qed.

Lemma is_ascii_app s t : is_ascii (s ++ t) = is_ascii s && is_ascii t.
Proof. unfold is_ascii. apply forallb_app. Qed.

Lemma is_ascii_reverse s : is_ascii (reverse s) = is_ascii s.
Proof.
  induction s as [|c s IH]; [done|].
  rewrite reverse_cons, is_ascii_app, IH. unfold is_ascii. simpl.
  by rewrite andb_true_r, andb_comm.
Qed.

Lemma letters_elem s x : x ∈ letters s <-> exists c, x = [c] /\ c ∈ s.
Proof.
  unfold letters. rewrite list_elem_of_fmap. split.
  - intros (c & -> & Hc). by exists c.
  - intros (c & -> & Hc). by exists c.
Qed.

Lemma letters_length s : length (letters s) = length s.
Proof. unfold letters. apply length_map. Qed.

(** A code point of the word occurs in the word. *)
Lemma contains_letter (w : str) letter :
  letter ∈ letters w -> contains letter w = true.
Proof.
  induction w as [|c r IH]; cbn [letters map contains]; intros Hin.
  - by apply elem_of_nil in Hin.
  - apply elem_of_cons in Hin as [->|Hin].
    + rewrite bool_decide_eq_true_2; [done|]. by exists r.
    + fold (letters r) in Hin. rewrite (IH Hin). apply orb_true_r.
Qed.

(** A string of length one occurs in a word exactly as one of its code
    points. *)
Lemma contains_single c (w : str) : contains [c] w = true <-> [c] ∈ letters w.
Proof.
  split; [|apply contains_letter].
  induction w as [|a r IH]; cbn [contains].
  - rewrite orb_false_r. intros [k Hk]%bool_decide_eq_true. done.
  - intros [Hp|Hr]%orb_true_iff.
    + apply bool_decide_eq_true in Hp as [k [= -> _]]. left.
    + right. by apply IH.
Qed.

Lemma upper_basic_latin s : upper (U := basic_latin) s = map ascii_upper s.
Proof. unfold upper. induction s as [|c s IH]; [done|]. simpl. by f_equal. Qed.

Section Stripping.

Context `{U : Unicode}.

Lemma blank_app s t : blank (s ++ t) = blank s && blank t.
Proof. unfold blank. apply forallb_app. Qed.

Lemma blank_reverse s : blank (reverse s) = blank s.
Proof.
  induction s as [|c s IH]; [done|].
  rewrite reverse_cons, blank_app, IH. unfold blank. simpl.
  by rewrite andb_true_r, andb_comm.
Qed.

Lemma lstrip_blank_l l s : blank l = true -> lstrip (l ++ s) = lstrip s.
Proof.
  induction l as [|c l IH]; [done|]. simpl.
  intros [-> Hl]%andb_true_iff. by apply IH.
Qed.

Lemma lstrip_blank s : blank s = true -> lstrip s = [].
Proof. intros Hs. rewrite <- (app_nil_r s). by rewrite lstrip_blank_l. Qed.

Lemma lstrip_app_r s r : blank s = false -> lstrip (s ++ r) = lstrip s ++ r.
Proof.
  induction s as [|c s IH]; [done|]. simpl.
  destruct (whitespace c); simpl; [apply IH|done].
Qed.

Lemma rstrip_blank_r s r : blank r = true -> rstrip (s ++ r) = rstrip s.
Proof.
  intros Hr. unfold rstrip. rewrite reverse_app.
  by rewrite lstrip_blank_l by (by rewrite blank_reverse).
Qed.

(** A string that ends in something else than white space is its own
    [rstrip]. *)
Lemma rstrip_app_solid s t :
  t <> [] -> Forall (fun u => whitespace u = false) t -> rstrip (s ++ t) = s ++ t.
Proof.
  intros Hne Hall. unfold rstrip. rewrite reverse_app.
  destruct (reverse t) as [|x r] eqn:Hrev.
  { apply (f_equal reverse) in Hrev. rewrite reverse_involutive in Hrev. done. }
  assert (Hx : whitespace x = false).
  { rewrite Forall_forall in Hall. apply Hall.
    apply elem_of_reverse. rewrite Hrev. left. }
  simpl. rewrite Hx. rewrite app_comm_cons, <- Hrev, <- reverse_app.
  apply reverse_involutive.
Qed.

(** White space around a string does not count. *)
Lemma strip_blank_around l s r :
  blank l = true -> blank r = true -> strip (l ++ s ++ r) = strip s.
Proof.
  intros Hl Hr. unfold strip. rewrite lstrip_blank_l by done.
  destruct (blank s) eqn:Hs.
  - rewrite (lstrip_blank s) by done.
    rewrite lstrip_blank; [done|]. by rewrite blank_app, Hs, Hr.
  - rewrite lstrip_app_r by done. by apply rstrip_blank_r.
Qed.

Lemma upper_app s t : upper (s ++ t) = upper s ++ upper t.
Proof. unfold upper. apply bind_app. Qed.

Lemma upper_cons c s : upper (c :: s) = uppercase c ++ upper s.
Proof. reflexivity. Qed.

End Stripping.

Section Agreement.

Context `{U : Unicode} {L : Lawful U}.

(** On ASCII strings the methods answer as the ASCII rows say. *)
Lemma upper_ascii s : is_ascii s = true -> upper s = map ascii_upper s.
Proof.
  induction s as [|c s IH]; [done|]. intros [Hc Hs]%is_ascii_cons.
  unfold upper in *. cbn [mbind list_bind map]. 
  rewrite ascii_uppercase by done. by rewrite IH.
Qed.

Lemma is_ascii_map_upper s : is_ascii s = true -> is_ascii (map ascii_upper s) = true.
Proof.
  rewrite !is_ascii_spec. intros Hs. apply Forall_map.
  eapply Forall_impl; [exact Hs|]. intros c Hc. by apply ascii_upper_lt.
Qed.

Lemma is_ascii_upper s : is_ascii s = true -> is_ascii (upper s) = true.
Proof. intros Hs. rewrite upper_ascii by done. by apply is_ascii_map_upper. Qed.

Lemma lstrip_ascii s : is_ascii s = true -> lstrip s = lstrip (U := basic_latin) s.
Proof.
  induction s as [|c s IH]; [done|]. intros [Hc Hs]%is_ascii_cons.
  cbn [lstrip]. rewrite ascii_whitespace by done.
  change (whitespace (Unicode := basic_latin) c) with (ascii_isspace c).
  destruct (ascii_isspace c); [by apply IH|done].
Qed.

Lemma is_ascii_lstrip s : is_ascii s = true -> is_ascii (lstrip s) = true.
Proof.
  induction s as [|c s IH]; [done|]. intros Ha. cbn [lstrip].
  destruct (whitespace c); [|done]. apply IH. by apply is_ascii_cons in Ha as [_ ?].
Qed.

Lemma strip_ascii s : is_ascii s = true -> strip s = strip (U := basic_latin) s.
Proof.
  intros Hs. unfold strip, rstrip.
  rewrite (lstrip_ascii s) by done.
  rewrite lstrip_ascii; [done|].
  rewrite is_ascii_reverse. rewrite <- (lstrip_ascii s) by done.
  by apply is_ascii_lstrip.
Qed.

Lemma is_ascii_strip s : is_ascii s = true -> is_ascii (strip s) = true.
Proof.
  intros Hs. unfold strip, rstrip. rewrite is_ascii_reverse.
  apply is_ascii_lstrip. rewrite is_ascii_reverse. by apply is_ascii_lstrip.
Qed.

Lemma isalpha_ascii s : is_ascii s = true -> isalpha s = isalpha (U := basic_latin) s.
Proof.
  intros Hs. unfold isalpha. destruct s as [|c s]; [done|].
  apply is_ascii_spec in Hs. revert Hs. generalize (c :: s). clear c s.
  intros s Hs. induction Hs as [|c s Hc Hs IH]; [done|].
  cbn [forallb]. rewrite IH, ascii_alphabetic by done. done.
Qed.

(** Upper case and stripping. *)
Lemma upper_idem s : upper (upper s) = upper s.
Proof.
  induction s as [|c s IH]; [done|].
  by rewrite upper_cons, upper_app, uppercase_idem, IH.
Qed.

Lemma lstrip_upper s : lstrip (upper s) = upper (lstrip s).
Proof.
  induction s as [|c s IH]; [done|]. rewrite upper_cons. cbn [lstrip].
  destruct (whitespace c) eqn:Hc.
  - rewrite uppercase_space by done. cbn [app lstrip]. by rewrite Hc.
  - destruct (uppercase_no_space c Hc) as [Hne Hall]. rewrite (upper_cons c s).
    destruct (uppercase c) as [|u us] eqn:Hu; [done|].
    apply Forall_cons in Hall as [Hws _]. cbn [app lstrip]. by rewrite Hws.
Qed.

Lemma rstrip_upper s : rstrip (upper s) = upper (rstrip s).
Proof.
  induction s as [|c s IH] using rev_ind; [done|].
  rewrite upper_app. change (upper [c]) with (uppercase c ++ []).
  rewrite app_nil_r. destruct (whitespace c) eqn:Hc.
  - rewrite uppercase_space by done.
    rewrite !rstrip_blank_r by (unfold blank; simpl; by rewrite Hc). done.
  - destruct (uppercase_no_space c Hc) as [Hne Hall].
    rewrite rstrip_app_solid by done.
    rewrite rstrip_app_solid by (try done; by repeat constructor).
    rewrite upper_app. change (upper [c]) with (uppercase c ++ []).
    by rewrite app_nil_r.
Qed.

Lemma strip_upper s : strip (upper s) = upper (strip s).
Proof. unfold strip. by rewrite lstrip_upper, rstrip_upper. Qed.

End Agreement.

End StringFacts.

(** ** The Unicode character database is lawful *)

Section UcdFacts.

Import PyStr UCD.

Local Open Scope list_scope.

Lemma below_elem (n : nat) (c : N) :
  (c < N.of_nat n)%N -> c ∈ map N.of_nat (seq 0 n).
Proof.
  intros Hc. apply list_elem_of_fmap. exists (N.to_nat c).
  split; [lia|]. apply elem_of_seq. lia.
Qed.

Lemma assoc_elem {A} c (table : list (N * A)) v :
  assoc c table = Some v -> (c, v) ∈ table.
Proof.
  induction table as [|[k w] table IH]; [done|]. cbn [assoc].
  destruct (N.eqb_spec k c) as [->|_].
  - intros [= ->]. apply elem_of_cons. by left.
  - intros H. apply elem_of_cons. right. by apply IH.
Qed.

Lemma uppercase_ucd c :
  @uppercase ucd c =
  match assoc c Uppercase_Mapping with
  | Some u => u
  | None => [c]
  end.
Proof. reflexivity. Qed.

Lemma whitespace_ucd c : @whitespace ucd c = true <-> c ∈ White_Space.
Proof.
  change (@whitespace ucd c) with (existsb (N.eqb c) White_Space).
  rewrite existsb_exists. split.
  - intros (x & Hx & ->%N.eqb_eq). by apply list_elem_of_In.
  - intros Hc. exists c. split; [by apply list_elem_of_In|apply N.eqb_refl].
Qed.

Lemma ucd_ascii_rows :
  Forall (fun c => @alphabetic ucd c = ascii_isalpha c /\
                   @whitespace ucd c = ascii_isspace c /\
                   @uppercase ucd c = [ascii_upper c])
         (map N.of_nat (seq 0 128)).
Proof. decide_by_computation. Qed.

Lemma ucd_white_space_rows :
  Forall (fun c => @uppercase ucd c = [c]) White_Space.
Proof. decide_by_computation. Qed.

Lemma ucd_uppercase_rows :
  Forall (fun row : N * list N =>
            row.2 <> [] /\
            Forall (fun u => @whitespace ucd u = false) row.2 /\
            @upper ucd row.2 = row.2 /\
            Forall (fun u => (row.1 <? 128)%N || (128 <=? u)%N || is_upper u = true)
                   row.2)
         Uppercase_Mapping.
Proof. decide_by_computation. Qed.

Lemma ucd_lawful : Lawful ucd.
Proof.
  pose proof ucd_ascii_rows as Hascii. rewrite Forall_forall in Hascii.
  pose proof ucd_white_space_rows as Hspace. rewrite Forall_forall in Hspace.
  pose proof ucd_uppercase_rows as Hrows. rewrite Forall_forall in Hrows.
  split.
  - intros c Hc. by apply (Hascii c), (below_elem 128).
  - intros c Hc. by apply (Hascii c), (below_elem 128).
  - intros c Hc. by apply (Hascii c), (below_elem 128).
  - intros c Hc. by apply Hspace, whitespace_ucd.
  - intros c Hc. rewrite uppercase_ucd.
    destruct (assoc c Uppercase_Mapping) as [u|] eqn:Hrow.
    + apply assoc_elem, Hrows in Hrow as (? & ? & _). by split.
    + split; [done|]. by repeat constructor.
  - intros c. rewrite uppercase_ucd.
    destruct (assoc c Uppercase_Mapping) as [u|] eqn:Hrow.
    + by apply assoc_elem, Hrows in Hrow as (_ & _ & ? & _).
    + unfold upper. cbn [mbind list_bind]. rewrite uppercase_ucd, Hrow. done.
  - intros c u Hc Hu Hlt. rewrite uppercase_ucd in Hu.
    destruct (assoc c Uppercase_Mapping) as [us|] eqn:Hrow.
    + apply assoc_elem, Hrows in Hrow as (_ & _ & _ & Hcap).
      rewrite Forall_forall in Hcap. specialize (Hcap u Hu). cbn [fst snd] in Hcap.
      destruct (N.ltb_spec c 128); [lia|].
      destruct (N.leb_spec 128 u); [lia|]. done.
    + apply list_elem_of_singleton in Hu. lia.
Qed.

End UcdFacts.
(** ** Sorting and ranking *)

Section LedgerFacts.

Import Ledger.

Local Open Scope Z_scope.

Implicit Types (e : ScoreEntry) (l : list ScoreEntry) (k : Z).

Lemma desc_trans : Relations_1.Transitive desc.
Proof. unfold desc. intros a b c. lia. Qed.

Lemma insert_desc_perm e l : insert_desc e l ≡ₚ e :: l.
Proof.
  induction l as [|y r IH]; simpl; [done|].
  destruct (score e <? score y); [|done].
  rewrite IH. apply Permutation_swap.
Qed.

Lemma sort_by_score_reverse_perm l : sort_by_score_reverse l ≡ₚ l.
Proof.
  induction l as [|e r IH]; simpl; [done|].
  by rewrite insert_desc_perm, IH.
Qed.

Lemma insert_desc_hd a e l :
  desc a e -> HdRel desc a l -> HdRel desc a (insert_desc e l).
Proof.
  intros Hae Hal. destruct l as [|y r]; simpl.
  - by constructor.
  - destruct (score e <? score y); constructor; [|done].
    by inversion Hal.
Qed.

Lemma insert_desc_sorted e l : sorted_desc l -> sorted_desc (insert_desc e l).
Proof.
  unfold sorted_desc. induction 1 as [|y r Hr IH Hy]; simpl.
  - by repeat constructor.
  - destruct (score e <? score y) eqn:Hlt.
    + constructor; [done|]. apply insert_desc_hd; [|done].
      unfold desc. apply Z.ltb_lt in Hlt. lia.
    + constructor; [by constructor|]. constructor.
      unfold desc. apply Z.ltb_ge in Hlt. lia.
Qed.

Lemma sort_by_score_reverse_sorted l : sorted_desc (sort_by_score_reverse l).
Proof.
  induction l as [|e r IH]; simpl; [constructor|].
  by apply insert_desc_sorted.
Qed.

Lemma ties_cons k e l :
  ties k (e :: l) = if decide (score e = k) then e :: ties k l else ties k l.
Proof. unfold ties. rewrite filter_cons. unfold has_score. by destruct (decide _). Qed.

Lemma ties_insert_desc k e l : ties k (insert_desc e l) = ties k (e :: l).
Proof.
  induction l as [|y r IH]; simpl; [done|].
  destruct (score e <? score y) eqn:Hlt; [|done].
  apply Z.ltb_lt in Hlt.
  rewrite (ties_cons k y), IH, !ties_cons.
  repeat destruct (decide _); try done; lia.
Qed.

(** The sort is stable: entries of one score keep their order. *)
Lemma sort_by_score_reverse_stable k l : ties k (sort_by_score_reverse l) = ties k l.
Proof.
  induction l as [|e r IH]; simpl; [done|].
  by rewrite ties_insert_desc, !ties_cons, IH.
Qed.

Lemma ties_nonempty_elem k l : ties k l <> [] -> exists e, e ∈ l /\ score e = k.
Proof.
  intros Hne. destruct (ties k l) as [|e t] eqn:Ht; [done|].
  assert (He : e ∈ ties k l) by (rewrite Ht; left).
  unfold ties in He. apply list_elem_of_filter in He as [? ?]. by exists e.
Qed.

Lemma strongly_sorted_head_max e l x :
  StronglySorted desc (e :: l) -> x ∈ l -> score x <= score e.
Proof.
  intros Hs Hx. apply StronglySorted_inv in Hs as [_ Hall].
  rewrite List.Forall_forall in Hall. apply list_elem_of_In, Hall in Hx.
  unfold desc in Hx. lia.
Qed.

(** A descending list is determined by its classes of ties: whatever
    stable sort Python runs, it returns [sort_by_score_reverse]. *)
Lemma sorted_desc_ties_unique l1 l2 :
  sorted_desc l1 -> sorted_desc l2 -> (forall k, ties k l1 = ties k l2) -> l1 = l2.
Proof.
  unfold sorted_desc. intros H1 H2.
  apply (Sorted_StronglySorted desc_trans) in H1.
  apply (Sorted_StronglySorted desc_trans) in H2.
  revert l2 H2. induction l1 as [|x t1 IH]; intros l2 H2 Heq.
  - destruct l2 as [|y t2]; [done|].
    specialize (Heq (score y)). rewrite ties_cons in Heq.
    by destruct (decide _).
  - destruct l2 as [|y t2].
    { specialize (Heq (score x)). rewrite ties_cons in Heq.
      by destruct (decide _). }
    assert (Hxy : score x = score y).
    { apply Z.le_antisymm.
      - pose proof (Heq (score x)) as Hk. rewrite !ties_cons in Hk.
        destruct (decide (score x = score x)); [|done].
        destruct (decide (score y = score x)); [lia|].
        destruct (ties_nonempty_elem (score x) t2) as (z & Hz & Hsz).
        { by rewrite <- Hk. }
        rewrite <- Hsz. by eapply strongly_sorted_head_max.
      - pose proof (Heq (score y)) as Hk. rewrite !ties_cons in Hk.
        destruct (decide (score y = score y)); [|done].
        destruct (decide (score x = score y)); [lia|].
        destruct (ties_nonempty_elem (score y) t1) as (z & Hz & Hsz).
        { by rewrite Hk. }
        rewrite <- Hsz. by eapply strongly_sorted_head_max. }
    assert (x = y) as ->.
    { pose proof (Heq (score x)) as Hk. rewrite !ties_cons in Hk.
      destruct (decide (score x = score x)); [|done].
      destruct (decide (score y = score x)); [|lia]. congruence. }
    f_equal. apply IH.
    + by apply StronglySorted_inv in H1 as [? _].
    + by apply StronglySorted_inv in H2 as [? _].
    + intros k. specialize (Heq k). rewrite !ties_cons in Heq.
      destruct (decide _); congruence.
Qed.

Lemma sort_by_score_reverse_unique l l' :
  sorted_desc l' -> (forall k, ties k l' = ties k l) -> l' = sort_by_score_reverse l.
Proof.
  intros Hs Ht. apply sorted_desc_ties_unique; [done|apply sort_by_score_reverse_sorted|].
  intros k. by rewrite Ht, sort_by_score_reverse_stable.
Qed.

Lemma sorted_desc_take n l : sorted_desc l -> sorted_desc (take n l).
Proof.
  unfold sorted_desc. intros Hs.
  apply (Sorted_StronglySorted desc_trans) in Hs.
  apply StronglySorted_Sorted.
  revert n. induction Hs as [|x t Ht IH Hall]; intros [|n]; simpl; try constructor.
  - apply IH.
  - rewrite List.Forall_forall in *. intros y Hy. apply Hall.
    apply list_elem_of_In. apply list_elem_of_In in Hy.
    by eapply subseteq_take.
Qed.

Lemma ties_take_prefix k n l : ties k (take n l) `prefix_of` ties k l.
Proof.
  unfold ties. rewrite <- (take_drop n l) at 2. rewrite filter_app.
  by apply prefix_app_r.
Qed.

Lemma ranked_length hs e : (length (ranked hs e) <= 10)%nat.
Proof. unfold ranked. rewrite length_take. lia. Qed.

Lemma ranked_sorted hs e : sorted_desc (ranked hs e).
Proof. apply sorted_desc_take, sort_by_score_reverse_sorted. Qed.

Lemma ranked_ties hs e k : ties k (ranked hs e) `prefix_of` ties k (hs ++ [e]).
Proof.
  unfold ranked. rewrite <- (sort_by_score_reverse_stable k (hs ++ [e])).
  apply ties_take_prefix.
Qed.

Lemma ranked_room hs e :
  (length hs < 10)%nat -> ranked hs e ≡ₚ e :: hs.
Proof.
  intros Hlen. unfold ranked. rewrite take_ge.
  - rewrite sort_by_score_reverse_perm. by rewrite Permutation_app_comm.
  - rewrite (Permutation_length (sort_by_score_reverse_perm _)), length_app. simpl. lia.
Qed.

(** In a descending list the last entry carries the least score. *)
Lemma sorted_desc_last_minimum l lowest :
  sorted_desc l -> last l = Some lowest -> is_minimum (score lowest) l.
Proof.
  unfold sorted_desc. intros Hs Hl.
  apply (Sorted_StronglySorted desc_trans) in Hs.
  split.
  - exists lowest. split; [|done]. apply last_Some in Hl as [l' ->].
    apply elem_of_app. right. left.
  - apply last_Some in Hl as [l' ->]. intros e He.
    induction l' as [|x t IH]; simpl in *.
    + apply list_elem_of_singleton in He as ->. lia.
    + apply StronglySorted_inv in Hs as [Ht Hall].
      apply elem_of_cons in He as [->|He]; [|by apply IH].
      rewrite List.Forall_forall in Hall.
      assert (Hin : List.In lowest (t ++ [lowest])).
      { apply list_elem_of_In, elem_of_app. right. left. }
      apply Hall in Hin. unfold desc in Hin. lia.
Qed.

Lemma high_score_check_empty s : high_score_check [] s = true.
Proof. reflexivity. Qed.

Lemma high_score_check_last hs lowest s :
  last hs = Some lowest -> high_score_check hs s = (s >? score lowest).
Proof.
  intros Hl. unfold high_score_check. rewrite Hl.
  destruct hs; [done|]. simpl. by rewrite orb_false_r.
Qed.

End LedgerFacts.

(** ** The qualification test *)

Section Qualification.

Import Ledger Examples.

Local Open Scope Z_scope.

(** C1, as stated, fails: a ledger with one entry has fewer than 10
    entries, yet a final score of 10 does not pass the test guarding
    [add_high_score], because 10 does not exceed the 50 of the last
    entry. *)
Lemma high_score_check_rejects_with_room :
  (length one_entry_ledger < 10)%nat /\ high_score_check one_entry_ledger 10 = false.
Proof. split; [simpl; lia | reflexivity]. Qed.

(** The test in full: the list is empty, or the score beats the last entry. *)
Lemma high_score_check_iff (hs : list ScoreEntry) (s : Z) :
  high_score_check hs s = true <->
  hs = [] \/ exists lowest, last hs = Some lowest /\ score lowest < s.
Proof.
  destruct (last hs) as [lowest|] eqn:Hl.
  - rewrite (high_score_check_last _ _ _ Hl). split.
    + intros H. right. exists lowest. split; [done|]. apply Z.gtb_lt in H. lia.
    + intros [->|(x & Hx & Hlt)]; [done|]. injection Hx as <-. apply Z.gtb_lt. lia.
  - apply last_None in Hl as ->. split; [by left|reflexivity].
Qed.

(** C1 (amended): for a ledger with fewer than 10 entries the test guarding
    [add_high_score] at the end of [play_game] is true when the ledger is
    empty, whatever the score, and when the score is strictly greater than
    the score of the last entry; for a full ledger of 10 entries it is true
    exactly when the score is strictly greater than the score of the last,
    lowest-ranked entry. *)
Theorem high_score_check_spec (hs : list ScoreEntry) (s : Z) :
  ((length hs < 10)%nat ->
   hs = [] \/ (exists lowest, last hs = Some lowest /\ score lowest < s) ->
   high_score_check hs s = true) /\
  (length hs = 10%nat ->
   (high_score_check hs s = true <->
    exists lowest, last hs = Some lowest /\ score lowest < s)).
Proof.
  split.
  - intros _ H. by apply high_score_check_iff.
  - intros Hlen. rewrite high_score_check_iff. split; [|by right].
    intros [->|H]; [done|done].
Qed.

Lemma high_score_check_spec_one_entry :
  high_score_check one_entry_ledger 60 = true.
Proof.
  apply (proj1 (high_score_check_spec one_entry_ledger 60)).
  - unfold one_entry_ledger. simpl. lia.
  - right. exists (entry_of "Ann" 50). split; reflexivity.
Defined.

End Qualification.

(** ** Loading and saving *)

Section StoreFacts.

Import Py Ledger Store Examples.

Local Open Scope Z_scope.

Lemma as_entry_entry_json e : as_entry (entry_json e) = Some e.
Proof. by destruct e. Qed.

Lemma as_ledger_ledger_json l : as_ledger (ledger_json l) = Some l.
Proof.
  unfold as_ledger, ledger_json. apply mapM_Some.
  induction l as [|e r IH]; simpl; constructor; [apply as_entry_entry_json | done].
Qed.

Lemma ledger_json_inj l1 l2 : ledger_json l1 = ledger_json l2 -> l1 = l2.
Proof.
  intros H. apply (f_equal as_ledger) in H.
  rewrite !as_ledger_ledger_json in H. congruence.
Qed.

Lemma caught_on_load e :
  e ∈ [JSONDecodeError; IOError] <-> e = JSONDecodeError \/ e = IOError.
Proof. rewrite elem_of_cons, list_elem_of_singleton. tauto. Qed.

Lemma caught_on_save e : e ∈ [IOError] <-> e = IOError.
Proof. apply list_elem_of_singleton. Qed.

(** C9, as stated, fails: on a score file whose bytes are not valid UTF-8
    reading raises [UnicodeDecodeError], which is neither of the two
    classes [load_high_scores] catches, and it reaches the caller. *)
Lemma load_high_scores_raises_undecodable :
  load_high_scores undecodable_disk = Raised UnicodeDecodeError.
Proof. reflexivity. Qed.

(** When loading and saving raise: exactly when reading or writing raises
    an exception that is not of a class the handler lists. *)
Lemma load_high_scores_raises_iff (d : Disk) (e : exn) :
  load_high_scores d = Raised e <->
  file d = Unreadable e /\ e <> JSONDecodeError /\ e <> IOError.
Proof.
  unfold load_high_scores. destruct (file d) as [|v|e']; simpl.
  - split; [done|]. by intros [? _].
  - split; [done|]. by intros [? _].
  - case_bool_decide as Hc; rewrite caught_on_load in Hc.
    + split; [done|]. intros ([= ->] & H1 & H2). tauto.
    + split.
      * intros [= ->]. split; [done|]. tauto.
      * by intros ([= ->] & _).
Qed.

Lemma save_high_scores_raises_iff (d : Disk) (hs : list ScoreEntry) (e : exn) :
  fst (save_high_scores hs d) = Raised e <->
  (exists after, on_write d = WriteFails e after) /\ e <> IOError.
Proof.
  unfold save_high_scores, try_except_pass, open_and_dump.
  destruct (on_write d) as [|e' after]; simpl.
  - split; [done|]. by intros [[? ?] _].
  - case_bool_decide as Hc; rewrite caught_on_save in Hc; simpl.
    + split; [done|]. by intros [[? [= -> _]] Hne].
    + split.
      * intros [= ->]. split; [by exists after|done].
      * by intros [[? [= -> _]] _].
Qed.

(** C9 (amended): [load_high_scores] returns the empty list, and does not
    raise, when the score file is missing and when reading it raises
    [JSONDecodeError] or [IOError]; it returns the decoded value when
    reading succeeds; [save_high_scores] returns normally when the write
    goes through and when it raises [IOError], which it swallows. *)
Theorem load_save_failure_handling (d : Disk) (hs : list ScoreEntry) :
  (file d = Absent -> load_high_scores d = Done (JList [])) /\
  (forall e, file d = Unreadable e -> e = JSONDecodeError \/ e = IOError ->
             load_high_scores d = Done (JList [])) /\
  (forall v, file d = Holds v -> load_high_scores d = Done v) /\
  (forall after, on_write d = WriteFails IOError after ->
             save_high_scores hs d = (Done tt, {| file := after; on_write := on_write d |})) /\
  (on_write d = Writes ->
             save_high_scores hs d =
             (Done tt, {| file := Holds (ledger_json hs); on_write := on_write d |})).
Proof.
  unfold load_high_scores, save_high_scores, try_except_pass, open_and_dump.
  split; [|split; [|split; [|split]]].
  - by intros ->.
  - intros e -> [-> | ->]; reflexivity.
  - by intros v ->.
  - by intros after ->.
  - by intros ->.
Qed.

Lemma load_save_failure_handling_absent :
  load_high_scores {| file := Absent; on_write := WriteFails IOError Absent |} =
    Done (JList []) /\
  save_high_scores one_entry_ledger
    {| file := Absent; on_write := WriteFails IOError Absent |} =
    (Done tt, {| file := Absent; on_write := WriteFails IOError Absent |}).
Proof.
  destruct (load_save_failure_handling
              {| file := Absent; on_write := WriteFails IOError Absent |}
              one_entry_ledger) as (Hmissing & _ & _ & Hfail & _).
  split; [apply Hmissing; reflexivity | apply (Hfail Absent); reflexivity].
Defined.

End StoreFacts.

(** ** One round *)

Section RoundFacts.

Import Py PyStr WordBank Game Round Examples.

Local Open Scope Z_scope.

Context `{U : Unicode}.

Implicit Types (g : LetterGuessingGame) (rs : RoundState) (guess line : str).
Implicit Types (eof : exn).

Lemma is_word_complete_spec (w : str) (s : gset str) :
  is_word_complete w s = true <-> forall letter, letter ∈ letters w -> letter ∈ s.
Proof.
  unfold is_word_complete. rewrite forallb_forall. split.
  - intros H letter Hin. apply list_elem_of_In, H in Hin. by apply bool_decide_eq_true in Hin.
  - intros H letter Hin. apply bool_decide_eq_true, H. by apply list_elem_of_In.
Qed.

Lemma accepted_spec guess rs :
  accepted guess rs = true <->
  single_letter guess = true /\ (guess ∉ correct_letters rs) /\ (guess ∉ wrong_letters rs).
Proof.
  unfold accepted, already_guessed.
  rewrite andb_true_iff, negb_true_iff, orb_false_iff, !bool_decide_eq_false. tauto.
Qed.

(** [take_guess] on a letter of the word that does not complete it. *)
Lemma take_guess_correct wd d guess g rs :
  contains guess (upper (word wd)) = true ->
  is_word_complete (upper (word wd)) (correct_letters rs ∪ {[guess]}) = false ->
  take_guess wd d guess g rs =
    (Continue,
     set_correct_guesses (correct_guesses g + 1) (set_total_attempts (total_attempts g + 1) g),
     {| correct_letters := correct_letters rs ∪ {[guess]};
        wrong_letters := wrong_letters rs;
        attempts_left := attempts_left rs |}).
Proof. intros Hc Hw. unfold take_guess. rewrite Hc. simpl. by rewrite Hw. Qed.

(** [take_guess] on the letter that completes the word. *)
Lemma take_guess_winning wd d guess g rs :
  contains guess (upper (word wd)) = true ->
  is_word_complete (upper (word wd)) (correct_letters rs ∪ {[guess]}) = true ->
  take_guess wd d guess g rs =
    (Return true,
     set_words_learned (words_learned g ++ [word wd])
       (set_score (score g + (base_points d + attempts_left rs * 5))
          (set_correct_guesses (correct_guesses g + 1)
             (set_total_attempts (total_attempts g + 1) g))),
     {| correct_letters := correct_letters rs ∪ {[guess]};
        wrong_letters := wrong_letters rs;
        attempts_left := attempts_left rs |}).
Proof. intros Hc Hw. unfold take_guess. rewrite Hc. simpl. by rewrite Hw. Qed.

(** [take_guess] on a letter that is not in the word. *)
Lemma take_guess_wrong wd d guess g rs :
  contains guess (upper (word wd)) = false ->
  take_guess wd d guess g rs =
    (Continue,
     set_total_attempts (total_attempts g + 1) g,
     {| correct_letters := correct_letters rs;
        wrong_letters := wrong_letters rs ∪ {[guess]};
        attempts_left := attempts_left rs - 1 |}).
Proof. intros Hc. unfold take_guess. by rewrite Hc. Qed.

Lemma submit_rejected wd d line g rs :
  accepted (read_guess line) rs = false -> submit wd d line g rs = (Continue, g, rs).
Proof. intros H. unfold submit. by rewrite H. Qed.

Lemma submit_accepted wd d line g rs :
  accepted (read_guess line) rs = true ->
  submit wd d line g rs = take_guess wd d (read_guess line) g rs.
Proof. intros H. unfold submit. by rewrite H. Qed.

Lemma submit_cases wd d line g rs : submit_case wd d line g rs (submit wd d line g rs).
Proof.
  destruct (accepted (read_guess line) rs) eqn:Ha.
  - rewrite (submit_accepted _ _ _ _ _ Ha).
    destruct (contains (read_guess line) (upper (word wd))) eqn:Hc.
    + destruct (is_word_complete (upper (word wd))
                  (correct_letters rs ∪ {[read_guess line]})) eqn:Hw.
      * rewrite (take_guess_winning _ _ _ _ _ Hc Hw).
        by apply (case_correct wd d line g rs true).
      * rewrite (take_guess_correct _ _ _ _ _ Hc Hw).
        by apply (case_correct wd d line g rs false).
    + rewrite (take_guess_wrong _ _ _ _ _ Hc). by constructor.
  - rewrite (submit_rejected _ _ _ _ _ Ha). by constructor.
Qed.

Lemma submit_returns_true wd d line g rs b g' rs' :
  submit wd d line g rs = (Return b, g', rs') -> b = true.
Proof.
  intros H. destruct (submit_cases wd d line g rs) as [| |[|]]; congruence.
Qed.

Lemma round_loop_unfold wd d eof lines g rs :
  round_loop wd d eof lines g rs =
  if attempts_left rs >? 0 then
    match lines with
    | [] => (Raised eof, g, rs, [])
    | line :: rest =>
        match submit wd d line g rs with
        | (Return b, g', rs') => (Done b, g', rs', rest)
        | (Continue, g', rs') => round_loop wd d eof rest g' rs'
        end
    end
  else (Done false, g, rs, lines).
Proof. by destruct lines. Qed.

(** Loop rule for [round_loop]: a property kept by every turn that goes
    on holds where the loop gives up, and held just before the winning
    guess where it returns [True]. *)
Lemma round_loop_invariant (I : LetterGuessingGame -> RoundState -> Prop) wd d eof :
  (forall line g rs g' rs',
      I g rs -> 0 < attempts_left rs ->
      submit wd d line g rs = (Continue, g', rs') -> I g' rs') ->
  forall lines g rs o g' rs' rest,
    I g rs ->
    round_loop wd d eof lines g rs = (o, g', rs', rest) ->
    match o with
    | Done false => I g' rs' /\ attempts_left rs' <= 0
    | Done true =>
        exists line g1 rs1,
          I g1 rs1 /\ 0 < attempts_left rs1 /\
          submit wd d line g1 rs1 = (Return true, g', rs')
    | Raised e => e = eof /\ I g' rs' /\ 0 < attempts_left rs' /\ rest = []
    end.
Proof.
  intros Hstep lines.
  induction lines as [|line lines IH]; intros g rs o g' rs' rest HI Hrun;
    rewrite round_loop_unfold in Hrun;
    destruct (attempts_left rs >? 0) eqn:Hpos;
    try (apply Z.gtb_lt in Hpos); try (apply Z.gtb_ltb, Z.ltb_ge in Hpos).
  - injection Hrun as <- <- <- <-. repeat split; [done|lia].
  - injection Hrun as <- <- <- <-. split; [done|lia].
  - destruct (submit wd d line g rs) as [[[|b] g1] rs1] eqn:Hsub.
    + eapply IH; [|exact Hrun]. eapply Hstep; [exact HI| lia |exact Hsub].
    + injection Hrun as <- <- <- <-.
      pose proof (submit_returns_true _ _ _ _ _ _ _ _ Hsub) as ->.
      exists line, g, rs. repeat split; [done|lia|done].
  - injection Hrun as <- <- <- <-. split; [done|lia].
Qed.

Lemma size_add_fresh (s : gset str) x :
  x ∉ s -> Z.of_nat (size (s ∪ {[x]})) = Z.of_nat (size s) + 1.
Proof.
  intros Hx. rewrite size_union by set_solver. rewrite size_singleton. lia.
Qed.

Lemma tally_initial g0 : in_progress g0 g0 initial.
Proof.
  unfold in_progress, tally, initial, MAX_ATTEMPTS.
  cbn [correct_letters wrong_letters attempts_left].
  rewrite size_empty. repeat split; lia.
Qed.

Lemma in_progress_step wd d g0 line g rs g' rs' :
  in_progress g0 g rs -> 0 < attempts_left rs ->
  submit wd d line g rs = (Continue, g', rs') -> in_progress g0 g' rs'.
Proof.
  intros [(Ht & Hc & Ha & Hnn & Hr & Hs & Hh) [Hsc Hw]] Hpos Hsub.
  destruct (submit_cases wd d line g rs) as [Hacc|Hacc Hcon|winning Hacc Hcon Hwin].
  - injection Hsub as <- <-. by repeat split.
  - injection Hsub as <- <-.
    apply accepted_spec in Hacc as (_ & _ & Hfresh).
    unfold in_progress, tally. simpl. rewrite size_add_fresh by done.
    repeat split; try done; lia.
  - destruct winning; [done|]. injection Hsub as <- <-.
    apply accepted_spec in Hacc as (_ & Hfresh & _).
    unfold in_progress, tally. simpl. rewrite size_add_fresh by done.
    repeat split; try done; lia.
Qed.

(** What [round_loop] leaves behind when it returns. *)
Lemma round_loop_summary wd d eof lines g0 b g' rs' rest :
  round_loop wd d eof lines g0 initial = (Done b, g', rs', rest) ->
  tally g0 g' rs' /\
  if b
  then 0 < attempts_left rs' /\
       score g' = score g0 + (base_points d + attempts_left rs' * 5) /\
       words_learned g' = (words_learned g0 ++ [word wd])%list
  else attempts_left rs' = 0 /\
       score g' = score g0 /\ words_learned g' = words_learned g0.
Proof.
  intros Hrun.
  pose proof (round_loop_invariant (in_progress g0) wd d eof
                (in_progress_step wd d g0) _ _ _ _ _ _ _ (tally_initial g0) Hrun) as H.
  destruct b.
  - destruct H as (line & g1 & rs1 & [(Ht & Hc & Ha & Hnn & Hr & Hs & Hh) [Hsc Hw]] & Hpos & Hsub).
    destruct (submit_cases wd d line g1 rs1) as [Hacc|Hacc Hcon|winning Hacc Hcon Hwin];
      try done.
    destruct winning; [|done]. injection Hsub as <- <-.
    apply accepted_spec in Hacc as (_ & Hfresh & _).
    unfold tally. simpl. rewrite size_add_fresh by done.
    repeat split; try done; try lia. congruence.
  - destruct H as [[Ht [Hsc Hw]] Hle].
    split; [done|]. destruct Ht as (_ & _ & _ & Hnn & _). repeat split; [lia|done|done].
Qed.

Lemma word_database_length d : length (WORD_DATABASE d) = 10%nat.
Proof. by destruct d. Qed.

(** [random.choice] always finds a word, and finds it in the table. *)
Lemma choice_word_database r d :
  exists wd, choice r (WORD_DATABASE d) = Some wd /\ wd ∈ WORD_DATABASE d.
Proof.
  unfold choice. rewrite word_database_length.
  destruct (lookup_lt_is_Some_2 (WORD_DATABASE d) (r mod 10)%nat) as [wd Hwd].
  - rewrite word_database_length. apply Nat.mod_upper_bound. lia.
  - exists wd. split; [done|]. by eapply list_elem_of_lookup_2.
Qed.

(** [play_round] is one draw followed by the loop on the terminal. *)
Lemma play_round_locals_inv d st o st' :
  play_round_locals d st = (o, st') ->
  exists wd o' g' rs' rest,
    choice (rand (world st) (drawn (world st))) (WORD_DATABASE d) = Some wd /\
    wd ∈ WORD_DATABASE d /\
    round_loop wd d (ending (world st)) (stdin (world st)) (self st) initial = (o', g', rs', rest) /\
    o = match o' with Done b => Done (b, rs') | Raised e => Raised e end /\
    st' = {| self := g';
             world := set_stdin rest (set_drawn (S (drawn (world st))) (world st)) |}.
Proof.
  unfold play_round_locals, bind, get_random_word, play_word.
  destruct (choice_word_database (rand (world st) (drawn (world st))) d) as (wd & -> & Hin).
  simpl.
  destruct (round_loop wd d (ending (world st)) (stdin (world st)) (self st) initial)
    as [[[o' g'] rs'] rest] eqn:Hrun.
  intros [= <- <-]. by exists wd, o', g', rs', rest.
Qed.

Lemma play_round_locals_run d st wd o g' rs' rest :
  choice (rand (world st) (drawn (world st))) (WORD_DATABASE d) = Some wd ->
  round_loop wd d (ending (world st)) (stdin (world st)) (self st) initial = (o, g', rs', rest) ->
  play_round_locals d st =
  (match o with Done b => Done (b, rs') | Raised e => Raised e end,
   {| self := g';
      world := set_stdin rest (set_drawn (S (drawn (world st))) (world st)) |}).
Proof.
  intros Hch Hrun. unfold play_round_locals, bind, get_random_word, play_word.
  rewrite Hch. simpl. by rewrite Hrun.
Qed.

Lemma play_round_fst d st :
  play_round d st =
  (match fst (play_round_locals d st) with
   | Done r => Done (fst r)
   | Raised e => Raised e
   end, snd (play_round_locals d st)).
Proof.
  unfold play_round, bind, ret.
  by destruct (play_round_locals d st) as [[[b rs]|e] st'].
Qed.

(** What [play_round] leaves behind when it returns. *)
Lemma play_round_summary d st b rs st' :
  play_round_locals d st = (Done (b, rs), st') ->
  tally (self st) (self st') rs /\
  (if b
   then 0 < attempts_left rs /\
        score (self st') = score (self st) + (base_points d + attempts_left rs * 5) /\
        exists wd, wd ∈ WORD_DATABASE d /\
          words_learned (self st') = (words_learned (self st) ++ [word wd])%list
   else attempts_left rs = 0 /\
        score (self st') = score (self st) /\
        words_learned (self st') = words_learned (self st)) /\
  drawn (world st') = S (drawn (world st)) /\
  ticks (world st') = ticks (world st) /\
  disk (world st') = disk (world st) /\
  rand (world st') = rand (world st) /\
  clock (world st') = clock (world st).
Proof.
  intros Hrun.
  apply play_round_locals_inv in Hrun
    as (wd & o' & g' & rs' & rest & Hch & Hin & Hloop & Ho & ->).
  destruct o' as [b'|e]; [|done]. injection Ho as -> ->.
  apply round_loop_summary in Hloop as [Ht Hb]. simpl.
  split; [done|]. split; [|done].
  destruct b'; [|done].
  destruct Hb as (? & ? & ?). repeat split; [done..|]. by exists wd.
Qed.

(** Once [attempts_left] is 0 the loop returns [False]. *)
Lemma round_loop_fails_at_zero wd d eof lines :
  forall g rs,
    Exists (fun rs' => attempts_left rs' = 0) (round_trace wd d lines g rs) ->
    exists g' rs' rest, round_loop wd d eof lines g rs = (Done false, g', rs', rest).
Proof.
  induction lines as [|line lines IH]; intros g rs Hzero;
    rewrite round_loop_unfold; cbn [round_trace] in Hzero;
    apply Exists_cons in Hzero as [Hzero|Hzero].
  - rewrite Hzero. simpl. by eexists _, _, _.
  - destruct (attempts_left rs >? 0); by apply Exists_nil in Hzero.
  - rewrite Hzero. simpl. by eexists _, _, _.
  - destruct (attempts_left rs >? 0) eqn:Hpos; [|by apply Exists_nil in Hzero].
    apply Z.gtb_lt in Hpos.
    destruct (submit_cases wd d line g rs) as [Hacc|Hacc Hcon|[|] Hacc Hcon Hwin];
      try (by apply IH).
    apply Exists_cons in Hzero as [Hzero|Hzero]; [simpl in Hzero; lia|].
    by apply Exists_nil in Hzero.
Qed.

(** C7: a round in which [attempts_left] reaches 0 returns [False]; a
    round that returns [False] ends with [attempts_left] = 0, adds no
    points, and leaves the score and the list of words learned as they
    were; the word "DOG" with the guesses X, Y, Z, Q, W, V is such a
    round. *)
Theorem failed_round_changes_no_score d st :
  (forall rs st',
     play_round_locals d st = (Done (false, rs), st') ->
     play_round d st = (Done false, st') /\
     attempts_left rs = 0 /\
     points_earned d (false, rs) = 0 /\
     score (self st') = score (self st) /\
     words_learned (self st') = words_learned (self st)) /\
  (forall wd,
     choice (rand (world st) (drawn (world st))) (WORD_DATABASE d) = Some wd ->
     Exists (fun rs => attempts_left rs = 0)
            (round_trace wd d (stdin (world st)) (self st) initial) ->
     exists rs st', play_round_locals d st = (Done (false, rs), st')).
Proof.
  split.
  - intros rs st' Hrun. split.
    + rewrite play_round_fst, Hrun. reflexivity.
    + apply play_round_summary in Hrun as (_ & (? & ? & ?) & _). by repeat split.
  - intros wd Hch Hzero.
    apply (round_loop_fails_at_zero wd d (ending (world st))) in Hzero
      as (g' & rs' & rest & Hrun).
    eexists _, _. by rewrite (play_round_locals_run _ _ _ _ _ _ _ Hch Hrun).
Qed.

(** A line that is not accepted leaves the loop where it was. *)
Lemma round_loop_rejected wd d eof line rest g rs :
  0 < attempts_left rs -> accepted (read_guess line) rs = false ->
  round_loop wd d eof (line :: rest) g rs = round_loop wd d eof rest g rs.
Proof.
  intros Hpos Hrej. rewrite round_loop_unfold.
  apply Z.gtb_lt in Hpos. rewrite Hpos. by rewrite submit_rejected.
Qed.

(** What the inner loop hands to the outer one. *)
Lemma ask_letter_spec wd d eof lines :
  forall g rs,
    0 < attempts_left rs ->
    match ask_letter lines rs with
    | None => round_loop wd d eof lines g rs = (Raised eof, g, rs, [])
    | Some (guess, rest) =>
        (length rest < length lines)%nat /\
        accepted guess rs = true /\
        round_loop wd d eof lines g rs =
        match take_guess wd d guess g rs with
        | (Return b, g', rs') => (Done b, g', rs', rest)
        | (Continue, g', rs') => round_loop wd d eof rest g' rs'
        end
    end.
Proof.
  induction lines as [|line lines IH]; intros g rs Hpos; cbn [ask_letter].
  - rewrite round_loop_unfold. apply Z.gtb_lt in Hpos. by rewrite Hpos.
  - destruct (accepted (read_guess line) rs) eqn:Hacc.
    + pose proof Hacc as Hacc'. unfold accepted in Hacc'.
      apply andb_true_iff in Hacc' as [-> ->%negb_true_iff].
      split; [simpl; lia|]. split; [done|].
      rewrite round_loop_unfold. apply Z.gtb_lt in Hpos.
      by rewrite Hpos, submit_accepted.
    + rewrite round_loop_rejected by done.
      assert (Hsame : (if single_letter (read_guess line)
                       then if already_guessed (read_guess line) rs
                            then ask_letter lines rs
                            else Some (read_guess line, lines)
                       else ask_letter lines rs) = ask_letter lines rs).
      { unfold accepted in Hacc. destruct (single_letter _); [|done].
        by destruct (already_guessed _ _). }
      rewrite Hsame. specialize (IH g rs Hpos).
      destruct (ask_letter lines rs) as [[guess rest]|]; [|done].
      destruct IH as (Hlen & ? & ?). split; [simpl; lia|done].
Qed.

(** The loop with one turn per line computes what the nested loops of the
    source compute, as soon as the fuel exceeds the number of lines. *)
Lemma nested_loop_round_loop wd d eof fuel :
  forall lines g rs,
    (length lines < fuel)%nat ->
    nested_loop fuel wd d eof lines g rs = Some (round_loop wd d eof lines g rs).
Proof.
  induction fuel as [|fuel IH]; intros lines g rs Hfuel; [lia|].
  cbn [nested_loop]. destruct (attempts_left rs >? 0) eqn:Hpos.
  - apply Z.gtb_lt in Hpos.
    pose proof (ask_letter_spec wd d eof lines g rs Hpos) as Hask.
    destruct (ask_letter lines rs) as [[guess rest]|]; [|by rewrite Hask].
    destruct Hask as (Hlen & _ & ->).
    destruct (take_guess wd d guess g rs) as [[[|b] g'] rs']; [|done].
    apply IH. lia.
  - rewrite round_loop_unfold. by rewrite Hpos.
Qed.

(** C6: a line whose guess is already in [correct_letters] or in
    [wrong_letters], or is not a single letter, leaves [attempts_left],
    [total_attempts], [correct_guesses] and the two sets as they were, and
    the loop goes on with the next line; a line that changes any of them
    carries an accepted guess, which counts as one attempt. *)
Theorem rejected_guess_changes_nothing wd d eof line g rs :
  (read_guess line ∈ correct_letters rs \/ read_guess line ∈ wrong_letters rs \/
   single_letter (read_guess line) = false ->
   submit wd d line g rs = (Continue, g, rs) /\
   forall rest, 0 < attempts_left rs ->
     round_loop wd d eof (line :: rest) g rs = round_loop wd d eof rest g rs) /\
  (forall flow g' rs',
     submit wd d line g rs = (flow, g', rs') ->
     (attempts_left rs', total_attempts g', correct_guesses g',
      correct_letters rs', wrong_letters rs') <>
     (attempts_left rs, total_attempts g, correct_guesses g,
      correct_letters rs, wrong_letters rs) ->
     accepted (read_guess line) rs = true /\ total_attempts g' = total_attempts g + 1).
Proof.
  split.
  - intros Hrej.
    assert (Ha : accepted (read_guess line) rs = false).
    { destruct (accepted (read_guess line) rs) eqn:Ha; [|done].
      apply accepted_spec in Ha as (? & ? & ?).
      destruct Hrej as [?|[?|?]]; [done|done|congruence]. }
    split; [by apply submit_rejected|].
    intros rest Hpos. by apply round_loop_rejected.
  - intros flow g' rs' Hsub Hne.
    destruct (submit_cases wd d line g rs) as [Hacc|Hacc Hcon|winning Hacc Hcon Hwin].
    + injection Hsub as <- <- <-. done.
    + injection Hsub as <- <- <-. done.
    + injection Hsub as <- <- <-. split; [done|]. by destruct winning.
Qed.

Lemma submit_attempts_left wd d line g rs :
  attempts_left (submit wd d line g rs).2 =
  if accepted (read_guess line) rs && negb (contains (read_guess line) (upper (word wd)))
  then attempts_left rs - 1
  else attempts_left rs.
Proof.
  destruct (submit_cases wd d line g rs) as [Hacc|Hacc Hcon|winning Hacc Hcon Hwin];
    rewrite Hacc; try rewrite Hcon; reflexivity.
Qed.

Lemma round_trace_in_range wd d lines g rs :
  in_range rs -> Forall in_range (round_trace wd d lines g rs).
Proof.
  revert g rs. induction lines as [|line lines IH]; intros g rs Hrs; simpl.
  - constructor; [done|]. destruct (attempts_left rs >? 0); constructor.
  - constructor; [done|].
    destruct (attempts_left rs >? 0) eqn:Hpos; [|constructor].
    apply Z.gtb_lt in Hpos.
    pose proof (submit_attempts_left wd d line g rs) as Hstep.
    destruct (submit wd d line g rs) as [[flow g1] rs1]. simpl in Hstep.
    assert (in_range rs1).
    { unfold in_range in *. destruct (_ && _); lia. }
    destruct flow; [by apply IH|]. constructor; [done|constructor].
Qed.

Lemma round_trace_cons wd d lines g rs :
  exists t, round_trace wd d lines g rs = rs :: t.
Proof. destruct lines; simpl; eauto. Qed.

Lemma round_loop_last_trace wd d eof lines g rs :
  last (round_trace wd d lines g rs) = Some (round_loop wd d eof lines g rs).1.2.
Proof.
  revert g rs. induction lines as [|line lines IH]; intros g rs;
    rewrite round_loop_unfold; cbn [round_trace].
  - by destruct (attempts_left rs >? 0).
  - destruct (attempts_left rs >? 0); [|done].
    destruct (submit wd d line g rs) as [[[|b] g1] rs1]; [|done].
    rewrite <- IH.
    by destruct (round_trace_cons wd d lines g1 rs1) as [t ->].
Qed.

(** C5: through a round [attempts_left] stays between 0 and
    [MAX_ATTEMPTS], at every turn and at the exit of the loop, and a line
    lowers it, by exactly one, exactly when its guess is accepted and is
    not a letter of the word. *)
Theorem attempts_left_stays_in_range wd d eof lines g :
  Forall (fun rs => 0 <= attempts_left rs <= MAX_ATTEMPTS)
         (round_trace wd d lines g initial) /\
  last (round_trace wd d lines g initial) = Some (round_loop wd d eof lines g initial).1.2 /\
  (0 <= attempts_left (round_loop wd d eof lines g initial).1.2 <= MAX_ATTEMPTS) /\
  (forall line g1 rs1,
     attempts_left (submit wd d line g1 rs1).2 =
     if accepted (read_guess line) rs1 &&
        negb (contains (read_guess line) (upper (word wd)))
     then attempts_left rs1 - 1
     else attempts_left rs1).
Proof.
  assert (Hall : Forall in_range (round_trace wd d lines g initial)).
  { apply round_trace_in_range. unfold in_range, initial, MAX_ATTEMPTS. simpl. lia. }
  split; [exact Hall|]. split; [apply round_loop_last_trace|].
  split; [|intros; apply submit_attempts_left].
  rewrite Forall_forall in Hall. apply Hall.
  eapply last_Some_elem_of, round_loop_last_trace.
Qed.

Lemma round_loop_continue wd d eof line rest g rs g' rs' :
  0 < attempts_left rs ->
  submit wd d line g rs = (Continue, g', rs') ->
  round_loop wd d eof (line :: rest) g rs = round_loop wd d eof rest g' rs'.
Proof.
  intros Hpos Hsub. rewrite round_loop_unfold.
  apply Z.gtb_lt in Hpos. by rewrite Hpos, Hsub.
Qed.

Lemma round_loop_return wd d eof line rest g rs b g' rs' :
  0 < attempts_left rs ->
  submit wd d line g rs = (Return b, g', rs') ->
  round_loop wd d eof (line :: rest) g rs = (Done b, g', rs', rest).
Proof.
  intros Hpos Hsub. rewrite round_loop_unfold.
  apply Z.gtb_lt in Hpos. by rewrite Hpos, Hsub.
Qed.

Lemma misses_cons w guess guesses :
  misses w (guess :: guesses) =
  if contains guess w then misses w guesses else S (misses w guesses).
Proof. unfold misses. simpl. by destruct (contains guess w). Qed.

(** Guesses that are new single letters, cover what is missing of the
    word and miss fewer times than there are attempts left end the loop
    with [True], whatever follows them on the terminal. *)
Lemma round_loop_covering wd d eof lines :
  forall rest g rs,
    Forall (fun line => single_letter (read_guess line) = true) lines ->
    NoDup (map read_guess lines) ->
    (forall x, x ∈ map read_guess lines ->
               (x ∉ correct_letters rs) /\ (x ∉ wrong_letters rs)) ->
    (forall letter, letter ∈ letters (upper (word wd)) ->
               letter ∈ correct_letters rs \/ letter ∈ map read_guess lines) ->
    is_word_complete (upper (word wd)) (correct_letters rs) = false ->
    Z.of_nat (misses (upper (word wd)) (map read_guess lines)) < attempts_left rs ->
    exists g' rs' rest',
      round_loop wd d eof (lines ++ rest) g rs = (Done true, g', rs', rest').
Proof.
  induction lines as [|line lines IH];
    intros rest g rs Hsingle Hnodup Hfresh Hcover Hopen Hbudget.
  - exfalso. apply not_true_iff_false in Hopen. apply Hopen.
    apply is_word_complete_spec. intros letter Hl.
    destruct (Hcover letter Hl) as [?|Hin]; [done|]. by apply elem_of_nil in Hin.
  - rewrite <- app_comm_cons. cbn [map] in *.
    apply Forall_cons in Hsingle as [Hone Hsingle].
    apply NoDup_cons in Hnodup as [Hnew Hnodup].
    assert (Hpos : 0 < attempts_left rs) by lia.
    assert (Hacc : accepted (read_guess line) rs = true).
    { apply accepted_spec. split; [done|]. apply Hfresh. left. }
    rewrite misses_cons in Hbudget.
    destruct (contains (read_guess line) (upper (word wd))) eqn:Hcon.
    + destruct (is_word_complete (upper (word wd))
                  (correct_letters rs ∪ {[read_guess line]})) eqn:Hwin.
      * eexists _, _, _. eapply round_loop_return; [done|].
        rewrite submit_accepted by done. by apply take_guess_winning.
      * erewrite round_loop_continue; [|done|].
        2:{ rewrite submit_accepted by done. by apply take_guess_correct. }
        apply IH; simpl; try done.
        -- intros x Hx. destruct (Hfresh x) as [H1 H2]; [by right|].
           split; [|done]. intros [?|Heq%elem_of_singleton]%elem_of_union; [done|].
           by subst.
        -- intros letter Hl. destruct (Hcover letter Hl) as [?|Hin].
           ++ left. apply elem_of_union. by left.
           ++ apply elem_of_cons in Hin as [->|?]; [|by right].
              left. apply elem_of_union. right. by apply elem_of_singleton.
    + erewrite round_loop_continue; [|done|].
      2:{ rewrite submit_accepted by done. by apply take_guess_wrong. }
      apply IH; simpl; try done; [| |lia].
      * intros x Hx. destruct (Hfresh x) as [H1 H2]; [by right|].
        split; [done|]. intros [?|Heq%elem_of_singleton]%elem_of_union; [done|].
        by subst.
      * intros letter Hl. destruct (Hcover letter Hl) as [?|Hin]; [by left|].
        apply elem_of_cons in Hin as [->|?]; [|by right].
        apply contains_letter in Hl. congruence.
Qed.

End RoundFacts.

(** ** One round, on a lawful database *)

Section RoundLawful.

Import Py PyStr WordBank Game Round Examples.

Local Open Scope Z_scope.

Context `{U : Unicode} {L : Lawful U}.

Implicit Types (g : LetterGuessingGame) (rs : RoundState) (guess line : str).
Implicit Types (eof : exn).

(** The words of the table are ASCII. *)
Lemma word_database_ascii d wd : wd ∈ WORD_DATABASE d -> is_ascii (word wd) = true.
Proof.
  intros Hin. destruct d; unfold WORD_DATABASE in Hin;
    repeat (apply elem_of_cons in Hin as [->|Hin]; [reflexivity|]);
    by apply elem_of_nil in Hin.
Qed.

(** On ASCII lines the prompt reads what it reads on the ASCII rows. *)
Lemma read_guess_ascii line :
  is_ascii line = true -> read_guess line = read_guess (U := basic_latin) line.
Proof.
  intros Hl. unfold read_guess. rewrite strip_ascii by done.
  rewrite upper_ascii, upper_basic_latin; [done|].
  by apply (is_ascii_strip (U := basic_latin)).
Qed.

Lemma is_ascii_read_guess line : is_ascii line = true -> is_ascii (read_guess line) = true.
Proof. intros Hl. unfold read_guess. by apply is_ascii_upper, is_ascii_strip. Qed.

Lemma single_letter_ascii guess :
  is_ascii guess = true -> single_letter guess = single_letter (U := basic_latin) guess.
Proof. intros Hg. unfold single_letter. by rewrite isalpha_ascii. Qed.

Lemma submit_ascii wd d line g rs :
  is_ascii (word wd) = true -> is_ascii line = true ->
  submit wd d line g rs = submit (U := basic_latin) wd d line g rs.
Proof.
  intros Hw Hl. unfold submit, accepted, take_guess.
  rewrite read_guess_ascii by done.
  rewrite single_letter_ascii
    by (rewrite <- read_guess_ascii by done; by apply is_ascii_read_guess).
  by rewrite (upper_ascii (word wd)), upper_basic_latin.
Qed.

(** On an ASCII terminal the loop runs as it runs on the ASCII rows. *)
Lemma round_loop_ascii wd d eof lines :
  is_ascii (word wd) = true -> Forall (fun line => is_ascii line = true) lines ->
  forall g rs,
    round_loop wd d eof lines g rs = round_loop (U := basic_latin) wd d eof lines g rs.
Proof.
  intros Hw Hall. induction Hall as [|line lines Hl _ IH]; intros g rs;
    rewrite !round_loop_unfold; [done|].
  rewrite submit_ascii by done.
  destruct (attempts_left rs >? 0); [|done].
  by destruct (submit wd d line g rs) as [[[|b] g1] rs1].
Qed.

Lemma play_round_locals_ascii d st :
  Forall (fun line => is_ascii line = true) (stdin (world st)) ->
  play_round_locals d st = play_round_locals (U := basic_latin) d st.
Proof.
  intros Hall. unfold play_round_locals, bind, get_random_word, play_word.
  destruct (choice_word_database (rand (world st) (drawn (world st))) d)
    as (wd & -> & Hin). simpl.
  rewrite round_loop_ascii; [done| |done]. by apply word_database_ascii with d.
Qed.

Lemma play_round_ascii d st :
  Forall (fun line => is_ascii line = true) (stdin (world st)) ->
  play_round d st = play_round (U := basic_latin) d st.
Proof. intros Hall. by rewrite !play_round_fst, play_round_locals_ascii. Qed.

(** The round on "CAT" with the guesses C, A, T, from any game. *)
Lemma cat_round_loop g eof rest :
  exists g' rs',
    round_loop cat easy eof (py "C" :: py "A" :: py "T" :: rest) g initial =
      (Done true, g', rs', rest) /\
    attempts_left rs' = 6 /\ score g' = score g + 40.
Proof.
  eexists _, _. split.
  - erewrite round_loop_continue; [|done|].
    2:{ rewrite submit_ascii by reflexivity.
        rewrite submit_accepted by reflexivity. by apply take_guess_correct. }
    erewrite round_loop_continue; [|done|].
    2:{ rewrite submit_ascii by reflexivity.
        rewrite submit_accepted by reflexivity. by apply take_guess_correct. }
    erewrite round_loop_return; [reflexivity|done|].
    rewrite submit_ascii by reflexivity.
    rewrite submit_accepted by reflexivity. by apply take_guess_winning.
  - simpl. unfold MAX_ATTEMPTS. split; [done|lia].
Qed.

(** C4: a round that succeeds adds to the score the base points of the
    difficulty (10, 20, 30 for easy, medium, hard) plus five times
    [attempts_left] as it stands when the word is completed; the winning
    guess leaves [attempts_left] as it found it; and the word "CAT" on easy
    with the guesses C, A, T succeeds with [attempts_left] = 6 and earns
    40 points. *)
Theorem completed_round_points :
  (forall d st rs st',
     play_round_locals d st = (Done (true, rs), st') ->
     play_round d st = (Done true, st') /\
     score (self st') = score (self st) + (base_points d + attempts_left rs * 5) /\
     points_earned d (true, rs) = base_points d + attempts_left rs * 5 /\
     attempts_left rs = MAX_ATTEMPTS - Z.of_nat (size (wrong_letters rs)) /\
     0 < attempts_left rs <= MAX_ATTEMPTS) /\
  (base_points easy = 10 /\ base_points medium = 20 /\ base_points hard = 30) /\
  (forall wd d guess g rs g' rs',
     take_guess wd d guess g rs = (Return true, g', rs') ->
     attempts_left rs' = attempts_left rs /\
     score g' = score g + (base_points d + attempts_left rs * 5)) /\
  (forall st rest,
     choice (rand (world st) (drawn (world st))) (WORD_DATABASE easy) = Some cat ->
     stdin (world st) = py "C" :: py "A" :: py "T" :: rest ->
     exists rs st',
       play_round_locals easy st = (Done (true, rs), st') /\
       attempts_left rs = 6 /\
       score (self st') = score (self st) + 40 /\
       stdin (world st') = rest).
Proof.
  split; [|split; [done|split]].
  - intros d st rs st' Hrun. split.
    { rewrite play_round_fst, Hrun. reflexivity. }
    apply play_round_summary in Hrun as ((_ & _ & Ha & _) & (Hpos & Hsc & _) & _).
    repeat split; [done|done|lia|lia].
  - intros wd d guess g rs g' rs' Htake. unfold take_guess in Htake.
    destruct (contains guess (upper (word wd))); [|done].
    destruct (is_word_complete _ _); [|done].
    by injection Htake as <- <-.
  - intros st rest Hch Hin.
    destruct (cat_round_loop (self st) (ending (world st)) rest)
      as (g' & rs' & Hrun & Ha & Hs).
    rewrite <- Hin in Hrun at 1.
    exists rs', {| self := g';
                   world := set_stdin rest (set_drawn (S (drawn (world st))) (world st)) |}.
    split; [|done].
    by rewrite (play_round_locals_run _ _ _ _ _ _ _ Hch Hrun).
Qed.

(** No word of the table is complete before the first guess. *)
Lemma word_database_incomplete d wd :
  wd ∈ WORD_DATABASE d -> is_word_complete (upper (word wd)) ∅ = false.
Proof.
  intros Hin. rewrite upper_ascii by (by apply word_database_ascii with d).
  destruct d; unfold WORD_DATABASE in Hin;
    repeat (apply elem_of_cons in Hin as [->|Hin]; [reflexivity|]);
    by apply elem_of_nil in Hin.
Qed.

(** C2 (amended): for every word of the table and every sequence of new
    single-letter guesses that covers every letter of the word and holds
    fewer than [MAX_ATTEMPTS] guesses that are not letters of the word,
    [play_round] returns [True], whatever is typed after them. *)
Theorem covering_guesses_win d st wd lines rest :
  choice (rand (world st) (drawn (world st))) (WORD_DATABASE d) = Some wd ->
  stdin (world st) = (lines ++ rest)%list ->
  Forall (fun line => single_letter (read_guess line) = true) lines ->
  NoDup (map read_guess lines) ->
  letters (upper (word wd)) ⊆ map read_guess lines ->
  Z.of_nat (misses (upper (word wd)) (map read_guess lines)) < MAX_ATTEMPTS ->
  wd ∈ WORD_DATABASE d /\
  exists st', play_round d st = (Done true, st').
Proof.
  intros Hch Hin Hsingle Hnodup Hcover Hbudget.
  assert (Hwd : wd ∈ WORD_DATABASE d) by (by eapply list_elem_of_lookup_2).
  split; [done|].
  destruct (round_loop_covering wd d (ending (world st)) lines rest (self st) initial)
    as (g' & rs' & rest' & Hrun); try done.
  - intros letter Hl. right. by apply Hcover.
  - by apply word_database_incomplete with d.
  - rewrite <- Hin in Hrun.
    eexists. rewrite play_round_fst.
    by rewrite (play_round_locals_run _ _ _ _ _ _ _ Hch Hrun).
Qed.

End RoundLawful.

(** ** One round: scenarios *)

Section RoundScenarios.

Import Py PyStr WordBank Game Round Examples.

Local Open Scope Z_scope.

Local Existing Instance UCD.ucd.
Local Existing Instance ucd_lawful.

Lemma dog_round_fails :
  play_round_locals easy dog_state =
  (Done (false, dog_locals),
   {| self := set_total_attempts 6 (self dog_state);
      world := set_stdin [] (set_drawn 1 (world dog_state)) |}).
Proof. vm_compute. reflexivity. Qed.

Lemma failed_round_changes_no_score_dog :
  play_round easy dog_state =
    (Done false, {| self := set_total_attempts 6 (self dog_state);
                    world := set_stdin [] (set_drawn 1 (world dog_state)) |}) /\
  attempts_left dog_locals = 0 /\
  points_earned easy (false, dog_locals) = 0 /\
  score (set_total_attempts 6 (self dog_state)) = score (self dog_state) /\
  words_learned (set_total_attempts 6 (self dog_state)) = words_learned (self dog_state).
Proof.
  exact (proj1 (failed_round_changes_no_score easy dog_state) _ _ dog_round_fails).
Defined.

Lemma rejected_guess_changes_nothing_repeat :
  submit cat easy (py "a") (self cat_state) a_guessed = (Continue, self cat_state, a_guessed).
Proof.
  assert (H : read_guess (py "a") ∈ correct_letters a_guessed).
  { change (read_guess (py "a") ∈ ({[py "A"]} : gset str)).
    by apply elem_of_singleton_2. }
  exact (proj1 (proj1 (rejected_guess_changes_nothing cat easy EOFError (py "a")
                         (self cat_state) a_guessed) (or_introl H))).
Defined.

(** Beyond ASCII.  A small E WITH ACUTE is read as the capital, which is
    a single letter: on CAT it is a wrong guess and costs an attempt.  An
    Arabic SEEN is a single letter too.  A letter typed behind a NO-BREAK
    SPACE is read without it.  A SHARP S is read as SS, which is no single
    letter, and so is rejected. *)
Lemma guesses_beyond_ascii :
  read_guess [233%N] = [201%N] /\
  accepted [201%N] initial = true /\
  attempts_left (submit cat easy [233%N] (self cat_state) initial).2 = 5 /\
  accepted (read_guess [1587%N]) initial = true /\
  read_guess (160%N :: py "c") = py "C" /\
  read_guess [223%N] = py "SS" /\
  accepted (py "SS") initial = false.
Proof. vm_compute. by repeat split. Qed.

Lemma cat_round_succeeds :
  exists rs st',
    play_round_locals easy cat_state = (Done (true, rs), st') /\
    attempts_left rs = 6 /\ score (self st') = 40.
Proof.
  destruct (cat_round_loop (self cat_state) EOFError []) as (g' & rs' & Hrun & Ha & Hs).
  exists rs', {| self := g'; world := set_stdin [] (set_drawn 1 (world cat_state)) |}.
  split; [|split; [exact Ha|exact Hs]].
  by rewrite (play_round_locals_run easy cat_state cat (Done true) g' rs' []).
Qed.

Lemma completed_round_points_cat :
  exists rs st',
    play_round easy cat_state = (Done true, st') /\
    score (self st') = score (self cat_state) + (base_points easy + attempts_left rs * 5) /\
    attempts_left rs = 6.
Proof.
  destruct cat_round_succeeds as (rs & st' & Hrun & Ha & _).
  exists rs, st'.
  destruct (proj1 completed_round_points easy cat_state rs st' Hrun) as (H1 & H2 & _).
  by repeat split.
Defined.

(** C2, as stated, fails: X, Y, Z, Q, W, V, C, A, T are nine different
    single letters that cover every letter of "CAT", a word of the table,
    and the round on them returns [False]: the six letters that miss use up
    the attempts before C, A and T are read. *)
Lemma covering_guesses_can_lose :
  cat ∈ WORD_DATABASE easy /\
  Forall (fun line => single_letter (read_guess line) = true) late_cat_lines /\
  NoDup (map read_guess late_cat_lines) /\
  letters (upper (word cat)) ⊆ map read_guess late_cat_lines /\
  play_round easy late_cat_state =
    (Done false,
     {| self := set_total_attempts 6 (self late_cat_state);
        world := set_stdin (typed ["C"; "A"; "T"])
                   (set_drawn 1 (world late_cat_state)) |}).
Proof.
  split; [|split; [|split; [|split]]].
  - decide_by_computation.
  - apply Forall_forall. intros line Hl.
    unfold late_cat_lines in Hl.
    repeat (apply elem_of_cons in Hl as [->|Hl]; [reflexivity|]).
    by apply elem_of_nil in Hl.
  - decide_by_computation.
  - decide_by_computation.
  - vm_compute. reflexivity.
Qed.

Lemma covering_guesses_win_cat :
  cat ∈ WORD_DATABASE easy /\ exists st', play_round easy cat_state = (Done true, st').
Proof.
  apply (covering_guesses_win easy cat_state cat (typed ["C"; "A"; "T"]) []).
  - reflexivity.
  - reflexivity.
  - repeat constructor.
  - decide_by_computation.
  - decide_by_computation.
  - by vm_compute.
Defined.

End RoundScenarios.

(** ** The session *)

Section SessionFacts.

Import Py PyStr WordBank Game Round Session Examples.

Local Open Scope Z_scope.

Context `{U : Unicode}.

Lemma bind_done {S A B} (m : M S A) (k : A -> M S B) s b s' :
  bind m k s = (Done b, s') ->
  exists a s1, m s = (Done a, s1) /\ k a s1 = (Done b, s').
Proof.
  unfold bind. destruct (m s) as [[a|e] s1]; [|done]. intros H. by exists a, s1.
Qed.

Lemma add_high_score_unfold n s d st :
  add_high_score n s d st =
  let entry := {| Ledger.name := n; Ledger.score := s; Ledger.difficulty := d;
                  Ledger.date := clock (world st) (ticks (world st)) |} in
  let ledger := Ledger.ranked (high_scores (self st)) entry in
  let r := Store.save_high_scores ledger (disk (world st)) in
  (fst r,
   {| self := set_high_scores ledger (self st);
      world := set_disk (snd r) (set_ticks (S (ticks (world st))) (world st)) |}).
Proof.
  unfold add_high_score, bind, now, modify, save_high_scores. simpl.
  by destruct (Store.save_high_scores _ _).
Qed.

(** C3 (amended): whatever the ledger before, after [add_high_score] the
    ledger has at most 10 entries and is sorted by descending score;
    entries of equal score stand in the order in which they stood in the
    old ledger followed by the new entry; the ledger is the first ten
    entries of the one stable descending arrangement of the old entries
    and the new one; and it is handed to [save_high_scores]: when the
    write goes through, the file holds exactly the new ledger and a later
    load gives that ledger back; when the write raises [IOError], the call
    still returns and the file is as the failed write left it. *)
Theorem add_high_score_keeps_ledger n s d st :
  let entry := {| Ledger.name := n; Ledger.score := s; Ledger.difficulty := d;
                  Ledger.date := clock (world st) (ticks (world st)) |} in
  let before := high_scores (self st) in
  let r := add_high_score n s d st in
  let after := high_scores (self (snd r)) in
  (length after <= 10)%nat /\
  Ledger.sorted_desc after /\
  (forall k, Ledger.ties k after `prefix_of` Ledger.ties k (before ++ [entry])) /\
  (forall arranged,
     Ledger.sorted_desc arranged ->
     (forall k, Ledger.ties k arranged = Ledger.ties k (before ++ [entry])) ->
     after = take 10 arranged) /\
  (fst r, disk (world (snd r))) = Store.save_high_scores after (disk (world st)) /\
  (Store.on_write (disk (world st)) = Store.Writes ->
   fst r = Done tt /\
   Store.file (disk (world (snd r))) = Store.Holds (Store.ledger_json after) /\
   Store.load_high_scores (disk (world (snd r))) = Done (Store.ledger_json after) /\
   Store.loaded_ledger (disk (world (snd r))) = Done (Some after) /\
   (forall other,
      Store.file (disk (world (snd r))) = Store.Holds (Store.ledger_json other) ->
      other = after)) /\
  (forall left_behind,
     Store.on_write (disk (world st)) = Store.WriteFails IOError left_behind ->
     fst r = Done tt /\ Store.file (disk (world (snd r))) = left_behind).
Proof.
  intros entry before r after. subst r after.
  rewrite add_high_score_unfold. fold entry before. cbn [snd fst self high_scores set_high_scores].
  cbn [world disk set_disk].
  split; [apply ranked_length|]. split; [apply ranked_sorted|].
  split; [intros k; apply ranked_ties|]. split; [|split; [|split]].
  - intros arranged Hs Ht. unfold Ledger.ranked.
    by rewrite (sort_by_score_reverse_unique _ _ Hs Ht).
  - by destruct (Store.save_high_scores _ _).
  - intros Hw. unfold Store.save_high_scores, try_except_pass, Store.open_and_dump.
    rewrite Hw. simpl. split; [done|]. split; [done|]. split; [done|]. split.
    + unfold Store.loaded_ledger, Store.load_high_scores.
      cbn [Store.file Store.path_exists Store.open_and_load].
      by rewrite as_ledger_ledger_json.
    + intros other Heq. symmetry. apply ledger_json_inj. congruence.
  - intros left_behind Hw.
    unfold Store.save_high_scores, try_except_pass, Store.open_and_dump.
    rewrite Hw. simpl. done.
Qed.

Lemma input_inv st line st' :
  input st = (Done line, st') -> self st' = self st /\ surroundings st' = surroundings st.
Proof.
  unfold input. destruct (stdin (world st)); [done|]. by intros [= <- <-].
Qed.

Lemma get_difficulty_inv st o st' :
  get_difficulty st = (o, st') -> self st' = self st /\ surroundings st' = surroundings st.
Proof.
  unfold get_difficulty. destruct (get_difficulty_loop _). by intros [= <- <-].
Qed.

Lemma display_final_stats_inv st o st' :
  display_final_stats st = (o, st') ->
  self st' = self st /\ drawn (world st') = drawn (world st).
Proof.
  unfold display_final_stats, bind, get, now, ret.
  destruct (start_time (self st)); by intros [= <- <-].
Qed.

(** Between two rounds: [Press Enter to continue], except after the last. *)
Lemma pause_inv (i : nat) st o st' :
  (if (i <? ROUNDS_PER_GAME - 1)%nat
   then bind input (fun _ => ret tt) else ret tt) st = (o, st') ->
  self st' = self st /\ surroundings st' = surroundings st.
Proof.
  destruct (i <? ROUNDS_PER_GAME - 1)%nat; [|by intros [= <- <-]].
  unfold bind, ret. destruct (input st) as [[line|e] st1] eqn:Hin.
  - intros [= <- <-]. by apply input_inv in Hin.
  - unfold input in Hin. destruct (stdin (world st)); [|done].
    injection Hin as <- <-. by intros [= <- <-].
Qed.

Lemma last_cons_default {A} (i : A) (rest : list A) (x : A) :
  default x (last (i :: rest)) = default i (last rest).
Proof.
  destruct rest as [|j rest]; [done|].
  rewrite last_cons. by destruct (last (j :: rest)) eqn:Hl.
Qed.

(** What the loop over the rounds has done when it is through. *)
Lemma play_rounds_summary d rounds :
  forall st history st',
    play_rounds rounds d st = (Done history, st') ->
    length history = length rounds /\
    drawn (world st') = (drawn (world st) + length rounds)%nat /\
    score (self st') = score (self st) + total (points_earned d) history /\
    total_attempts (self st') = total_attempts (self st) + total guesses_made history /\
    correct_guesses (self st') = correct_guesses (self st) + total correct_made history /\
    Z.of_nat (length (words_learned (self st'))) =
      Z.of_nat (length (words_learned (self st))) + total won history /\
    round (self st') = default (round (self st)) (last rounds).
Proof.
  induction rounds as [|i rest IH]; intros st history st' Hrun.
  - injection Hrun as <- <-. simpl. repeat split; lia.
  - cbn [play_rounds] in Hrun.
    apply bind_done in Hrun as ([] & st1 & Hmod & Hrun).
    injection Hmod as <-.
    apply bind_done in Hrun as ([b rs] & st2 & Hround & Hrun).
    apply bind_done in Hrun as ([] & st3 & Hpause & Hrun).
    apply bind_done in Hrun as (h & st4 & Hrest & Hret).
    injection Hret as <- <-.
    apply pause_inv in Hpause as [Hself Hsur].
    apply play_round_summary in Hround
      as ((Ht & Hc & _ & _ & Hr & _) & Hb & Hdrawn & _).
    apply IH in Hrest as (Hlen & Hd & Hs & Hta & Hcg & Hwl & Hrd).
    assert (Hd3 : drawn (world st3) = drawn (world st2)).
    { unfold surroundings in Hsur. congruence. }
    rewrite Hself in *. simpl in Ht, Hc, Hr, Hb, Hdrawn.
    rewrite last_cons_default, Hrd, Hr.
    cbn [length total foldr]. fold (total (points_earned d) h).
    fold (total guesses_made h). fold (total correct_made h). fold (total won h).
    change (points_earned d (b, rs))
      with (if b then base_points d + attempts_left rs * 5 else 0).
    change (guesses_made (b, rs))
      with (Z.of_nat (size (correct_letters rs)) + Z.of_nat (size (wrong_letters rs))).
    change (correct_made (b, rs)) with (Z.of_nat (size (correct_letters rs))).
    change (won (b, rs)) with (if b then 1 else 0).
    repeat split; try lia.
    + destruct b; destruct Hb as (? & ? & ?); lia.
    + destruct b.
      * destruct Hb as (_ & _ & wd & _ & Hw). rewrite Hw, length_app in Hwl.
        simpl in Hwl. lia.
      * destruct Hb as (_ & _ & Hw). rewrite Hw in Hwl. lia.
Qed.

Lemma modify_done {S} (f : S -> S) s (u : unit) s' :
  modify f s = (Done u, s') -> s' = f s.
Proof. by intros [= <-]. Qed.

Lemma now_inv st t st' :
  now st = (Done t, st') ->
  self st' = self st /\ drawn (world st') = drawn (world st).
Proof. by intros [= <- <-]. Qed.

Lemma add_high_score_inv n s d st o st' :
  add_high_score n s d st = (o, st') ->
  score (self st') = score (self st) /\
  round (self st') = round (self st) /\
  words_learned (self st') = words_learned (self st) /\
  total_attempts (self st') = total_attempts (self st) /\
  correct_guesses (self st') = correct_guesses (self st) /\
  drawn (world st') = drawn (world st).
Proof. rewrite add_high_score_unfold. by intros [= <- <-]. Qed.

(** C8: a session that runs to its end has played exactly
    [ROUNDS_PER_GAME] = 10 rounds, each on a word of its own draw, whatever
    the rounds returned; its attempts, correct guesses, words learned and
    score are the sums over all ten rounds, lost ones included; and in the
    loop a round that returns, won or lost, is followed by the rounds that
    remain. *)
Theorem play_game_plays_ten_rounds :
  (forall st history st',
     play_game st = (Done history, st') ->
     length history = ROUNDS_PER_GAME /\
     drawn (world st') = (drawn (world st) + ROUNDS_PER_GAME)%nat /\
     round (self st') = 9%nat /\
     total_attempts (self st') = total guesses_made history /\
     correct_guesses (self st') = total correct_made history /\
     Z.of_nat (length (words_learned (self st'))) = total won history /\
     exists d, score (self st') = total (points_earned d) history) /\
  (forall d i rest st b rs st1 st2,
     play_round_locals d (on_self (set_round i) st) = (Done (b, rs), st1) ->
     (if (i <? ROUNDS_PER_GAME - 1)%nat
      then bind input (fun _ => ret tt) else ret tt) st1 = (Done tt, st2) ->
     play_rounds (i :: rest) d st =
     bind (play_rounds rest d) (fun history => ret ((b, rs) :: history)) st2).
Proof.
  split.
  - intros st history st' Hrun. unfold play_game in Hrun.
    apply bind_done in Hrun as (d & s1 & Hdiff & Hrun).
    apply bind_done in Hrun as (line & s2 & Hname & Hrun).
    apply bind_done in Hrun as ([] & s3 & ->%modify_done & Hrun).
    apply bind_done in Hrun as ([] & s4 & ->%modify_done & Hrun).
    apply bind_done in Hrun as ([] & s5 & ->%modify_done & Hrun).
    apply bind_done in Hrun as (t & s6 & Hnow & Hrun).
    apply bind_done in Hrun as ([] & s7 & ->%modify_done & Hrun).
    apply bind_done in Hrun as ([] & s8 & ->%modify_done & Hrun).
    apply bind_done in Hrun as ([] & s9 & ->%modify_done & Hrun).
    apply bind_done in Hrun as (h & s10 & Hrounds & Hrun).
    apply bind_done in Hrun as ([] & s11 & Hstats & Hrun).
    apply bind_done in Hrun as (s & s12 & Hget & Hrun).
    injection Hget as <- <-.
    apply bind_done in Hrun as ([] & s13 & Hadd & Hrun).
    apply bind_done in Hrun as (enter & s14 & Henter & Hret).
    injection Hret as <- <-.
    apply get_difficulty_inv in Hdiff as [_ Hsur1].
    apply input_inv in Hname as [_ Hsur2].
    apply now_inv in Hnow as [Hself6 Hdrawn6].
    apply play_rounds_summary in Hrounds as (Hlen & Hd & Hs & Hta & Hcg & Hwl & Hrd).
    apply display_final_stats_inv in Hstats as [Hself11 Hdrawn11].
    apply input_inv in Henter as [Hself14 Hsur14].
    assert (Hkept : score (self s13) = score (self s11) /\
                    round (self s13) = round (self s11) /\
                    words_learned (self s13) = words_learned (self s11) /\
                    total_attempts (self s13) = total_attempts (self s11) /\
                    correct_guesses (self s13) = correct_guesses (self s11) /\
                    drawn (world s13) = drawn (world s11)).
    { destruct (Ledger.high_score_check _ _).
      - by apply add_high_score_inv in Hadd.
      - by injection Hadd as <-. }
    destruct Hkept as (K1 & K2 & K3 & K4 & K5 & K6).
    unfold surroundings in *. simpl in *.
    rewrite Hself14, K1, K2, K3, K4, K5, Hself11.
    rewrite Hself6 in Hs, Hwl. simpl in Hs, Hwl.
    split; [done|]. split.
    { assert (drawn (world s14) = drawn (world s13)) by congruence.
      assert (drawn (world s2) = drawn (world st)) by congruence.
      unfold ROUNDS_PER_GAME. lia. }
    split; [done|]. split; [lia|]. split; [lia|]. split; [lia|].
    exists d. lia.
  - intros d i rest st b rs st1 st2 Hround Hpause.
    cbn [play_rounds]. unfold bind at 1. unfold modify.
    unfold bind at 1. rewrite Hround.
    unfold bind at 1. by rewrite Hpause.
Qed.

End SessionFacts.

(** ** The session: scenarios *)

Section SessionScenarios.

Import Py PyStr WordBank Game Round Session Examples.

Local Open Scope Z_scope.

Local Existing Instance UCD.ucd.
Local Existing Instance ucd_lawful.

(** C3, as stated, fails: where the score file cannot be written, the
    [IOError] of the write is swallowed: [add_high_score] returns, the
    ledger of the game holds Alice's entry, and no file has come to be, so
    that a later load gives the empty list. *)
Lemma add_high_score_not_persisted :
  fst (add_high_score (py "Alice") 50 (py "easy") read_only_state) = Done tt /\
  high_scores (self (snd (add_high_score (py "Alice") 50 (py "easy") read_only_state))) =
    [{| Ledger.name := py "Alice"; Ledger.score := 50; Ledger.difficulty := py "easy";
        Ledger.date := py "2024-01-01 10:00" |}] /\
  Store.file (disk (world (snd (add_high_score (py "Alice") 50 (py "easy")
                                  read_only_state)))) = Store.Absent /\
  Store.loaded_ledger (disk (world (snd (add_high_score (py "Alice") 50 (py "easy")
                                           read_only_state)))) = Done (Some []).
Proof. repeat split. Qed.

Lemma add_high_score_keeps_ledger_alice :
  high_scores (self (snd (add_high_score (py "Alice") 50 (py "easy") alice_state))) =
    [{| Ledger.name := py "Alice"; Ledger.score := 50; Ledger.difficulty := py "easy";
        Ledger.date := py "2024-01-01 10:00" |}] /\
  Store.loaded_ledger
    (disk (world (snd (add_high_score (py "Alice") 50 (py "easy") alice_state)))) =
    Done (Some (high_scores
                  (self (snd (add_high_score (py "Alice") 50 (py "easy") alice_state))))).
Proof.
  split; [reflexivity|].
  destruct (add_high_score_keeps_ledger (py "Alice") 50 (py "easy") alice_state)
    as (_ & _ & _ & _ & _ & Hsaved & _).
  apply Hsaved. reflexivity.
Defined.

Lemma play_game_plays_ten_rounds_session :
  match play_game session_state with
  | (Done history, st') =>
      map fst history = [true; false; true; true; true; true; true; true; true; true] /\
      length history = 10%nat /\
      drawn (world st') = 10%nat /\
      total_attempts (self st') = total guesses_made history
  | (Raised _, _) => False
  end.
Proof.
  assert (Hm : outcomes_of (play_game session_state) =
               [true; false; true; true; true; true; true; true; true; true])
    by (vm_compute; reflexivity).
  destruct (play_game session_state) as [[history|e] st'] eqn:Hrun; [|done].
  destruct (proj1 play_game_plays_ten_rounds session_state history st' Hrun)
    as (H1 & H2 & _ & H4 & _).
  by repeat split.
Defined.

End SessionScenarios.

(** ** What a loaded ledger can be *)

Section LoadedLedger.

Import PyStr Py Ledger Store Examples.

Local Open Scope Z_scope.

Lemma foreign_ledger_unsorted : ~ sorted_desc foreign_ledger.
Proof.
  unfold sorted_desc, foreign_ledger. intros Hs.
  apply Sorted_inv in Hs as [_ Hhd]. apply HdRel_inv in Hhd.
  unfold desc in Hhd. simpl in Hhd. lia.
Qed.

Lemma foreign_ledger_minimum : is_minimum 1 foreign_ledger.
Proof.
  split.
  - exists (entry_of "Bob" 1). split; [left|reflexivity].
  - intros e He. unfold foreign_ledger in He.
    repeat (apply elem_of_cons in He as [->|He]; [simpl; lia|]).
    by apply elem_of_nil in He.
Qed.

Lemma foreign_ledger_last_not_minimum :
  exists lowest, last foreign_ledger = Some lowest /\
                 ~ is_minimum (score lowest) foreign_ledger.
Proof.
  exists (entry_of "Bob" 11). split; [reflexivity|].
  intros [_ Hmin]. specialize (Hmin (entry_of "Bob" 1)).
  simpl in Hmin. assert (11 <= 1); [|lia]. apply Hmin. left.
Qed.

(** C10: [load_high_scores] returns the decoded file as it is, whatever it
    holds, so that any list of entries on file becomes the ledger
    unchanged; it is [add_high_score] that leaves at most 10 entries in
    descending order, and in such a list the last entry carries the least
    score; the test at the end of [play_game] compares with the last entry
    of the list it is given; and a file that the game did not write can
    hold more than 10 entries, out of order, whose last entry does not
    carry the least score, or entries that are not score records at all. *)
Theorem load_high_scores_returns_file_as_is :
  (forall v w, load_high_scores {| file := Holds v; on_write := w |} = Done v) /\
  (forall hs w,
     loaded_ledger {| file := Holds (ledger_json hs); on_write := w |} = Done (Some hs)) /\
  (forall hs e, (length (ranked hs e) <= 10)%nat /\ sorted_desc (ranked hs e)) /\
  (forall hs lowest,
     sorted_desc hs -> last hs = Some lowest -> is_minimum (score lowest) hs) /\
  (forall hs lowest s,
     last hs = Some lowest -> high_score_check hs s = (s >? score lowest)) /\
  (load_high_scores foreign_disk = Done (ledger_json foreign_ledger) /\
   as_ledger (ledger_json foreign_ledger) = Some foreign_ledger /\
   (length foreign_ledger > 10)%nat /\
   ~ sorted_desc foreign_ledger /\
   (exists lowest, last foreign_ledger = Some lowest /\
                   ~ is_minimum (score lowest) foreign_ledger) /\
   is_minimum 1 foreign_ledger /\
   high_score_check foreign_ledger 5 = false) /\
  (load_high_scores odd_disk = Done (JList [JStr (py "x")]) /\
   as_ledger (JList [JStr (py "x")]) = None).
Proof.
  split; [done|]. split; [|split; [|split; [|split; [|split]]]].
  - intros hs w. unfold loaded_ledger, load_high_scores.
    cbn [file path_exists open_and_load]. by rewrite as_ledger_ledger_json.
  - intros hs e. split; [apply ranked_length|apply ranked_sorted].
  - apply sorted_desc_last_minimum.
  - apply high_score_check_last.
  - split; [reflexivity|]. split; [apply as_ledger_ledger_json|].
    split; [simpl; lia|]. split; [apply foreign_ledger_unsorted|].
    split; [apply foreign_ledger_last_not_minimum|].
    split; [apply foreign_ledger_minimum|reflexivity].
  - split; reflexivity.
Qed.

Lemma load_high_scores_returns_file_as_is_one_entry :
  high_score_check one_entry_ledger 60 = (60 >? 50) /\
  is_minimum 50 one_entry_ledger.
Proof.
  destruct load_high_scores_returns_file_as_is as (_ & _ & _ & Hmin & Hcheck & _).
  split.
  - apply (Hcheck one_entry_ledger (entry_of "Ann" 50) 60). reflexivity.
  - apply (Hmin one_entry_ledger (entry_of "Ann" 50)); [|reflexivity].
    unfold sorted_desc, one_entry_ledger. repeat constructor.
Defined.

End LoadedLedger.

(** * Further properties *)

(** ** Ranking *)

Section RankingFacts.

Import PyStr Py Store Game Session Examples Views Ledger.

Local Open Scope Z_scope.
Local Open Scope list_scope.

Implicit Types (e : ScoreEntry) (hs : list ScoreEntry).

Lemma ledger_after_ranked n s d st :
  ledger_after n s d st = ranked (high_scores (self st)) (entry_added n s d st).
Proof. unfold ledger_after. by rewrite add_high_score_unfold. Qed.

Lemma insert_desc_head e l :
  match l with [] => True | y :: _ => score y <= score e end ->
  insert_desc e l = e :: l.
Proof.
  destruct l as [|y r]; [done|]. simpl. intros Hy.
  destruct (score e <? score y) eqn:Hlt; [|done]. apply Z.ltb_lt in Hlt. lia.
Qed.

(** Sorting a descending list with one entry appended puts that entry
    behind the entries that are not below it and moves nothing else. *)
Lemma sort_sorted_snoc hs e :
  sorted_desc hs ->
  exists above below,
    hs = above ++ below /\
    sort_by_score_reverse (hs ++ [e]) = above ++ e :: below /\
    Forall (fun a => score e <= score a) above /\
    Forall (fun b => score b < score e) below.
Proof.
  unfold sorted_desc. intros Hs. apply (Sorted_StronglySorted desc_trans) in Hs.
  induction Hs as [|x t Ht IH Hx].
  - exists [], []. by repeat split.
  - destruct IH as (above & below & Heq & Hsort & Ha & Hb).
    rewrite List.Forall_forall in Hx.
    assert (Hxt : forall a, a ∈ t -> score a <= score x).
    { intros a Ha'. apply list_elem_of_In, Hx in Ha'. unfold desc in Ha'. lia. }
    destruct (decide (score e <= score x)) as [Hle|Hgt].
    + exists (x :: above), below. split; [by rewrite Heq|].
      split; [|split; [by constructor|done]].
      cbn [app sort_by_score_reverse]. rewrite Hsort.
      apply insert_desc_head. destruct above as [|h above']; simpl; [done|].
      apply Hxt. rewrite Heq. left.
    + assert (above = []) as ->.
      { destruct above as [|h above']; [done|]. exfalso.
        apply Forall_cons in Ha as [Hh _].
        assert (score h <= score x); [|lia]. apply Hxt. rewrite Heq. left. }
      simpl in Heq. subst below.
      exists [], (x :: t). split; [done|]. split; [|split; [done|]].
      * cbn [app sort_by_score_reverse]. rewrite Hsort. simpl.
        destruct (score x <? score e) eqn:Hlt; [|apply Z.ltb_ge in Hlt; lia].
        f_equal. apply insert_desc_head. destruct t as [|h t']; [done|].
        apply Hxt. left.
      * constructor; [lia|done].
Qed.

Lemma strongly_sorted_app_desc (l1 l2 : list ScoreEntry) a b :
  StronglySorted desc (l1 ++ l2) -> a ∈ l1 -> b ∈ l2 -> score b <= score a.
Proof.
  induction l1 as [|x l1 IH]; simpl; intros Hs Ha Hb.
  - by apply elem_of_nil in Ha.
  - apply StronglySorted_inv in Hs as [Hs Hall].
    apply elem_of_cons in Ha as [->|Ha]; [|by apply IH].
    rewrite List.Forall_forall in Hall.
    assert (Hin : List.In b (l1 ++ l2)).
    { apply list_elem_of_In, elem_of_app. by right. }
    apply Hall in Hin. unfold desc in Hin. lia.
Qed.

(** X1: with fewer than 10 entries in the ledger, [add_high_score] loses
    nothing: the new ledger holds the old entries and the new one, each as
    often as before. *)
Theorem add_high_score_with_room n s d st :
  (length (high_scores (self st)) < 10)%nat ->
  ledger_after n s d st ≡ₚ entry_added n s d st :: high_scores (self st).
Proof. intros Hroom. rewrite ledger_after_ranked. by apply ranked_room. Qed.

Lemma add_high_score_with_room_one_entry :
  ledger_after (py "Al") 70 (py "easy") (state_with_ledger one_entry_ledger [] 0) ≡ₚ
  entry_added (py "Al") 70 (py "easy") (state_with_ledger one_entry_ledger [] 0)
    :: one_entry_ledger.
Proof.
  apply (add_high_score_with_room (py "Al") 70 (py "easy") (state_with_ledger one_entry_ledger [] 0)).
  simpl. lia.
Defined.

Lemma ranked_split hs e :
  exists dropped,
    hs ++ [e] ≡ₚ ranked hs e ++ dropped /\
    length (ranked hs e) = (10 `min` S (length hs))%nat /\
    length dropped = (S (length hs) - 10)%nat /\
    Forall (fun kept => Forall (fun b => score b <= score kept) dropped) (ranked hs e).
Proof.
  unfold ranked. set (all := hs ++ [e]).
  assert (Hlen : length (sort_by_score_reverse all) = S (length hs)).
  { rewrite (Permutation_length (sort_by_score_reverse_perm all)).
    unfold all. rewrite length_app. simpl. lia. }
  exists (drop 10 (sort_by_score_reverse all)).
  split; [by rewrite take_drop, sort_by_score_reverse_perm|].
  split; [by rewrite length_take, Hlen|].
  split; [by rewrite length_drop, Hlen|].
  pose proof (sort_by_score_reverse_sorted all) as Hs.
  apply (Sorted_StronglySorted desc_trans) in Hs.
  rewrite <- (take_drop 10 (sort_by_score_reverse all)) in Hs.
  apply Forall_forall. intros kept Hk. apply Forall_forall. intros b Hb.
  by apply (strongly_sorted_app_desc _ _ _ _ Hs Hk Hb).
Qed.

Lemma ranked_sorted_snoc hs e :
  sorted_desc hs ->
  exists above below,
    hs = above ++ below /\
    ranked hs e = take 10 (above ++ e :: below) /\
    Forall (fun a => score e <= score a) above /\
    Forall (fun b => score b < score e) below.
Proof.
  intros Hs.
  destruct (sort_sorted_snoc _ e Hs) as (above & below & Heq & Hsort & Ha & Hb).
  exists above, below. unfold ranked. by rewrite Hsort.
Qed.

(** X2: whatever the ledger, [add_high_score] splits the old entries and
    the new one into the ledger it keeps and the entries it drops; it keeps
    ten if there are that many, all otherwise, and no dropped entry has a
    higher score than a kept one. *)
Theorem add_high_score_keeps_the_best n s d st :
  exists dropped,
    high_scores (self st) ++ [entry_added n s d st] ≡ₚ ledger_after n s d st ++ dropped /\
    length (ledger_after n s d st) = (10 `min` S (length (high_scores (self st))))%nat /\
    length dropped = (S (length (high_scores (self st))) - 10)%nat /\
    Forall (fun kept => Forall (fun b => score b <= score kept) dropped)
           (ledger_after n s d st).
Proof. rewrite ledger_after_ranked. apply ranked_split. Qed.

(** X3: on a ledger in descending order [add_high_score] moves no old
    entry: the new entry goes behind every entry whose score is not below
    its own, ties included, and before the lower ones; then ten are kept. *)
Theorem add_high_score_places_ties_last n s d st :
  sorted_desc (high_scores (self st)) ->
  exists above below,
    high_scores (self st) = above ++ below /\
    ledger_after n s d st = take 10 (above ++ entry_added n s d st :: below) /\
    Forall (fun a => s <= score a) above /\
    Forall (fun b => score b < s) below.
Proof.
  intros Hs. rewrite ledger_after_ranked.
  by apply (ranked_sorted_snoc _ (entry_added n s d st)).
Qed.

Lemma add_high_score_places_ties_last_full :
  exists above below,
    full_ledger = above ++ below /\
    ledger_after (py "Al") 50 (py "easy") (state_with_ledger full_ledger [] 0) =
      take 10 (above ++ entry_added (py "Al") 50 (py "easy") (state_with_ledger full_ledger [] 0)
                     :: below) /\
    Forall (fun a => 50 <= score a) above /\
    Forall (fun b => score b < 50) below.
Proof.
  apply (add_high_score_places_ties_last (py "Al") 50 (py "easy") (state_with_ledger full_ledger [] 0)).
  unfold sorted_desc, desc. simpl. repeat constructor; simpl; lia.
Defined.

(** X4: on a ledger in descending order with at most 10 entries, a score
    that passes the test guarding [add_high_score] is in the ledger
    afterwards: the announcement of a new high score is never followed by
    the entry being cut off. *)
Theorem qualifying_score_is_recorded n s d st :
  sorted_desc (high_scores (self st)) ->
  (length (high_scores (self st)) <= 10)%nat ->
  high_score_check (high_scores (self st)) s = true ->
  entry_added n s d st ∈ ledger_after n s d st.
Proof.
  intros Hs Hlen Hcheck. rewrite ledger_after_ranked.
  destruct (ranked_sorted_snoc _ (entry_added n s d st) Hs)
    as (above & below & Heq & -> & Ha & Hb).
  simpl in Ha, Hb. apply elem_of_take. exists (length above). split.
  { by rewrite lookup_app_r, Nat.sub_diag by lia. }
  apply high_score_check_iff in Hcheck as [Hnil|(lowest & Hlast & Hlt)].
  - rewrite Heq in Hnil. apply app_eq_nil in Hnil as [-> _]. simpl. lia.
  - rewrite Heq in Hlen, Hlast. rewrite length_app in Hlen.
    destruct below as [|b below'].
    + rewrite app_nil_r in Hlast. exfalso.
      apply last_Some_elem_of in Hlast.
      rewrite Forall_forall in Ha. specialize (Ha _ Hlast). lia.
    + simpl in Hlen. lia.
Qed.

Lemma qualifying_score_is_recorded_full :
  entry_added (py "Al") 15 (py "easy") (state_with_ledger full_ledger [] 0)
    ∈ ledger_after (py "Al") 15 (py "easy") (state_with_ledger full_ledger [] 0).
Proof.
  apply qualifying_score_is_recorded.
  - unfold sorted_desc, desc. simpl. repeat constructor; simpl; lia.
  - simpl. lia.
  - reflexivity.
Defined.

(** X5: on a non-empty ledger in descending order, a score that passes the
    test guarding [add_high_score] leaves a ledger whose last entry has a
    score not below that of the old last entry: the lowest score on record
    never goes down. *)
Theorem lowest_score_never_drops n s d st lowest :
  sorted_desc (high_scores (self st)) ->
  last (high_scores (self st)) = Some lowest ->
  high_score_check (high_scores (self st)) s = true ->
  exists lowest',
    last (ledger_after n s d st) = Some lowest' /\ score lowest <= score lowest'.
Proof.
  intros Hs Hlast Hcheck.
  rewrite (high_score_check_last _ _ _ Hlast) in Hcheck. apply Z.gtb_lt in Hcheck.
  destruct (sorted_desc_last_minimum _ _ Hs Hlast) as [_ Hmin].
  rewrite ledger_after_ranked.
  destruct (ranked_split (high_scores (self st)) (entry_added n s d st))
    as (dropped & Hperm & Hlen & _).
  destruct (last (ranked _ _)) as [lowest'|] eqn:Hl'.
  - exists lowest'. split; [done|].
    apply last_Some_elem_of in Hl'.
    assert (Hin : lowest' ∈ high_scores (self st) ++ [entry_added n s d st]).
    { rewrite Hperm. apply elem_of_app. by left. }
    apply elem_of_app in Hin as [Hin|Hin%list_elem_of_singleton].
    + by apply Hmin.
    + subst lowest'. simpl. lia.
  - apply last_None in Hl'. rewrite Hl' in Hlen. simpl in Hlen. lia.
Qed.

Lemma lowest_score_never_drops_full :
  exists lowest',
    last (ledger_after (py "Al") 15 (py "easy") (state_with_ledger full_ledger [] 0)) = Some lowest' /\
    score (entry_of "Eve" 10) <= score lowest'.
Proof.
  apply (lowest_score_never_drops (py "Al") 15 (py "easy") (state_with_ledger full_ledger [] 0)).
  - unfold sorted_desc, desc. simpl. repeat constructor; simpl; lia.
  - reflexivity.
  - reflexivity.
Defined.

End RankingFacts.

(** ** More on one round *)

Section RoundMore.

Import Py PyStr WordBank Game Round Examples Views.

Local Open Scope Z_scope.

Context `{U : Unicode} {L : Lawful U}.

Implicit Types (g : LetterGuessingGame) (rs : RoundState) (guess line : str).
Implicit Types (eof : exn).

(** A guess that the prompt accepts is a string of one code point. *)
Lemma single_letter_inv guess :
  single_letter guess = true -> exists c, guess = [c] /\ alphabetic c = true.
Proof.
  unfold single_letter. destruct guess as [|c [|c' r]]; simpl; try done.
  rewrite andb_true_r. intros Hc. by exists c.
Qed.

(** A string of one code point that occurs in the word is one of its
    letters. *)
Lemma contains_single_letter (w : str) x :
  single_letter x = true -> contains x w = true -> x ∈ letters w.
Proof. intros (c & -> & _)%single_letter_inv. apply contains_single. Qed.

Lemma still_open_step wd d line g rs g' rs' :
  still_open (upper (word wd)) rs -> 0 < attempts_left rs ->
  submit wd d line g rs = (Continue, g', rs') -> still_open (upper (word wd)) rs'.
Proof.
  intros [[Hc Hw] Hopen] _ Hsub.
  destruct (submit_cases wd d line g rs) as [Hacc|Hacc Hcon|winning Hacc Hcon Hwin].
  - by injection Hsub as <- <-.
  - injection Hsub as <- <-.
    apply accepted_spec in Hacc as (Hone & _ & _).
    split; [|done]. split; [done|]. simpl.
    intros x [Hx| ->%elem_of_singleton]%elem_of_union; [by apply Hw|].
    split; [|done]. intros Hin%contains_letter. congruence.
  - destruct winning; [done|]. injection Hsub as <- <-.
    apply accepted_spec in Hacc as (Hone & _ & _).
    split; [|done]. split; [|done]. simpl.
    intros x [Hx| ->%elem_of_singleton]%elem_of_union; [by apply Hc|].
    split; [|done]. by apply contains_single_letter.
Qed.

(** What the two sets hold when the loop stops, however it stops. *)
Lemma round_loop_letters wd d eof lines g o g' rs' rest :
  is_word_complete (upper (word wd)) ∅ = false ->
  round_loop wd d eof lines g initial = (o, g', rs', rest) ->
  letters_sound (upper (word wd)) rs' /\
  is_word_complete (upper (word wd)) (correct_letters rs') =
    match o with Done b => b | Raised _ => false end.
Proof.
  intros Hstart Hrun.
  assert (Hinit : still_open (upper (word wd)) initial).
  { split; [|done]. split; intros x Hx; by apply elem_of_empty in Hx. }
  pose proof (round_loop_invariant (fun _ => still_open (upper (word wd))) wd d eof
                (still_open_step wd d) _ _ _ _ _ _ _ Hinit Hrun) as H.
  destruct o as [[|]|e].
  - destruct H as (line & g1 & rs1 & [[Hc Hw] Hopen] & _ & Hsub).
    destruct (submit_cases wd d line g1 rs1) as [Hacc|Hacc Hcon|winning Hacc Hcon Hwin];
      try done.
    destruct winning; [|done]. injection Hsub as <- <-.
    apply accepted_spec in Hacc as (Hone & _ & _).
    split; [|done]. split; [|done]. simpl.
    intros x [Hx| ->%elem_of_singleton]%elem_of_union; [by apply Hc|].
    split; [|done]. by apply contains_single_letter.
  - by destruct H as [[? ?] _].
  - by destruct H as (_ & [? ?] & _).
Qed.

Lemma play_round_letters d st o wd g' rs' rest :
  choice (rand (world st) (drawn (world st))) (WORD_DATABASE d) = Some wd ->
  round_loop wd d (ending (world st)) (stdin (world st)) (self st) initial = (o, g', rs', rest) ->
  letters_sound (upper (word wd)) rs' /\
  is_word_complete (upper (word wd)) (correct_letters rs') =
    match o with Done b => b | Raised _ => false end.
Proof.
  intros Hch Hrun. eapply round_loop_letters; [|exact Hrun].
  apply word_database_incomplete with d. by eapply list_elem_of_lookup_2.
Qed.

(** X6: a round returns [True] exactly when every letter of its word is in
    [correct_letters] at the exit, and [False] exactly when one is missing:
    the word is never complete in a lost round. *)
Theorem round_won_iff_complete d st b rs st' :
  play_round_locals d st = (Done (b, rs), st') ->
  exists wd,
    choice (rand (world st) (drawn (world st))) (WORD_DATABASE d) = Some wd /\
    b = is_word_complete (upper (word wd)) (correct_letters rs).
Proof.
  intros Hrun.
  apply play_round_locals_inv in Hrun
    as (wd & o' & g' & rs' & rest & Hch & _ & Hloop & Ho & _).
  destruct o' as [b'|e]; [|done]. injection Ho as -> ->.
  exists wd. split; [done|].
  by destruct (play_round_letters d st _ wd _ _ _ Hch Hloop) as [_ ->].
Qed.

(** X7: when a round returns, [correct_letters] holds letters of the word
    only and [wrong_letters] holds none of them, so the two sets share no
    letter; every guess in them is a string of one alphabetic code point,
    as the prompt accepts them; and after a round that is won
    [correct_letters] is the set of the letters of the word. *)
Theorem round_letter_sets d st b rs st' :
  play_round_locals d st = (Done (b, rs), st') ->
  exists wd,
    choice (rand (world st) (drawn (world st))) (WORD_DATABASE d) = Some wd /\
    letters_sound (upper (word wd)) rs /\
    correct_letters rs ## wrong_letters rs /\
    (b = true -> forall x, x ∈ correct_letters rs <-> x ∈ letters (upper (word wd))).
Proof.
  intros Hrun.
  apply play_round_locals_inv in Hrun
    as (wd & o' & g' & rs' & rest & Hch & _ & Hloop & Ho & _).
  destruct o' as [b'|e]; [|done]. injection Ho as -> ->.
  exists wd. split; [done|].
  destruct (play_round_letters d st _ wd _ _ _ Hch Hloop) as [[Hc Hw] Hdone].
  split; [by split|]. split.
  - intros x Hx1 Hx2. apply Hc in Hx1 as [? _]. by apply Hw in Hx2 as [? _].
  - intros ->. intros x. split; [by intros [? _]%Hc|].
    intros Hx. by apply (proj1 (is_word_complete_spec _ _) Hdone).
Qed.

Lemma length_letters_upper (w : str) :
  is_ascii w = true -> length (letters (upper w)) = length w.
Proof. intros Hw. by rewrite letters_length, upper_ascii, length_map. Qed.

Lemma size_list_to_set_le (l : list str) :
  (size (list_to_set l : gset str) <= length l)%nat.
Proof.
  induction l as [|x l IH]; cbn [length].
  - by rewrite list_to_set_nil, size_empty.
  - rewrite list_to_set_cons, size_union_alt, size_singleton.
    assert (size (list_to_set l ∖ {[x]} : gset str) <= size (list_to_set l : gset str))%nat.
    { apply subseteq_size. intros y Hy. by apply elem_of_difference in Hy as [? _]. }
    lia.
Qed.

(** X8: a round that returns has taken at most six guesses that miss,
    exactly six when it is lost and fewer when it is won, and no more
    correct guesses than the word has letters; so it has counted at most
    the length of the word plus six attempts. *)
Theorem round_guess_bounds d st b rs st' :
  play_round_locals d st = (Done (b, rs), st') ->
  exists wd,
    choice (rand (world st) (drawn (world st))) (WORD_DATABASE d) = Some wd /\
    (if b then (size (wrong_letters rs) < 6)%nat else size (wrong_letters rs) = 6%nat) /\
    (size (correct_letters rs) <= length (word wd))%nat /\
    total_attempts (self st) <= total_attempts (self st') <=
      total_attempts (self st) + Z.of_nat (length (word wd)) + 6.
Proof.
  intros Hrun. pose proof Hrun as Hsum.
  apply play_round_summary in Hsum as ((Ht & _ & Ha & Hnn & _) & Hb & _).
  apply play_round_locals_inv in Hrun
    as (wd & o' & g' & rs' & rest & Hch & Hwd & Hloop & Ho & _).
  destruct o' as [b'|e]; [|done]. injection Ho as -> ->.
  exists wd. split; [done|].
  destruct (play_round_letters d st _ wd _ _ _ Hch Hloop) as [[Hc _] _].
  assert (Hsize : (size (correct_letters rs') <= length (word wd))%nat).
  { rewrite <- length_letters_upper by (by apply word_database_ascii with d).
    etransitivity; [|apply size_list_to_set_le].
    apply subseteq_size. intros x Hx. apply elem_of_list_to_set. by apply Hc. }
  unfold MAX_ATTEMPTS in Ha.
  split; [|split; [done|lia]].
  destruct b'; [destruct Hb as (? & _)|destruct Hb as (? & _)]; lia.
Qed.

(** X9: a round that returns never lowers the score; lost, it leaves the
    score as it was; won, it adds at least the base points plus 5 and at
    most the base points plus 30. *)
Theorem round_points_bounds d st b rs st' :
  play_round_locals d st = (Done (b, rs), st') ->
  if b
  then score (self st) + base_points d + 5 <= score (self st') <=
       score (self st) + base_points d + 30
  else score (self st') = score (self st).
Proof.
  intros Hrun.
  apply play_round_summary in Hrun as ((_ & _ & Ha & Hnn & _) & Hb & _).
  unfold MAX_ATTEMPTS in Ha.
  destruct b; [destruct Hb as (? & ? & _); lia|by destruct Hb as (_ & ? & _)].
Qed.

(** X10: a round raises only when the terminal runs out before it is
    decided: the exception is the one with which the terminal ends
    ([EOFError] at the end of input, [KeyboardInterrupt] on an interrupt),
    no line is left, a word has been drawn, and the score, the words
    learned, the ledger and the score file are as before; the attempts
    taken so far stay counted. *)
Theorem round_cut_short d st e st' :
  play_round_locals d st = (Raised e, st') ->
  e = ending (world st) /\
  stdin (world st') = [] /\
  drawn (world st') = S (drawn (world st)) /\
  score (self st') = score (self st) /\
  words_learned (self st') = words_learned (self st) /\
  high_scores (self st') = high_scores (self st) /\
  disk (world st') = disk (world st) /\
  total_attempts (self st) <= total_attempts (self st').
Proof.
  intros Hrun.
  apply play_round_locals_inv in Hrun
    as (wd & o' & g' & rs' & rest & Hch & _ & Hloop & Ho & ->).
  destruct o' as [b'|e']; [done|]. injection Ho as ->.
  pose proof (round_loop_invariant (in_progress (self st)) wd d _
                (in_progress_step wd d (self st)) _ _ _ _ _ _ _
                (tally_initial (self st)) Hloop) as H.
  destruct H as (-> & [(Ht & _ & _ & _ & _ & _ & Hh) [Hs Hw]] & _ & ->).
  simpl. repeat split; try done. lia.
Qed.

Lemma read_guess_upper line : read_guess (upper line) = read_guess line.
Proof. unfold read_guess. by rewrite strip_upper, upper_idem. Qed.

(** X11: at the prompt for a letter neither the case of what is typed nor
    white space around it counts: a line put in upper case, and a line set
    between strings of white space, do to the round what the line itself
    does. *)
Theorem guess_ignores_case_and_blanks wd d line g rs :
  submit wd d (upper line) g rs = submit wd d line g rs /\
  (forall l r,
     blank l = true -> blank r = true ->
     submit wd d (l ++ line ++ r)%list g rs = submit wd d line g rs).
Proof.
  split.
  - unfold submit. by rewrite read_guess_upper.
  - intros l r Hl Hr. unfold submit, read_guess. by rewrite strip_blank_around.
Qed.

Lemma typable_ascii wd :
  is_ascii (word wd) = true -> typable wd = typable (U := basic_latin) wd.
Proof.
  intros Hw. unfold typable.
  rewrite (upper_ascii (word wd)), upper_basic_latin by done.
  assert (Ha : is_ascii (map ascii_upper (word wd)) = true)
    by by apply is_ascii_map_upper.
  revert Ha. generalize (map ascii_upper (word wd)). intros w.
  induction w as [|a w IH]; [done|]. intros [Ha Hw']%is_ascii_cons.
  cbn [letters map forallb]. fold (letters w). rewrite IH by done.
  assert (Hx : is_ascii [a] = true) by (by apply is_ascii_cons).
  by rewrite read_guess_ascii, single_letter_ascii.
Qed.

Lemma word_database_typable d wd : wd ∈ WORD_DATABASE d -> typable wd = true.
Proof.
  intros Hin. rewrite typable_ascii by (by apply word_database_ascii with d).
  destruct d; unfold WORD_DATABASE in Hin;
    repeat (apply elem_of_cons in Hin as [->|Hin]; [reflexivity|]);
    by apply elem_of_nil in Hin.
Qed.

Lemma typable_letter wd x :
  typable wd = true -> x ∈ letters (upper (word wd)) ->
  read_guess x = x /\ single_letter x = true.
Proof.
  unfold typable. rewrite forallb_forall. intros Hall Hx.
  apply list_elem_of_In, Hall in Hx. apply andb_true_iff in Hx as [Heq Hone].
  by apply bool_decide_eq_true in Heq.
Qed.

Lemma map_read_guess_id wd (l : list str) :
  typable wd = true -> l ⊆ letters (upper (word wd)) -> map read_guess l = l.
Proof.
  intros Ht. induction l as [|x l IH]; intros Hsub; [done|]. simpl.
  rewrite IH by (intros y Hy; apply Hsub; by right).
  f_equal. apply (typable_letter wd); [done|]. apply Hsub. left.
Qed.

Lemma misses_letters (w : str) (l : list str) :
  l ⊆ letters w -> misses w l = 0%nat.
Proof.
  induction l as [|x l IH]; intros Hsub; [done|].
  rewrite misses_cons, contains_letter by (apply Hsub; left).
  apply IH. intros y Hy. apply Hsub. by right.
Qed.

(** X12: [get_random_word] never fails and draws from the table of the
    difficulty asked for; and every word it can draw can be won: when the
    letters of the word, each once, are typed, [play_round] returns [True],
    whatever follows on the terminal.  No word of the table holds a
    character that the prompt would refuse. *)
Theorem every_word_can_be_won d st rest :
  exists wd,
    get_random_word d st = (Done wd, on_world (set_drawn (S (drawn (world st)))) st) /\
    wd ∈ WORD_DATABASE d /\
    (stdin (world st) = (spelling wd ++ rest)%list ->
     exists st', play_round d st = (Done true, st')).
Proof.
  destruct (choice_word_database (rand (world st) (drawn (world st))) d) as (wd & Hch & Hin).
  exists wd. split; [|split; [done|]].
  { unfold get_random_word. by rewrite Hch. }
  intros Hlines.
  pose proof (word_database_typable d wd Hin) as Ht.
  assert (Hsub : spelling wd ⊆ letters (upper (word wd))).
  { intros x Hx. unfold spelling in Hx. by rewrite elem_of_remove_dups in Hx. }
  destruct (round_loop_covering wd d (ending (world st)) (spelling wd) rest
              (self st) initial)
    as (g' & rs' & rest' & Hrun).
  - apply Forall_forall. intros x Hx.
    destruct (typable_letter wd x Ht (Hsub x Hx)) as [-> ?]. done.
  - rewrite (map_read_guess_id wd) by done. unfold spelling. apply NoDup_remove_dups.
  - intros x _. split; intros Hx; by apply elem_of_empty in Hx.
  - intros letter Hl. right. rewrite (map_read_guess_id wd) by done.
    unfold spelling. by rewrite elem_of_remove_dups.
  - by apply word_database_incomplete with d.
  - rewrite (map_read_guess_id wd) by done.
    rewrite misses_letters by done. unfold initial, MAX_ATTEMPTS. simpl. lia.
  - rewrite <- Hlines in Hrun. eexists. rewrite play_round_fst.
    by rewrite (play_round_locals_run _ _ _ _ _ _ _ Hch Hrun).
Qed.

End RoundMore.

(** ** More on one round: scenarios *)

Section RoundMoreScenarios.

Import Py PyStr WordBank Game Round Examples Views.

Local Open Scope Z_scope.

Local Existing Instance UCD.ucd.
Local Existing Instance ucd_lawful.

Lemma round_won_iff_complete_dog :
  exists wd,
    choice (rand (world dog_state) (drawn (world dog_state))) (WORD_DATABASE easy) = Some wd /\
    false = is_word_complete (upper (word wd)) (correct_letters dog_locals).
Proof. exact (round_won_iff_complete easy dog_state _ _ _ dog_round_fails). Defined.

Lemma round_letter_sets_dog :
  exists wd,
    choice (rand (world dog_state) (drawn (world dog_state))) (WORD_DATABASE easy) = Some wd /\
    letters_sound (upper (word wd)) dog_locals /\
    correct_letters dog_locals ## wrong_letters dog_locals /\
    (false = true ->
     forall x, x ∈ correct_letters dog_locals <-> x ∈ letters (upper (word wd))).
Proof. exact (round_letter_sets easy dog_state _ _ _ dog_round_fails). Defined.

Lemma round_guess_bounds_dog :
  exists wd,
    choice (rand (world dog_state) (drawn (world dog_state))) (WORD_DATABASE easy) = Some wd /\
    size (wrong_letters dog_locals) = 6%nat /\
    (size (correct_letters dog_locals) <= length (word wd))%nat /\
    total_attempts (self dog_state) <= 6 <=
      total_attempts (self dog_state) + Z.of_nat (length (word wd)) + 6.
Proof. exact (round_guess_bounds easy dog_state _ _ _ dog_round_fails). Defined.

Lemma round_points_bounds_dog :
  score (set_total_attempts 6 (self dog_state)) = score (self dog_state).
Proof. exact (round_points_bounds easy dog_state _ _ _ dog_round_fails). Defined.

(** One letter that misses on "DOG", then the player interrupts the
    prompt. *)
Lemma round_cut_short_interrupted :
  fst (play_round_locals easy (interrupted (example_state ["X"] 3))) =
    Raised KeyboardInterrupt /\
  stdin (world (snd (play_round_locals easy (interrupted (example_state ["X"] 3))))) = [] /\
  drawn (world (snd (play_round_locals easy (interrupted (example_state ["X"] 3))))) =
    1%nat /\
  total_attempts (self (snd (play_round_locals easy (interrupted (example_state ["X"] 3))))) = 1.
Proof.
  destruct (round_cut_short easy (interrupted (example_state ["X"] 3)) KeyboardInterrupt
              (snd (play_round_locals easy (interrupted (example_state ["X"] 3)))))
    as (H1 & H2 & H3 & _); [reflexivity|].
  split; [reflexivity|]. split; [done|]. split; [done|reflexivity].
Defined.

Lemma guess_ignores_case_and_blanks_cat :
  submit cat easy ([32; 160] ++ py "c" ++ [12288; 9])%N%list (self cat_state) initial =
  submit cat easy (py "c") (self cat_state) initial.
Proof.
  apply (proj2 (guess_ignores_case_and_blanks cat easy (py "c") (self cat_state) initial)
           [32; 160]%N [12288; 9]%N); reflexivity.
Defined.

Lemma every_word_can_be_won_cat :
  exists wd,
    get_random_word easy cat_state =
      (Done wd, on_world (set_drawn (S (drawn (world cat_state)))) cat_state) /\
    wd ∈ WORD_DATABASE easy /\
    exists st', play_round easy cat_state = (Done true, st').
Proof.
  destruct (every_word_can_be_won easy cat_state []) as (wd & Hget & Hin & Hwin).
  exists wd. split; [done|]. split; [done|]. apply Hwin.
  vm_compute in Hget. injection Hget as <-. vm_compute. reflexivity.
Defined.

End RoundMoreScenarios.

(** ** Choosing the difficulty *)

Section DifficultyFacts.

Import Py PyStr WordBank Game Round Session Examples Views.

Local Open Scope list_scope.

Context `{U : Unicode}.

Lemma get_difficulty_loop_skips eof junk :
  forall lines,
    Forall (no_choice [py "1"; py "2"; py "3"]) junk ->
    get_difficulty_loop eof (junk ++ lines) = get_difficulty_loop eof lines.
Proof.
  induction junk as [|x junk IH]; intros lines Hjunk; [done|].
  apply Forall_cons in Hjunk as [Hx Hjunk]. cbn [app get_difficulty_loop].
  unfold no_choice in Hx.
  case_bool_decide as H1.
  { exfalso. apply Hx. rewrite H1. set_solver. }
  case_bool_decide as H2.
  { exfalso. apply Hx. rewrite H2. set_solver. }
  case_bool_decide as H3.
  { exfalso. apply Hx. rewrite H3. set_solver. }
  by apply IH.
Qed.

(** X13: [get_difficulty] passes over every line that is not 1, 2 or 3
    once stripped and returns the difficulty of the first line that is,
    leaving the lines after it on the terminal; when no such line comes it
    raises the exception with which the terminal ends.  It changes nothing
    but the terminal. *)
Theorem get_difficulty_first_valid_choice st junk :
  Forall (no_choice [py "1"; py "2"; py "3"]) junk ->
  (forall d line rest,
     stdin (world st) = junk ++ line :: rest ->
     strip line = choice_key d ->
     get_difficulty st = (Done d, on_world (set_stdin rest) st)) /\
  (stdin (world st) = junk ->
   get_difficulty st = (Raised (ending (world st)), on_world (set_stdin []) st)).
Proof.
  intros Hjunk. split.
  - intros d line rest Hin Hkey. unfold get_difficulty.
    rewrite Hin, get_difficulty_loop_skips by done.
    cbn [get_difficulty_loop]. rewrite Hkey. by destruct d.
  - intros Hin. unfold get_difficulty.
    rewrite Hin, <- (app_nil_r junk), get_difficulty_loop_skips by done. done.
Qed.

End DifficultyFacts.

Section DifficultyScenarios.

Import Py PyStr WordBank Game Round Session Examples Views.

Local Open Scope list_scope.

Local Existing Instance UCD.ucd.

(** The lines 0, easy, and 2 between a NO-BREAK SPACE and an EM SPACE:
    the third is the first choice. *)
Lemma get_difficulty_first_valid_choice_example :
  get_difficulty
    (on_world (set_stdin [py "0"; py "easy"; (160 :: py "2" ++ [8195])%N; py "x"])
       (example_state [] 0)) =
  (Done medium, on_world (set_stdin [py "x"]) (example_state [] 0)).
Proof.
  assert (Hjunk : Forall (no_choice [py "1"; py "2"; py "3"]) [py "0"; py "easy"]).
  { repeat apply Forall_cons_2; try apply Forall_nil_2;
      unfold no_choice; apply (bool_decide_unpack _); vm_compute; exact I. }
  apply (proj1 (get_difficulty_first_valid_choice
                  (on_world (set_stdin [py "0"; py "easy"; (160 :: py "2" ++ [8195])%N;
                                        py "x"])
                     (example_state [] 0))
                  [py "0"; py "easy"] Hjunk)
           medium (160 :: py "2" ++ [8195])%N [py "x"]); reflexivity.
Defined.

End DifficultyScenarios.

(** ** The word as it is shown *)

Section DisplayFacts.

Import Py PyStr WordBank Game Round Examples Display Views.

Local Open Scope nat_scope.
Local Open Scope list_scope.

Context `{U : Unicode} {L : Lawful U}.

Implicit Types (s t : str) (c : codepoint).

Lemma occurrences_app c s t :
  occurrences c (s ++ t) = occurrences c s + occurrences c t.
Proof. induction s as [|a s IH]; [done|]. simpl. rewrite IH. lia. Qed.

Lemma occurrences_absent c s : c ∉ s -> occurrences c s = 0.
Proof.
  induction s as [|a s IH]; [done|]. intros Hc. simpl.
  rewrite IH by (intros ?; apply Hc; by right).
  destruct (N.eqb_spec a c) as [->|]; [|done]. exfalso. apply Hc. left.
Qed.

Lemma occurrences_lstrip c s :
  whitespace c = false -> occurrences c (lstrip s) = occurrences c s.
Proof.
  intros Hc. induction s as [|a s IH]; simpl; [done|].
  destruct (whitespace a) eqn:Ha; [|done].
  rewrite IH. destruct (N.eqb_spec a c) as [->|]; [congruence|done].
Qed.

Lemma occurrences_reverse c s : occurrences c (reverse s) = occurrences c s.
Proof.
  induction s as [|a s IH]; [done|].
  rewrite reverse_cons, occurrences_app, IH. simpl. lia.
Qed.

(** Stripping removes white space only. *)
Lemma occurrences_strip c s :
  whitespace c = false -> occurrences c (strip s) = occurrences c s.
Proof.
  intros Hc. unfold strip, rstrip.
  by rewrite occurrences_reverse, occurrences_lstrip, occurrences_reverse,
    occurrences_lstrip.
Qed.

Lemma display_cells p guessed (ls : list str) (display : str) :
  fold_left
    (fun display letter =>
       if bool_decide (letter ∈ guessed)
       then display ++ (GREEN p ++ upper letter ++ RESET_ALL p ++ py " ")
       else display ++ py "_ ")
    ls display =
  display ++ concat (map (cell p guessed) ls).
Proof.
  revert display. induction ls as [|x ls IH]; intros display.
  - simpl. by rewrite app_nil_r.
  - cbn [fold_left map concat]. rewrite IH. unfold cell at 2.
    destruct (bool_decide (x ∈ guessed)); by rewrite <- app_assoc.
Qed.

Lemma occurrences_concat c (ls : list str) :
  occurrences c (concat ls) = sum_list (map (occurrences c) ls).
Proof.
  induction ls as [|x ls IH]; [done|].
  cbn [map sum_list sum_list_with concat]. by rewrite occurrences_app, IH.
Qed.

Lemma whitespace_low_line : whitespace low_line = false.
Proof. by rewrite ascii_whitespace. Qed.

(** No upper-case mapping brings in an underscore. *)
Lemma uppercase_low_line a : a <> low_line -> occurrences low_line (uppercase a) = 0.
Proof.
  intros Ha. destruct (N.lt_ge_cases a 128) as [Hlt|Hge].
  - rewrite ascii_uppercase by done. simpl.
    destruct (N.eqb_spec (ascii_upper a) low_line) as [Heq|]; [|done].
    unfold low_line in *. destruct (ascii_upper_spec a) as [[? Hu]|[_ Hu]]; lia.
  - apply occurrences_absent. intros Hin.
    by pose proof (uppercase_capital a low_line Hge Hin eq_refl).
Qed.

(** A cell holds an underscore exactly when its letter is hidden. *)
Lemma occurrences_cell p guessed a :
  occurrences low_line (GREEN p) = 0 ->
  occurrences low_line (RESET_ALL p) = 0 ->
  a <> low_line ->
  occurrences low_line (cell p guessed [a]) =
  if bool_decide ([a] ∈ guessed) then 0 else 1.
Proof.
  intros Hg Hr Ha. unfold cell.
  destruct (bool_decide ([a] ∈ guessed)); [|done].
  rewrite !occurrences_app, Hg, Hr.
  change (upper [a]) with (uppercase a ++ []).
  by rewrite app_nil_r, uppercase_low_line.
Qed.

Lemma occurrences_cells p guessed word :
  occurrences low_line (GREEN p) = 0 ->
  occurrences low_line (RESET_ALL p) = 0 ->
  occurrences low_line word = 0 ->
  sum_list (map (occurrences low_line) (map (cell p guessed) (letters word))) =
  length (hidden word guessed).
Proof.
  intros Hg Hr. induction word as [|a word IH]; intros Hw; [done|].
  cbn [occurrences] in Hw.
  destruct (N.eqb_spec a low_line) as [|Ha]; [lia|]. simpl in Hw.
  unfold hidden. cbn [letters map sum_list sum_list_with List.filter].
  rewrite occurrences_cell by done.
  fold (letters word).
  fold (sum_list (map (occurrences low_line) (map (cell p guessed) (letters word)))).
  rewrite IH by done. unfold hidden.
  by destruct (bool_decide ([a] ∈ guessed)).
Qed.

Lemma hidden_nil word guessed :
  length (hidden word guessed) = 0 <-> is_word_complete word guessed = true.
Proof.
  unfold hidden, is_word_complete.
  induction (letters word) as [|x ls IH]; [done|].
  cbn [List.filter forallb].
  destruct (bool_decide (x ∈ guessed)); cbn [negb andb length]; [done|].
  split; [lia|done].
Qed.

(** X14: when neither colour code nor the word holds an underscore, the
    text [display_word_state] returns has one underscore for every
    position of the word whose letter is not among the guessed ones, and
    it has none exactly when [is_word_complete] holds of the same word and
    letters. *)
Theorem display_word_state_underscores p word guessed :
  occurrences low_line (GREEN p) = 0 ->
  occurrences low_line (RESET_ALL p) = 0 ->
  occurrences low_line word = 0 ->
  occurrences low_line (display_word_state p word guessed) =
    length (hidden word guessed) /\
  (occurrences low_line (display_word_state p word guessed) = 0 <->
   is_word_complete word guessed = true).
Proof.
  intros Hg Hr Hw.
  assert (Hcount : occurrences low_line (display_word_state p word guessed) =
                   length (hidden word guessed)).
  { unfold display_word_state.
    rewrite occurrences_strip by apply whitespace_low_line.
    rewrite display_cells, occurrences_app, occurrences_concat.
    rewrite occurrences_cells by done. done. }
  split; [done|]. rewrite Hcount. apply hidden_nil.
Qed.

End DisplayFacts.

Section DisplayScenarios.

Import Py PyStr WordBank Game Round Examples Display Views.

Local Existing Instance UCD.ucd.
Local Existing Instance ucd_lawful.

Lemma display_word_state_underscores_cat :
  occurrences low_line (display_word_state ansi (py "CAT") {[py "A"]}) = 2%nat.
Proof.
  transitivity (length (hidden (py "CAT") {[py "A"]})).
  - apply (proj1 (display_word_state_underscores ansi (py "CAT") {[py "A"]}
                    eq_refl eq_refl eq_refl)).
  - vm_compute. reflexivity.
Defined.

End DisplayScenarios.

(** ** Sessions, the menu and the program *)

Section SessionMore.

Import Py PyStr WordBank Store Game Round Session Examples Display Menu Views.

Local Open Scope Z_scope.
Local Open Scope list_scope.

Context `{U : Unicode}.

Lemma bind_inv {S A B} (m : M S A) (k : A -> M S B) s o s' :
  bind m k s = (o, s') ->
  (exists e, m s = (Raised e, s') /\ o = Raised e) \/
  (exists a s1, m s = (Done a, s1) /\ k a s1 = (o, s')).
Proof.
  unfold bind. destruct (m s) as [[a|e] s1]; intros H.
  - right. by exists a, s1.
  - left. injection H as <- <-. by exists e.
Qed.

(** *** Steady operations *)

Lemma steady_ret {A} (a : A) : steady (ret a).
Proof.
  intros st o st' [= <- <-].
  split; [done|]. split; [done|]. split; [done|]. by intros e.
Qed.

Lemma steady_bind {A B} (m : M State A) (k : A -> M State B) :
  steady m -> (forall a, steady (k a)) -> steady (bind m k).
Proof.
  intros Hm Hk st o st' Hrun.
  apply bind_inv in Hrun as [(e & Hrun & ->)|(a & s1 & Hrun & Hrest)].
  - apply Hm in Hrun as (Hs & He & Hw & Hc).
    split; [done|]. split; [done|]. split; [done|]. intros e' [= <-]. by apply Hc.
  - apply Hm in Hrun as (Hs1 & He1 & Hw1 & _).
    apply Hk in Hrest as (Hs2 & He2 & Hw2 & Hc).
    split; [by etrans|]. split; [congruence|]. split; [congruence|].
    intros e He. destruct (Hc e He) as [[-> Hnil]|H]; [left; by split|right].
    unfold write_failure in *. by rewrite <- Hw1.
Qed.

Lemma steady_modify (f : LetterGuessingGame -> LetterGuessingGame) :
  steady (modify (on_self f)).
Proof.
  intros st o st' [= <- <-].
  split; [done|]. split; [done|]. split; [done|]. by intros e.
Qed.

Lemma steady_get : steady (@get State).
Proof.
  intros st o st' [= <- <-].
  split; [done|]. split; [done|]. split; [done|]. by intros e.
Qed.

Lemma steady_now : steady now.
Proof.
  intros st o st' [= <- <-].
  split; [done|]. split; [done|]. split; [done|]. by intros e.
Qed.

Lemma steady_input : steady input.
Proof.
  intros st o st'. unfold input. destruct (stdin (world st)) as [|line rest] eqn:Hin.
  - intros [= <- <-]. rewrite Hin. split; [done|]. split; [done|]. split; [done|].
    intros e [= <-]. by left.
  - intros [= <- <-]. simpl. split; [by apply suffix_cons_r|]. split; [done|].
    split; [done|]. by intros e.
Qed.

Lemma get_difficulty_loop_rest eof lines :
  forall o rest,
    get_difficulty_loop eof lines = (o, rest) ->
    rest `suffix_of` lines /\ forall e, o = Raised e -> e = eof /\ rest = [].
Proof.
  induction lines as [|line lines IH]; intros o rest; cbn [get_difficulty_loop].
  - intros [= <- <-]. split; [done|]. by intros e [= <-].
  - case_bool_decide;
      [intros [= <- <-]; split; [by apply suffix_cons_r|done]|].
    case_bool_decide;
      [intros [= <- <-]; split; [by apply suffix_cons_r|done]|].
    case_bool_decide;
      [intros [= <- <-]; split; [by apply suffix_cons_r|done]|].
    intros Hrun. apply IH in Hrun as [Hs He]. split; [by apply suffix_cons_r|done].
Qed.

Lemma steady_get_difficulty : steady get_difficulty.
Proof.
  intros st o st'. unfold get_difficulty.
  destruct (get_difficulty_loop (ending (world st)) (stdin (world st)))
    as [o' rest] eqn:Hloop.
  intros [= <- <-]. apply get_difficulty_loop_rest in Hloop as [Hs He]. simpl.
  split; [done|]. split; [done|]. split; [done|]. intros e Hr. left. by apply He.
Qed.

Lemma round_loop_rest wd d eof lines :
  forall g rs o g' rs' rest,
    round_loop wd d eof lines g rs = (o, g', rs', rest) -> rest `suffix_of` lines.
Proof.
  induction lines as [|line lines IH]; intros g rs o g' rs' rest Hrun;
    rewrite round_loop_unfold in Hrun; destruct (attempts_left rs >? 0).
  - by injection Hrun as <- <- <- <-.
  - by injection Hrun as <- <- <- <-.
  - destruct (submit wd d line g rs) as [[[|b] g1] rs1].
    + apply suffix_cons_r. by eapply IH.
    + injection Hrun as <- <- <- <-. by apply suffix_cons_r.
  - by injection Hrun as <- <- <- <-.
Qed.

Lemma steady_play_round_locals d : steady (play_round_locals d).
Proof.
  intros st o st' Hrun.
  apply play_round_locals_inv in Hrun
    as (wd & o' & g' & rs' & rest & _ & _ & Hloop & -> & ->).
  simpl. split; [by eapply round_loop_rest|]. split; [done|]. split; [done|].
  intros e He. destruct o' as [b|e']; [done|]. injection He as ->. left.
  pose proof (round_loop_invariant (fun _ _ => True) wd d (ending (world st))
                (fun _ _ _ _ _ _ _ _ => I) _ _ _ _ _ _ _ I Hloop) as (-> & _ & _ & ->).
  done.
Qed.

Lemma steady_display_final_stats : steady display_final_stats.
Proof.
  unfold display_final_stats. apply steady_bind; [apply steady_get|intros s].
  destruct (start_time (self s)); [|apply steady_ret].
  apply steady_bind; [apply steady_now|intros t; apply steady_ret].
Qed.

Lemma save_keeps_on_write hs d :
  on_write (snd (Store.save_high_scores hs d)) = on_write d.
Proof.
  unfold Store.save_high_scores, try_except_pass, open_and_dump.
  destruct (on_write d) as [|e after] eqn:Hw; simpl; [done|].
  by case_bool_decide.
Qed.

Lemma steady_add_high_score n s d : steady (add_high_score n s d).
Proof.
  intros st o st' Hrun. rewrite add_high_score_unfold in Hrun.
  injection Hrun as <- <-. simpl.
  split; [done|]. split; [done|]. split; [apply save_keeps_on_write|].
  intros e He. right. by apply save_high_scores_raises_iff in He.
Qed.

Lemma steady_play_rounds d rounds : steady (play_rounds rounds d).
Proof.
  induction rounds as [|i rest IH]; cbn [play_rounds]; [apply steady_ret|].
  apply steady_bind; [apply steady_modify|intros _].
  apply steady_bind; [apply steady_play_round_locals|intros r].
  apply steady_bind.
  { destruct (i <? ROUNDS_PER_GAME - 1)%nat; [|apply steady_ret].
    apply steady_bind; [apply steady_input|intros line; apply steady_ret]. }
  intros _. apply steady_bind; [apply IH|intros h; apply steady_ret].
Qed.

Lemma steady_play_game : steady play_game.
Proof.
  unfold play_game.
  apply steady_bind; [apply steady_get_difficulty|intros d].
  apply steady_bind; [apply steady_input|intros line].
  do 3 (apply steady_bind; [apply steady_modify|intros _]).
  apply steady_bind; [apply steady_now|intros t].
  do 3 (apply steady_bind; [apply steady_modify|intros _]).
  apply steady_bind; [apply steady_play_rounds|intros history].
  apply steady_bind; [apply steady_display_final_stats|intros _].
  apply steady_bind; [apply steady_get|intros s].
  apply steady_bind.
  { destruct (Ledger.high_score_check _ _);
      [apply steady_add_high_score|apply steady_ret]. }
  intros _. apply steady_bind; [apply steady_input|intros enter; apply steady_ret].
Qed.

Lemma steady_enter : steady (bind input (fun _ : str => @ret State unit tt)).
Proof. apply steady_bind; [apply steady_input|intros line; apply steady_ret]. Qed.

(** *** What a session leaves *)

Lemma play_rounds_rounds d rounds :
  forall st history st',
    play_rounds rounds d st = (Done history, st') ->
    Forall round_sound history /\
    high_scores (self st') = high_scores (self st) /\
    start_time (self st') = start_time (self st) /\
    disk (world st') = disk (world st) /\
    clock (world st') = clock (world st) /\
    ticks (world st') = ticks (world st).
Proof.
  induction rounds as [|i rest IH]; intros st history st' Hrun.
  - injection Hrun as <- <-. by repeat split.
  - cbn [play_rounds] in Hrun.
    apply bind_done in Hrun as ([] & st1 & Hmod & Hrun).
    injection Hmod as <-.
    apply bind_done in Hrun as ([b rs] & st2 & Hround & Hrun).
    apply bind_done in Hrun as ([] & st3 & Hpause & Hrun).
    apply bind_done in Hrun as (h & st4 & Hrest & Hret).
    injection Hret as <- <-.
    apply pause_inv in Hpause as [Hself Hsur].
    apply play_round_summary in Hround
      as ((_ & _ & Ha & _ & _ & Hst & Hh) & Hb & _ & Hticks & Hdisk & _ & Hclock).
    apply IH in Hrest as (Hall & Hh' & Hst' & Hdisk' & Hclock' & Hticks').
    unfold surroundings in Hsur. injection Hsur as _ _ Hc3 Ht3 Hd3.
    simpl in Hst, Hh, Hticks, Hdisk, Hclock.
    split.
    { apply Forall_cons. split; [|done]. split; [done|].
      simpl. destruct b; [by destruct Hb as (? & _)|by destruct Hb as (? & _)]. }
    rewrite Hh', Hst', Hdisk', Hclock', Hticks', Hself.
    repeat split; congruence.
Qed.

Lemma display_final_stats_started st t :
  start_time (self st) = Some t ->
  display_final_stats st = (Done tt, on_world (set_ticks (S (ticks (world st)))) st).
Proof. intros Hs. unfold display_final_stats, bind, get. by rewrite Hs. Qed.

Lemma total_cons f r (history : list (bool * RoundState)) :
  total f (r :: history) = f r + total f history.
Proof. reflexivity. Qed.

(** The sums over rounds that are sound. *)
Lemma totals_bounds d history :
  Forall round_sound history ->
  0 <= total won history <= Z.of_nat (length history) /\
  total won history * (base_points d + 5) <= total (points_earned d) history
    <= total won history * (base_points d + 30) /\
  total guesses_made history = total correct_made history + total misses_made history /\
  6 * (Z.of_nat (length history) - total won history) <= total misses_made history
    <= 6 * (Z.of_nat (length history) - total won history) + 5 * total won history.
Proof.
  induction 1 as [|[b rs] h [Ha Hb] _ IH]; [simpl; lia|].
  rewrite !total_cons. cbn [length]. rewrite Nat2Z.inj_succ.
  set (W := total won h) in *. set (P := total (points_earned d) h) in *.
  set (G := total guesses_made h) in *. set (C := total correct_made h) in *.
  set (X := total misses_made h) in *. clearbody W P G C X.
  unfold won, points_earned, guesses_made, correct_made, misses_made.
  unfold MAX_ATTEMPTS in Ha. cbn [fst snd] in *.
  destruct d; cbn [base_points] in *; destruct b; lia.
Qed.

(** The stages of a session that ran to its end. *)
Lemma play_game_stages st history st' :
  play_game st = (Done history, st') ->
  exists d s1 line s2 s10 s13 enter,
    get_difficulty st = (Done d, s1) /\
    input s1 = (Done line, s2) /\
    play_rounds (seq 0 ROUNDS_PER_GAME) d (opened s2) = (Done history, s10) /\
    (if Ledger.high_score_check (high_scores (self s10)) (score (self s10))
     then add_high_score (strip line) (score (self s10)) (difficulty_name d)
     else ret tt) (on_world (set_ticks (S (ticks (world s10)))) s10) = (Done tt, s13) /\
    input s13 = (Done enter, st').
Proof.
  intros Hrun. unfold play_game in Hrun.
  apply bind_done in Hrun as (d & s1 & Hdiff & Hrun).
  apply bind_done in Hrun as (line & s2 & Hname & Hrun).
  apply bind_done in Hrun as ([] & s3 & ->%modify_done & Hrun).
  apply bind_done in Hrun as ([] & s4 & ->%modify_done & Hrun).
  apply bind_done in Hrun as ([] & s5 & ->%modify_done & Hrun).
  apply bind_done in Hrun as (t & s6 & Hnow & Hrun).
  injection Hnow as <- <-.
  apply bind_done in Hrun as ([] & s7 & ->%modify_done & Hrun).
  apply bind_done in Hrun as ([] & s8 & ->%modify_done & Hrun).
  apply bind_done in Hrun as ([] & s9 & ->%modify_done & Hrun).
  apply bind_done in Hrun as (h & s10 & Hrounds & Hrun).
  apply bind_done in Hrun as ([] & s11 & Hstats & Hrun).
  apply bind_done in Hrun as (s & s12 & Hget & Hrun).
  injection Hget as <- <-.
  apply bind_done in Hrun as ([] & s13 & Hadd & Hrun).
  apply bind_done in Hrun as (enter & s14 & Henter & Hret).
  injection Hret as <- <-.
  change (play_rounds (seq 0 ROUNDS_PER_GAME) d (opened s2) = (Done h, s10)) in Hrounds.
  destruct (play_rounds_rounds _ _ _ _ _ Hrounds) as (_ & _ & Hst & _).
  rewrite (display_final_stats_started s10 _ Hst) in Hstats.
  injection Hstats as <-.
  by exists d, s1, line, s2, s10, s13, enter.
Qed.

(** X15: when a session has run to its end, its score is the sum of the
    points of its rounds on the difficulty chosen; if that score passes the
    high-score check on the ledger the session started with, the ledger is
    that ledger ranked with one new entry, which carries the line typed
    for the name with the white space around it removed, the final score, the difficulty chosen and the third
    reading of the clock since the session began, and it is handed to
    [save_high_scores]; otherwise ledger and score file are as they
    were. *)
Theorem play_game_records_final_score st d s1 line s2 history st' :
  get_difficulty st = (Done d, s1) ->
  input s1 = (Done line, s2) ->
  play_game st = (Done history, st') ->
  score (self st') = total (points_earned d) history /\
  let entry := {| Ledger.name := strip line; Ledger.score := score (self st');
                  Ledger.difficulty := difficulty_name d;
                  Ledger.date := clock (world st) (ticks (world st) + 2) |} in
  if Ledger.high_score_check (high_scores (self st)) (score (self st'))
  then high_scores (self st') = Ledger.ranked (high_scores (self st)) entry /\
       disk (world st') =
         snd (Store.save_high_scores (high_scores (self st')) (disk (world st)))
  else high_scores (self st') = high_scores (self st) /\
       disk (world st') = disk (world st).
Proof.
  intros Hd Hl Hrun.
  apply play_game_stages in Hrun
    as (d' & s1' & line' & s2' & s10 & s13 & enter & Hd' & Hl' & Hrounds & Hadd & Henter).
  rewrite Hd in Hd'. injection Hd' as <- <-.
  rewrite Hl in Hl'. injection Hl' as <- <-.
  apply get_difficulty_inv in Hd as [Hself1 Hsur1].
  apply input_inv in Hl as [Hself2 Hsur2].
  apply input_inv in Henter as [Hself' Hsur'].
  pose proof (play_rounds_summary _ _ _ _ _ Hrounds) as (_ & _ & Hs & _).
  apply play_rounds_rounds in Hrounds as (_ & Hh & _ & Hdisk & Hclock & Hticks).
  unfold surroundings in Hsur1, Hsur2, Hsur'.
  injection Hsur1 as _ _ Hc1 Ht1 Hd1. injection Hsur2 as _ _ Hc2 Ht2 Hd2.
  injection Hsur' as _ _ _ _ Hd'.
  simpl in Hs, Hh, Hdisk, Hclock, Hticks.
  assert (Hledger : high_scores (self s10) = high_scores (self st)) by congruence.
  assert (Hfile : disk (world s10) = disk (world st)) by congruence.
  rewrite Hself', Hd'.
  destruct (Ledger.high_score_check (high_scores (self s10)) (score (self s10)))
    eqn:Hcheck.
  - rewrite add_high_score_unfold in Hadd. injection Hadd as _ <-.
    cbn [self world on_world set_high_scores set_disk set_ticks score high_scores
         disk clock ticks] in *.
    rewrite <- Hledger, Hcheck, <- Hfile.
    split; [lia|]. split; [|done].
    do 2 f_equal. rewrite Hclock, Hc2, Hc1. f_equal. lia.
  - injection Hadd as <-.
    cbn [self world on_world set_ticks] in *.
    rewrite <- Hledger, Hcheck. split; [lia|]. by split.
Qed.

(** X16: in a session that ran to its end, the words learned are the
    rounds won, at most ten; the score lies between 5 and 30 points above
    the base points of the difficulty for every round won, so between 0
    and 600; and the guesses that missed number six for every round lost
    and at most five for every round won. *)
Theorem play_game_score_bounds st d s1 history st' :
  get_difficulty st = (Done d, s1) ->
  play_game st = (Done history, st') ->
  let wins := Z.of_nat (length (words_learned (self st'))) in
  wins = total won history /\
  0 <= wins <= 10 /\
  wins * (base_points d + 5) <= score (self st') <= wins * (base_points d + 30) /\
  0 <= score (self st') <= 600 /\
  6 * (10 - wins) <= total_attempts (self st') - correct_guesses (self st')
    <= 6 * (10 - wins) + 5 * wins.
Proof.
  intros Hd Hrun wins. subst wins.
  apply play_game_stages in Hrun
    as (d' & s1' & line & s2 & s10 & s13 & enter & Hd' & Hl & Hrounds & Hadd & Henter).
  rewrite Hd in Hd'. injection Hd' as <- <-.
  apply input_inv in Henter as [Hself' _].
  pose proof (play_rounds_summary _ _ _ _ _ Hrounds)
    as (Hlen & _ & Hs & Hta & Hcg & Hwl & _).
  apply play_rounds_rounds in Hrounds as (Hall & _).
  pose proof (totals_bounds d history Hall) as (Hw & Hp & Hg & Hm).
  rewrite Hlen in Hw, Hm. unfold ROUNDS_PER_GAME in Hw, Hm. cbn [length seq] in Hw, Hm.
  simpl in Hs, Hta, Hcg, Hwl.
  assert (Hkept : score (self s13) = score (self s10) /\
                  words_learned (self s13) = words_learned (self s10) /\
                  total_attempts (self s13) = total_attempts (self s10) /\
                  correct_guesses (self s13) = correct_guesses (self s10)).
  { destruct (Ledger.high_score_check _ _).
    - apply add_high_score_inv in Hadd as (? & _ & ? & ? & ? & _). by repeat split.
    - by injection Hadd as <-. }
  destruct Hkept as (K1 & K2 & K3 & K4).
  rewrite Hself', K1, K2, K3, K4.
  assert (Hbase : 10 <= base_points d <= 30) by (destruct d; simpl; lia).
  repeat split; try lia; try nia.
Qed.

(** X17: a session on a ledger of well-formed entries ends early only
    because a prompt raised what the terminal ends with ([EOFError] at the
    end of the input, [KeyboardInterrupt] when the player interrupts the
    prompt), with no line left, or because the write of the score file
    raised something else than [IOError]; it never puts a line back on the
    terminal. *)
Theorem play_game_cut_short st e st' :
  play_game st = (Raised e, st') ->
  cut_short e (world st) (world st') /\
  stdin (world st') `suffix_of` stdin (world st).
Proof.
  intros Hrun. apply steady_play_game in Hrun as (Hs & _ & _ & Hc).
  split; [by apply Hc|done].
Qed.

End SessionMore.


Section SessionMoreScenarios.

Import Py PyStr WordBank Store Game Round Session Examples Display Menu Views.

Local Open Scope Z_scope.
Local Open Scope list_scope.

Local Existing Instance UCD.ucd.

Lemma play_game_records_final_score_session :
  high_scores (self (snd (play_game session_state))) =
  [{| Ledger.name := py "Al"; Ledger.score := 360;
      Ledger.difficulty := py "easy"; Ledger.date := py "2024-01-01 10:00" |}].
Proof.
  assert (Hd : get_difficulty session_state =
               (Done easy, snd (get_difficulty session_state)))
    by (vm_compute; reflexivity).
  assert (Hl : input (snd (get_difficulty session_state)) =
               (Done (py "Al"), snd (input (snd (get_difficulty session_state)))))
    by (vm_compute; reflexivity).
  assert (Hrun : play_game session_state =
                 (Done (history_of (play_game session_state)),
                  snd (play_game session_state)))
    by (vm_compute; reflexivity).
  pose proof (play_game_records_final_score session_state easy _ (py "Al") _ _ _
                Hd Hl Hrun) as [_ H].
  vm_compute in H. vm_compute. exact (proj1 H).
Defined.

Lemma play_game_score_bounds_session :
  Z.of_nat (length (words_learned (self (snd (play_game session_state))))) =
    total won (history_of (play_game session_state)) /\
  0 <= score (self (snd (play_game session_state))) <= 600.
Proof.
  assert (Hd : get_difficulty session_state =
               (Done easy, snd (get_difficulty session_state)))
    by (vm_compute; reflexivity).
  assert (Hrun : play_game session_state =
                 (Done (history_of (play_game session_state)),
                  snd (play_game session_state)))
    by (vm_compute; reflexivity).
  destruct (play_game_score_bounds session_state easy _ _ _ Hd Hrun)
    as (H1 & _ & _ & H4 & _).
  by split.
Defined.

Lemma play_game_cut_short_no_name :
  cut_short EOFError (world (example_state ["1"] 0))
    (world (snd (play_game (example_state ["1"] 0)))).
Proof.
  apply (play_game_cut_short (example_state ["1"] 0) EOFError
           (snd (play_game (example_state ["1"] 0)))).
  vm_compute. reflexivity.
Defined.

End SessionMoreScenarios.
(** ** The menu loop *)

Section MenuFacts.

Import Py PyStr WordBank Store Game Round Session Examples Display Menu Views.

Local Open Scope list_scope.

Context `{U : Unicode}.

Lemma input_done st line st1 :
  input st = (Done line, st1) ->
  stdin (world st) = line :: stdin (world st1) /\
  self st1 = self st /\ surroundings st1 = surroundings st.
Proof.
  unfold input. destruct (stdin (world st)) as [|l rest]; [done|].
  by intros [= <- <-].
Qed.





Lemma steady_display_high_scores : steady display_high_scores.
Proof. apply steady_enter. Qed.

Lemma steady_display_instructions : steady display_instructions.
Proof. apply steady_enter. Qed.


Lemma run_fuel_mono fuel :
  forall fuel' st r, run fuel st = Some r -> (fuel <= fuel')%nat -> run fuel' st = Some r.
Proof.
  induction fuel as [|fuel IH]; [done|]. intros [|fuel'] st r Hrun Hle; [lia|].
  cbn [run] in *. destruct (input st) as [[line|e] st1]; [|done].
  assert (Hle' : (fuel <= fuel')%nat) by lia.
  case_bool_decide.
  { destruct (play_game st1) as [[a|e] st2]; [by apply IH|done]. }
  case_bool_decide.
  { destruct (display_high_scores st1) as [[a|e] st2]; [by apply IH|done]. }
  case_bool_decide.
  { destruct (display_instructions st1) as [[a|e] st2]; [by apply IH|done]. }
  case_bool_decide; [done|]. by apply IH.
Qed.

Lemma run_total fuel :
  forall st, (length (stdin (world st)) < fuel)%nat -> exists r, run fuel st = Some r.
Proof.
  induction fuel as [|fuel IH]; intros st Hlen; [lia|]. cbn [run].
  destruct (input st) as [[line|e] st1] eqn:Hin; [|by eexists].
  apply input_done in Hin as (Hline & _). rewrite Hline in Hlen. cbn [length] in Hlen.
  assert (Hbranch : forall A (m : M State A), steady m ->
            exists r, match m st1 with
                      | (Done _, st2) => run fuel st2
                      | (Raised e, st2) => Some (Raised e, st2)
                      end = Some r).
  { intros A m Hm. destruct (m st1) as [[a|e] st2] eqn:Hrun; [|by eexists].
    apply Hm in Hrun as (Hs & _). apply suffix_length in Hs. apply IH. lia. }
  case_bool_decide; [apply Hbranch, steady_play_game|].
  case_bool_decide; [apply Hbranch, steady_display_high_scores|].
  case_bool_decide; [apply Hbranch, steady_display_instructions|].
  case_bool_decide; [by eexists|]. apply IH. lia.
Qed.

(** X18: on a finite terminal [run] ends: with more turns allowed than
    there are lines it returns or raises, and allowing still more turns
    changes neither the outcome nor the state it leaves. *)
Theorem run_terminates fuel st :
  (length (stdin (world st)) < fuel)%nat ->
  exists o st', forall fuel', (fuel <= fuel')%nat -> run fuel' st = Some (o, st').
Proof.
  intros Hlen. destruct (run_total fuel st Hlen) as [[o st'] Hrun].
  exists o, st'. intros fuel' Hle. by eapply run_fuel_mono.
Qed.




End MenuFacts.


Section MenuScenarios.

Import Py PyStr WordBank Store Game Round Session Examples Display Menu Views.

Local Open Scope list_scope.

Local Existing Instance UCD.ucd.

Lemma run_terminates_quit :
  exists o st',
    forall fuel', (5 <= fuel')%nat ->
      run fuel' (example_state ["2"; ""; " 4 "; "x"] 0) = Some (o, st').
Proof.
  apply (run_terminates 5 (example_state ["2"; ""; " 4 "; "x"] 0)).
  simpl. lia.
Defined.



End MenuScenarios.
(** ** The table of high scores *)

Section TableFacts.

Import Py Store Game Session Examples Display Views Ledger.

Local Open Scope list_scope.

Lemma high_score_rows_entries hs : map snd (high_score_rows hs) = take 10 hs.
Proof. unfold high_score_rows. apply snd_zip. by rewrite length_seq. Qed.

Lemma high_score_rows_ranks hs :
  map fst (high_score_rows hs) = seq 1 (length hs `min` 10).
Proof.
  unfold high_score_rows. rewrite fst_zip by by rewrite length_seq.
  rewrite length_take. f_equal. lia.
Qed.

(** X23: the table of [display_high_scores] shows the first ten entries
    of the ledger in their order, numbered from 1 without a gap; a ledger
    that [add_high_score] has left is shown whole. *)
Theorem high_score_rows_table hs n s d st :
  map snd (high_score_rows hs) = take 10 hs /\
  map fst (high_score_rows hs) = seq 1 (length hs `min` 10) /\
  map snd (high_score_rows (ledger_after n s d st)) = ledger_after n s d st /\
  map fst (high_score_rows (ledger_after n s d st)) =
    seq 1 (length (ledger_after n s d st)).
Proof.
  split; [apply high_score_rows_entries|]. split; [apply high_score_rows_ranks|].
  pose proof (ranked_length (high_scores (self st)) (entry_added n s d st)) as Hlen.
  rewrite <- ledger_after_ranked in Hlen.
  rewrite high_score_rows_entries, high_score_rows_ranks.
  split; [by apply take_ge|]. f_equal. lia.
Qed.

End TableFacts.

